(** * OCR key bundle (core/store/models/ocrkey/private_key.go)

    A shallow embedding of the OCR key bundle of the node: generation of the
    three key pairs, the key-agreement and display operations, the JSON codec
    used for the identity and for the encryption payload, and the
    password-based [Encrypt]/[Decrypt] pair.

    The Go file is a thin layer over libraries that are not part of the
    repository (encoding/json, crypto/sha256, go-ethereum's secp256k1 and
    keystore, x/crypto's curve25519, crypto/ed25519).  These are collected in
    the class [Libraries]; the functions of private_key.go are written once,
    over any such libraries, and every theorem names the library contract it
    relies on.  A reference instance of the libraries (module [Ref]) runs the
    code on concrete inputs (modules [Sample] and [Scenario]).

    The in-memory store of chain configuration values that the tests of
    core/chains/evm/config use ([fakeChainConfigORM], config_test.go) is
    embedded in the module [config_test], over stdpp's finite maps. *)

From Stdlib Require Import ZArith List Strings.String Strings.Ascii Strings.Byte Bool Lia.
From Stdlib Require Uint63 DecimalString DecimalZ.
From Bignums Require BigZ.
From stdpp Require gmap strings.
Import ListNotations.
Local Open Scope string_scope.
Local Open Scope list_scope.
Local Open Scope Z_scope.
Local Abbreviation length := Datatypes.length (only parsing).


(* ===================================================================== *)
(** ** Go values: bytes, strings, errors, outcomes                        *)
(* ===================================================================== *)

Definition byte := Byte.byte.

(** A Go [[]byte] (and a fixed array [[n]byte], whose length is then
    stated separately). *)
Definition bytes := list byte.

Definition u8 (b : byte) : Z := Z.of_N (Byte.to_N b).

Definition byte_of_Z (z : Z) : byte :=
  match Byte.of_N (Z.to_N (z mod 256)) with
  | Some b => b
  | None => x00
  end.

(** [make([]byte, n)]: n zero bytes. *)
Definition zeros (n : nat) : bytes := repeat x00 n.

(** [copy(dst[:], src)] into a fresh (zeroed) array of [n] bytes. *)
Definition copy_into (n : nat) (src : bytes) : bytes :=
  firstn n src ++ zeros (n - length src).

(** Go's [error]: [errors.New]/[fmt.Errorf] values and the wrapper that
    [github.com/pkg/errors.Wrapf] puts around a cause. *)
Inductive error : Type :=
| errorString (s : string)
| withMessage (cause : error) (msg : string).

Fixpoint Error (e : error) : string :=
  match e with
  | errorString s => s
  | withMessage cause msg => (msg ++ ": " ++ Error cause)%string
  end.

(** [errors.Wrapf(err, msg)] for a non-nil [err] (its only use here). *)
Definition errors_Wrapf (err : error) (msg : string) : error :=
  withMessage err msg.

(** The outcome of a Go call returning [(T, error)]: a value, an error, or
    a run-time panic (nil dereference, explicit [panic]). *)
Inductive result (A : Type) : Type :=
| Ok (a : A)
| Err (e : error)
| Panic (why : string).
Arguments Ok {A} a.
Arguments Err {A} e.
Arguments Panic {A} why.

Definition rbind {A B} (r : result A) (k : A -> result B) : result B :=
  match r with
  | Ok a => k a
  | Err e => Err e
  | Panic w => Panic w
  end.

(** [if err != nil { return nil, errors.Wrapf(err, msg) }] *)
Definition wrap_err {A} (r : result A) (msg : string) : result A :=
  match r with
  | Ok a => Ok a
  | Err e => Err (errors_Wrapf e msg)
  | Panic w => Panic w
  end.

Declare Scope go_scope.
Delimit Scope go_scope with go.
Notation "x <- c ;; k" := (rbind c (fun x => k))
  (at level 61, c at next level, right associativity) : go_scope.

(* ===================================================================== *)
(** ** math/big, encoding/hex                                             *)
(* ===================================================================== *)

(** [new(big.Int).SetBytes(b)]: big-endian unsigned. *)
Definition SetBytes (b : bytes) : Z :=
  fold_left (fun acc x => acc * 256 + u8 x) b 0.

Fixpoint le_bytes (fuel : nat) (n : Z) : bytes :=
  match fuel with
  | O => []
  | S f => if n =? 0 then [] else byte_of_Z (n mod 256) :: le_bytes f (n / 256)
  end.

(** [big.Int.Bytes()]: the big-endian bytes of the absolute value,
    without leading zeros (the empty slice for 0). *)
Definition Bytes (x : Z) : bytes :=
  rev (le_bytes (S (Z.to_nat (Z.log2 (Z.abs x)))) (Z.abs x)).

(** [big.Int.BitLen()]. *)
Definition BitLen (x : Z) : Z :=
  if Z.abs x =? 0 then 0 else Z.log2 (Z.abs x) + 1.

Definition hextable : string := "0123456789abcdef".

Definition hexdigit (n : Z) : ascii :=
  match String.get (Z.to_nat n) hextable with
  | Some c => c
  | None => "0"%char
  end.

(** [hex.EncodeToString]: two lowercase digits per byte. *)
Fixpoint hex_EncodeToString (src : bytes) : string :=
  match src with
  | [] => EmptyString
  | v :: rest =>
      String (hexdigit (Z.shiftr (u8 v) 4))
        (String (hexdigit (Z.land (u8 v) 15)) (hex_EncodeToString rest))
  end.

(* ===================================================================== *)
(** ** crypto/rand                                                        *)
(* ===================================================================== *)

(** The state of [crypto/rand.Reader]: the bytes it is going to deliver.
    A read of [n] bytes delivers the next [n] bytes, or fails when the
    source cannot deliver them. *)
Definition Reader := bytes.

Definition ErrEntropy : error := errorString "unexpected EOF".

(** A computation that consumes entropy. *)
Definition Rand (A : Type) : Type := Reader -> result (A * Reader).

Definition ret {A} (a : A) : Rand A := fun r => Ok (a, r).

Definition bind {A B} (c : Rand A) (k : A -> Rand B) : Rand B :=
  fun r => match c r with
           | Ok (a, r') => k a r'
           | Err e => Err e
           | Panic w => Panic w
           end.

Definition lift {A} (c : result A) : Rand A :=
  fun r => match c with
           | Ok a => Ok (a, r)
           | Err e => Err e
           | Panic w => Panic w
           end.

Declare Scope rand_scope.
Delimit Scope rand_scope with rand.
Notation "x <~ c ;; k" := (bind c (fun x => k))
  (at level 61, c at next level, right associativity) : rand_scope.

(** [io.ReadFull(reader, buf)] with [len(buf) = n]; also
    [reader.Read(buf)] on [crypto/rand.Reader], which fills the buffer or
    fails. *)
Definition ReadFull (n : nat) : Rand bytes :=
  fun r =>
    if (n <=? length r)%nat then Ok (firstn n r, skipn n r)
    else Err ErrEntropy.

(** The rejection loop of [cryptorand.Int]: read [k] bytes, clear the
    bits above [b] in the first one, accept the value when it is below
    [max].  [fuel] bounds the number of rounds; a round consumes [k >= 1]
    bytes, so [length r] rounds always suffice (see [cryptorand_Int]). *)
Fixpoint cryptorand_Int_loop (fuel : nat) (k : nat) (b : Z) (max : Z) : Rand Z :=
  fun r =>
    match fuel with
    | O => Err ErrEntropy
    | S fuel' =>
        match ReadFull k r with
        | Ok (buf, r') =>
            let buf' :=
              match buf with
              | [] => []
              | b0 :: tl => byte_of_Z (Z.land (u8 b0) (Z.shiftl 1 b - 1)) :: tl
              end in
            let n := SetBytes buf' in
            if n <? max then Ok (n, r') else cryptorand_Int_loop fuel' k b max r'
        | Err e => Err e
        | Panic w => Panic w
        end
    end.

(** [cryptorand.Int(reader, max)]: a value in [[0, max)]. *)
Definition cryptorand_Int (max : Z) : Rand Z :=
  fun r =>
    if max <=? 0 then Panic "crypto/rand: argument to Int is <= 0"
    else
      let bitLen := BitLen (max - 1) in
      if bitLen =? 0 then Ok (0, r)
      else
        let k := Z.to_nat ((bitLen + 7) / 8) in
        let b := if bitLen mod 8 =? 0 then 8 else bitLen mod 8 in
        cryptorand_Int_loop (S (length r)) k b max r.

(* ===================================================================== *)
(** ** Data model (private_key.go, lines 23-54)                           *)
(* ===================================================================== *)

(** The [elliptic.Curve] values that occur: the package variable
    [curve = secp256k1.S256()].  A nil interface is [None]. *)
Inductive elliptic_Curve : Type := secp256k1_S256.

(** [ecdsa.PrivateKey], with its embedded [ecdsa.PublicKey{Curve, X, Y}].
    [X] and [Y] are [*big.Int] and can be nil. *)
Module ecdsa.
Record PrivateKey : Type := mk {
  Curve : option elliptic_Curve;
  X : option Z;
  Y : option Z;
  D : Z
}.
End ecdsa.

(** [type onChainPrivateKey ecdsa.PrivateKey] *)
Definition onChainPrivateKey : Type := ecdsa.PrivateKey.

(** [type offChainPrivateKey ed25519.PrivateKey], a byte slice. *)
Definition offChainPrivateKey : Type := bytes.

(** [OCRPrivateKey].  The three sub-keys are pointers in Go; both
    constructors of the file ([NewOCRPrivateKey], [UnmarshalJSON]) set all
    three, so a bundle is modelled with all three present. *)
Module OCRPrivateKey.
Record t : Type := mk {
  ID : string;
  onChainSigning : onChainPrivateKey;
  offChainSigning : offChainPrivateKey;
  offChainEncryption : bytes
}.
End OCRPrivateKey.

(** [EncryptedOCRPrivateKey].  [OnChainSigningAddress] is a 20-byte
    address, [OffChainPublicKey] an [ed25519.PublicKey]; the two time
    stamps are left at their zero value by this file. *)
Module EncryptedOCRPrivateKey.
Record t : Type := mk {
  ID : string;
  OnChainSigningAddress : bytes;
  OffChainPublicKey : bytes;
  EncryptedPrivKeys : bytes;
  CreatedAt : Z;
  UpdatedAt : Z
}.
End EncryptedOCRPrivateKey.

Module ocrPrivateKeyRawData.
Record t : Type := mk {
  EcdsaX : Z;
  EcdsaY : Z;
  EcdsaD : Z;
  Ed25519PrivKey : bytes;
  OffChainEncryption : bytes
}.
End ocrPrivateKeyRawData.

Module scryptParams.
Record t : Type := mk { N : Z; P : Z }.
End scryptParams.

(** [keystore.StandardScryptN], [keystore.StandardScryptP] *)
Definition keystore_StandardScryptN : Z := Z.shiftl 1 18.
Definition keystore_StandardScryptP : Z := 1.

Definition defaultScryptParams : scryptParams.t :=
  scryptParams.mk keystore_StandardScryptN keystore_StandardScryptP.

(** [crypto.S256().Params().N], the order of the secp256k1 group. *)
Definition S256_N : Z :=
  0xFFFFFFFFFFFFFFFFFFFFFFFFFFFFFFFEBAAEDCE6AF48A03BBFD25E8CD0364141.

(** [curve25519.ScalarSize], [curve25519.PointSize], [ed25519.PublicKeySize] *)
Definition curve25519_ScalarSize : nat := 32.
Definition curve25519_PointSize : nat := 32.
Definition ed25519_PublicKeySize : nat := 32.

(** [curve25519.Basepoint] *)
Definition curve25519_Basepoint : bytes := x09 :: zeros 31.

(** [keystore.ErrDecrypt] *)
Definition keystore_ErrDecrypt : error :=
  errorString "could not decrypt key with given password".

Definition time_zero : Z := 0.

(** What [Decrypt] returns when the keystore answers [ErrDecrypt]:
    [errors.Wrapf(err, "could not decrypt OCR key")]. *)
Definition ErrCouldNotDecrypt : error :=
  errors_Wrapf keystore_ErrDecrypt "could not decrypt OCR key".

(* ===================================================================== *)
(** ** What private_key.go calls and does not define                      *)
(* ===================================================================== *)

(** The library functions the file calls, and the methods of the key
    types that the package defines in other files. *)
Class Libraries : Type := {
  (** encoding/json on [ocrPrivateKeyRawData] *)
  json_Marshal_raw : ocrPrivateKeyRawData.t -> result bytes;
  json_Unmarshal_raw : bytes -> result ocrPrivateKeyRawData.t;
  (** [keystore.CryptoJSON] and encoding/json on it *)
  CryptoJSON : Type;
  json_Marshal_crypto : CryptoJSON -> result bytes;
  json_Unmarshal_crypto : bytes -> result CryptoJSON;
  (** [sha256.Sum256] *)
  sha256_Sum256 : bytes -> bytes;
  (** [curve.ScalarBaseMult], with [curve = secp256k1.S256()]: the two
      coordinates, nil when the library has no affine point to return. *)
  curve_ScalarBaseMult : bytes -> option Z * option Z;
  (** [ed25519.GenerateKey(reader)]: public key, private key. *)
  ed25519_GenerateKey : Rand (bytes * bytes);
  (** [curve25519.X25519(scalar, point)] *)
  curve25519_X25519 : bytes -> bytes -> result bytes;
  (** [keystore.EncryptDataV3(data, auth, scryptN, scryptP)], which draws
      its salt and IV from [crypto/rand.Reader], and
      [keystore.DecryptDataV3(cryptoJSON, auth)]. *)
  keystore_EncryptDataV3 : bytes -> bytes -> Z -> Z -> Reader -> result CryptoJSON;
  keystore_DecryptDataV3 : CryptoJSON -> string -> result bytes;
  (** Modelled from the spec: [onChainPrivateKey.Address()] is defined in
      another file of the package; the address is derived from the public
      point (the hash of the uncompressed point, its last bytes). *)
  crypto_PubkeyToAddress : option Z -> option Z -> bytes;
  (** Modelled from the spec: [offChainPrivateKey.PublicKey()] is defined
      in another file of the package; the fixed-length verification key of
      the off-chain private key. *)
  offChainPrivateKey_PublicKey : offChainPrivateKey -> bytes;
  (** The [String()] methods of [OnChainSigningAddress] and
      [OffChainPublicKey] (other files of the package), used by [%s]. *)
  OnChainSigningAddress_String : bytes -> string;
  OffChainPublicKey_String : bytes -> string
}.

(* ===================================================================== *)
(** ** private_key.go                                                     *)
(* ===================================================================== *)

Section PrivateKey.
Context {L : Libraries}.

Import OCRPrivateKey.

Local Open Scope go_scope.

(** Modelled from the spec: [onChainPrivateKey.Address()] is defined in
    another file of the package; the address is "the fixed-length hash of
    the uncompressed public point", a function of [X] and [Y]. *)
Definition onChainPrivateKey_Address (k : onChainPrivateKey) : bytes :=
  crypto_PubkeyToAddress (ecdsa.X k) (ecdsa.Y k).

(** [MarshalJSON] (lines 194-203): the raw data are the two public
    coordinates, the private scalar, the Ed25519 private key and the
    curve25519 scalar; [*pk.onChainSigning.X] panics on a nil [X]. *)
Definition MarshalJSON (pk : OCRPrivateKey.t) : result bytes :=
  match ecdsa.X (onChainSigning pk), ecdsa.Y (onChainSigning pk) with
  | Some x, Some y =>
      let rawKeyData :=
        {| ocrPrivateKeyRawData.EcdsaX := x;
           ocrPrivateKeyRawData.EcdsaY := y;
           ocrPrivateKeyRawData.EcdsaD := ecdsa.D (onChainSigning pk);
           ocrPrivateKeyRawData.Ed25519PrivKey := offChainSigning pk;
           ocrPrivateKeyRawData.OffChainEncryption := offChainEncryption pk |} in
      json_Marshal_raw rawKeyData
  | _, _ => Panic "invalid memory address or nil pointer dereference"
  end.

(** [UnmarshalJSON] (lines 206-226) on the receiver [pk]: the three
    sub-keys are replaced, [ID] is left as it is, and the public key is
    built without a [Curve]. *)
Definition UnmarshalJSON (pk : OCRPrivateKey.t) (b : bytes) : result OCRPrivateKey.t :=
  rawKeyData <- json_Unmarshal_raw b ;;
  let publicKey_X := Some (ocrPrivateKeyRawData.EcdsaX rawKeyData) in
  let publicKey_Y := Some (ocrPrivateKeyRawData.EcdsaY rawKeyData) in
  let privateKey :=
    {| ecdsa.Curve := None;
       ecdsa.X := publicKey_X;
       ecdsa.Y := publicKey_Y;
       ecdsa.D := ocrPrivateKeyRawData.EcdsaD rawKeyData |} in
  let onChainSigning' : onChainPrivateKey := privateKey in
  let offChainSigning' : offChainPrivateKey :=
    ocrPrivateKeyRawData.Ed25519PrivKey rawKeyData in
  Ok {| ID := ID pk;
        onChainSigning := onChainSigning';
        offChainSigning := offChainSigning';
        offChainEncryption := ocrPrivateKeyRawData.OffChainEncryption rawKeyData |}.

(** [json.Marshal(k)] and [json.Unmarshal(b, &pk)] on a bundle go
    through the two methods above. *)
Definition json_Marshal (pk : OCRPrivateKey.t) : result bytes := MarshalJSON pk.
Definition json_Unmarshal (b : bytes) (pk : OCRPrivateKey.t) : result OCRPrivateKey.t :=
  UnmarshalJSON pk b.

(** [var pk OCRPrivateKey]: the zero value, every field of which but
    [ID] is overwritten by [UnmarshalJSON]. *)
Definition zero_OCRPrivateKey : OCRPrivateKey.t :=
  {| ID := EmptyString;
     onChainSigning := ecdsa.mk None None None 0;
     offChainSigning := [];
     offChainEncryption := [] |}.

(** [NewOCRPrivateKey] (lines 57-89); the computation runs on the state
    of [cryptorand.Reader]. *)
Definition NewOCRPrivateKey : Rand OCRPrivateKey.t :=
  (onChainSk <~ cryptorand_Int S256_N ;;
   let xy := curve_ScalarBaseMult (Bytes onChainSk) in
   let onChainPriv : onChainPrivateKey :=
     {| ecdsa.Curve := Some secp256k1_S256;
        ecdsa.X := fst xy;
        ecdsa.Y := snd xy;
        ecdsa.D := onChainSk |} in
   keys <~ ed25519_GenerateKey ;;
   let offChainPriv := snd keys in
   encryptionPriv <~ ReadFull curve25519_ScalarSize ;;
   let k := {| ID := EmptyString;
               onChainSigning := onChainPriv;
               offChainSigning := offChainPriv;
               offChainEncryption := encryptionPriv |} in
   marshalledPrivK <~ lift (json_Marshal k) ;;
   let byteID := sha256_Sum256 marshalledPrivK in
   ret {| ID := hex_EncodeToString byteID;
          onChainSigning := onChainSigning k;
          offChainSigning := offChainSigning k;
          offChainEncryption := offChainEncryption k |})%rand.

(** [ConfigDiffieHelman] (lines 103-113) *)
Definition ConfigDiffieHelman (pk : OCRPrivateKey.t) (base : bytes) : result bytes :=
  p <- curve25519_X25519 (offChainEncryption pk) base ;;
  let sharedPoint := copy_into ed25519_PublicKeySize p in
  Ok sharedPoint.

(** [PublicKeyAddressOnChain] (lines 117-119) *)
Definition PublicKeyAddressOnChain (pk : OCRPrivateKey.t) : bytes :=
  onChainPrivateKey_Address (onChainSigning pk).

(** [PublicKeyOffChain] (lines 122-124) *)
Definition PublicKeyOffChain (pk : OCRPrivateKey.t) : bytes :=
  offChainPrivateKey_PublicKey (offChainSigning pk).

(** [PublicKeyConfig] (lines 127-135): an error of [X25519] is logged
    and the zero array is returned. *)
Definition PublicKeyConfig (pk : OCRPrivateKey.t) : result bytes :=
  match curve25519_X25519 (offChainEncryption pk) curve25519_Basepoint with
  | Ok rv => Ok (copy_into curve25519_PointSize rv)
  | Err _ => Ok (copy_into curve25519_PointSize [])
  | Panic w => Panic w
  end.

(** [adulteratedPassword] (lines 245-248) *)
Definition adulteratedPassword (auth : string) : string :=
  let s := ("ocrkey" ++ auth)%string in
  s.

(** [encrypt] (lines 147-171); [rnd] is the state of
    [crypto/rand.Reader] when [keystore.EncryptDataV3] is called. *)
Definition encrypt (pk : OCRPrivateKey.t) (auth : string)
    (scryptParams : scryptParams.t) (rnd : Reader)
  : result EncryptedOCRPrivateKey.t :=
  marshalledPrivK <- json_Marshal pk ;;
  cryptoJSON <-
    wrap_err
      (keystore_EncryptDataV3
         marshalledPrivK
         (list_byte_of_string (adulteratedPassword auth))
         (scryptParams.N scryptParams)
         (scryptParams.P scryptParams)
         rnd)
      "could not encrypt ocr key" ;;
  encryptedPrivKeys <-
    wrap_err (json_Marshal_crypto cryptoJSON) "could not encode cryptoJSON" ;;
  Ok {| EncryptedOCRPrivateKey.ID := ID pk;
        EncryptedOCRPrivateKey.OnChainSigningAddress :=
          onChainPrivateKey_Address (onChainSigning pk);
        EncryptedOCRPrivateKey.OffChainPublicKey :=
          offChainPrivateKey_PublicKey (offChainSigning pk);
        EncryptedOCRPrivateKey.EncryptedPrivKeys := encryptedPrivKeys;
        EncryptedOCRPrivateKey.CreatedAt := time_zero;
        EncryptedOCRPrivateKey.UpdatedAt := time_zero |}.

(** [Encrypt] (lines 139-141) *)
Definition Encrypt (pk : OCRPrivateKey.t) (auth : string) (rnd : Reader)
  : result EncryptedOCRPrivateKey.t :=
  encrypt pk auth defaultScryptParams rnd.

(** [Decrypt] (lines 174-191) *)
Definition Decrypt (encKey : EncryptedOCRPrivateKey.t) (auth : string)
  : result OCRPrivateKey.t :=
  cryptoJSON <-
    wrap_err (json_Unmarshal_crypto (EncryptedOCRPrivateKey.EncryptedPrivKeys encKey))
             "invalid cryptoJSON for OCR key" ;;
  marshalledPrivK <-
    wrap_err (keystore_DecryptDataV3 cryptoJSON (adulteratedPassword auth))
             "could not decrypt OCR key" ;;
  pk <-
    wrap_err (json_Unmarshal marshalledPrivK zero_OCRPrivateKey)
             "could not unmarshal OCR key" ;;
  Ok {| ID := EncryptedOCRPrivateKey.ID encKey;
        onChainSigning := onChainSigning pk;
        offChainSigning := offChainSigning pk;
        offChainEncryption := offChainEncryption pk |}.

(** [String] (lines 229-235); [String] alone is the constructor of
    strings here.  [%s] prints the two values with their [String()]
    methods. *)
Definition OCRPrivateKey_String (pk : OCRPrivateKey.t) : string :=
  ("OCRPrivateKey{PublicKeyAddressOnChain: "
     ++ OnChainSigningAddress_String (PublicKeyAddressOnChain pk)
     ++ ", PublicKeyOffChain: "
     ++ OffChainPublicKey_String (PublicKeyOffChain pk)
     ++ "}")%string.

(** [GoStringer] (lines 238-240) *)
Definition GoStringer (pk : OCRPrivateKey.t) : string :=
  OCRPrivateKey_String pk.

End PrivateKey.

(* ===================================================================== *)
(** ** Library contracts                                                  *)
(* ===================================================================== *)

Section Contracts.
Context {L : Libraries}.

(** encoding/json: decoding what was encoded gives the value back. *)
Definition json_raw_round_trip : Prop :=
  forall raw b, json_Marshal_raw raw = Ok b -> json_Unmarshal_raw b = Ok raw.

Definition json_crypto_round_trip : Prop :=
  forall cj b, json_Marshal_crypto cj = Ok b -> json_Unmarshal_crypto b = Ok cj.

(** keystore: [DecryptDataV3] with the password of [EncryptDataV3]
    returns the data. *)
Definition keystore_round_trip : Prop :=
  forall data auth n p rnd cj,
    keystore_EncryptDataV3 data auth n p rnd = Ok cj ->
    keystore_DecryptDataV3 cj (string_of_list_byte auth) = Ok data.

(** crypto/hmac: what [hmac.New(sha256.New, key)] keeps of its key, a
    block of 64 bytes: the key, or its hash when the key is longer than
    a block, filled up with zero bytes. *)
Definition hmac_key_block (key : bytes) : bytes :=
  copy_into 64 (if (64 <? length key)%nat then sha256_Sum256 key else key).

(** keystore: the password enters [DecryptDataV3] as the key of
    HMAC-SHA256 and in no other way ([scrypt.Key] and [pbkdf2.Key] hand
    it to [hmac.New]): two passwords with the same key block are not
    told apart. *)
Definition keystore_password_as_hmac_key : Prop :=
  forall cj auth auth',
    hmac_key_block (list_byte_of_string auth)
    = hmac_key_block (list_byte_of_string auth') ->
    keystore_DecryptDataV3 cj auth = keystore_DecryptDataV3 cj auth'.

(** secp256k1: [ScalarBaseMult] has no point for the scalar 0 (the bytes
    of the [big.Int] 0), and returns nil for both coordinates. *)
Definition secp256k1_no_point_for_zero : Prop :=
  curve_ScalarBaseMult (Bytes 0) = (None, None).

(** crypto/sha256: [Sum256] returns a [[32]byte]. *)
Definition sha256_size : Prop :=
  forall m, length (sha256_Sum256 m) = 32%nat.

(** x/crypto/curve25519: a returned point has 32 bytes and is not the
    all-zero point (the library's low-order check). *)
Definition X25519_never_zero : Prop :=
  forall scalar point out,
    curve25519_X25519 scalar point = Ok out ->
    length out = 32%nat /\ out <> zeros 32.

(** x/crypto/curve25519: the Diffie-Hellman property of X25519
    (RFC 7748, section 6.1).  For any two scalars of 32 bytes, the
    products with the base point are returned, and each scalar applied
    to the product of the other returns the same point. *)
Definition X25519_Diffie_Hellman : Prop :=
  forall a b : bytes,
    length a = 32%nat -> length b = 32%nat ->
    exists pa pb s,
      curve25519_X25519 a curve25519_Basepoint = Ok pa /\
      curve25519_X25519 b curve25519_Basepoint = Ok pb /\
      curve25519_X25519 a pb = Ok s /\
      curve25519_X25519 b pa = Ok s.

End Contracts.

(** A string of [k] NUL characters. *)
Fixpoint nuls (k : nat) : string :=
  match k with
  | O => EmptyString
  | S k' => String Ascii.zero (nuls k')
  end.

(** The number of bytes that are not zero. *)
Definition count_nonzero (l : bytes) : nat :=
  length (filter (fun b => negb (Byte.eqb b x00)) l).

(** A string of lowercase hexadecimal digits. *)
Definition is_lower_hex (c : ascii) : bool :=
  let n := N_of_ascii c in
  ((48 <=? n) && (n <=? 57) || (97 <=? n) && (n <=? 102))%N.

Fixpoint all_chars (p : ascii -> bool) (s : string) : bool :=
  match s with
  | EmptyString => true
  | String c s' => p c && all_chars p s'
  end.

(* ===================================================================== *)
(** ** Reference libraries                                                *)
(* ===================================================================== *)

(** Executable models of the libraries, after their documentation: SHA-256
    (FIPS 180-4) on machine words, the secp256k1 group and X25519
    (RFC 7748) on big integers, the JSON text
    that encoding/json produces for the two structures, HMAC-SHA256,
    PBKDF2 and scrypt (RFC 7914), and a keystore in the layout of
    go-ethereum's, with stand-ins for AES-128-CTR and Keccak-256.
    They are used to run the code of the file on concrete inputs. *)
Module Ref.

Import PrimInt63.

(** *** Big-endian words *)

Definition be_bytes (n : nat) (x : Z) : bytes :=
  map (fun i => byte_of_Z (Z.shiftr x (8 * Z.of_nat i))) (rev (seq 0 n)).

Fixpoint chunks (fuel : nat) (n : nat) (l : bytes) : list bytes :=
  match fuel with
  | O => []
  | S f => match l with
           | [] => []
           | _ => firstn n l :: chunks f n (skipn n l)
           end
  end.

(** *** crypto/sha256 *)

(** 32-bit words in machine integers. *)
Definition word : Type := Uint63.int.

Definition w32 (x : word) : word := Uint63.land x 0xffffffff%uint63.
Definition wadd (x y : word) : word := w32 (Uint63.add x y).
Definition wxor3 (x y z : word) : word := Uint63.lxor (Uint63.lxor x y) z.
Definition rotr (n : Uint63.int) (x : word) : word :=
  w32 (Uint63.lor (Uint63.lsr x n) (Uint63.lsl x (Uint63.sub 32 n))).

Definition word_of_bytes (b : bytes) : word := Uint63.of_Z (SetBytes b).
Definition bytes_of_word (x : word) : bytes := be_bytes 4 (Uint63.to_Z x).

(** The integer [k]-th root of [n], by bisection between [lo] and [hi]. *)
Fixpoint iroot (fuel : nat) (k n lo hi : Z) : Z :=
  match fuel with
  | O => lo
  | S f =>
      if hi - lo <=? 1 then lo
      else
        let mid := (lo + hi) / 2 in
        if mid ^ k <=? n then iroot f k n mid hi else iroot f k n lo mid
  end.

Definition is_prime (n : Z) : bool :=
  forallb (fun d => negb (n mod Z.of_nat d =? 0)) (seq 2 (Z.to_nat n - 2)).

(** The first primes: 2, 3, 5, ..., 311 are the first sixty-four. *)
Definition primes_to (bound : nat) : list Z :=
  filter is_prime (map Z.of_nat (seq 2 (bound - 1))).

(** The first 32 bits of the fractional part of the [k]-th root of [p]. *)
Definition frac_root (k p : Z) : word :=
  Uint63.of_Z (iroot 80 k (p * 2 ^ (32 * k)) 0 (2 ^ 64) mod 2 ^ 32).

(** The round constants: from the cube roots of the first 64 primes. *)
Definition sha256_K : list word :=
  Eval vm_compute in map (frac_root 3) (primes_to 311).

Definition sha256_state : Type :=
  (word * word * word * word * word * word * word * word)%type.

(** The initial state: from the square roots of the first 8 primes. *)
Definition sha256_init : sha256_state :=
  Eval vm_compute in
    match map (frac_root 2) (primes_to 19) with
    | [a; b; c; d; e; f; g; h] => (a, b, c, d, e, f, g, h)
    | _ => (0, 0, 0, 0, 0, 0, 0, 0)%uint63
    end.

(** The padded message: the bit 1, zeros, and the bit length on 64 bits. *)
Definition sha256_pad (m : bytes) : bytes :=
  let l := Z.of_nat (length m) in
  m ++ [x80] ++ zeros (Z.to_nat ((55 - l) mod 64)) ++ be_bytes 8 (8 * l).

(** The message schedule, most recent word first. *)
Fixpoint sha256_schedule (n : nat) (ws : list word) : list word :=
  match n with
  | O => ws
  | S n' =>
      let w2 := nth 1 ws 0%uint63 in
      let w7 := nth 6 ws 0%uint63 in
      let w15 := nth 14 ws 0%uint63 in
      let w16 := nth 15 ws 0%uint63 in
      let s0 := wxor3 (rotr 7 w15) (rotr 18 w15) (Uint63.lsr w15 3) in
      let s1 := wxor3 (rotr 17 w2) (rotr 19 w2) (Uint63.lsr w2 10) in
      sha256_schedule n' (wadd (wadd w16 s0) (wadd w7 s1) :: ws)
  end.

Definition sha256_round (st : sha256_state) (kw : word * word) : sha256_state :=
  let '(a, b, c, d, e, f, g, h) := st in
  let S1 := wxor3 (rotr 6 e) (rotr 11 e) (rotr 25 e) in
  let ch := Uint63.lxor (Uint63.land e f)
              (Uint63.land (Uint63.lxor e 0xffffffff%uint63) g) in
  let t1 := wadd (wadd (wadd h S1) (wadd ch (fst kw))) (snd kw) in
  let S0 := wxor3 (rotr 2 a) (rotr 13 a) (rotr 22 a) in
  let maj := wxor3 (Uint63.land a b) (Uint63.land a c) (Uint63.land b c) in
  let t2 := wadd S0 maj in
  (wadd t1 t2, a, b, c, wadd d t1, e, f, g).

Definition sha256_block (st : sha256_state) (blk : bytes) : sha256_state :=
  let w16 := map word_of_bytes (chunks 16 4 blk) in
  let w := rev (sha256_schedule 48 (rev w16)) in
  let '(a, b, c, d, e, f, g, h) := fold_left sha256_round (combine sha256_K w) st in
  let '(a0, b0, c0, d0, e0, f0, g0, h0) := st in
  (wadd a0 a, wadd b0 b, wadd c0 c, wadd d0 d,
   wadd e0 e, wadd f0 f, wadd g0 g, wadd h0 h).

Definition Sum256 (m : bytes) : bytes :=
  let p := sha256_pad m in
  let '(a, b, c, d, e, f, g, h) :=
    fold_left sha256_block (chunks (length p) 64 p) sha256_init in
  bytes_of_word a ++ bytes_of_word b ++ bytes_of_word c ++ bytes_of_word d ++
  bytes_of_word e ++ bytes_of_word f ++ bytes_of_word g ++ bytes_of_word h.

(** *** Modular arithmetic on big integers *)

Definition bigZ : Type := BigZ.BigZ.t.

Definition fmul (m a b : bigZ) : bigZ := BigZ.BigZ.modulo (BigZ.BigZ.mul a b) m.
Definition fadd (m a b : bigZ) : bigZ := BigZ.BigZ.modulo (BigZ.BigZ.add a b) m.
Definition fsub (m a b : bigZ) : bigZ := BigZ.BigZ.modulo (BigZ.BigZ.sub a b) m.

Fixpoint fpow (m b : bigZ) (e : positive) : bigZ :=
  match e with
  | xH => BigZ.BigZ.modulo b m
  | xO e' => let t := fpow m b e' in fmul m t t
  | xI e' => let t := fpow m b e' in fmul m (fmul m t t) b
  end.

(** The inverse modulo the prime [m] (0 for 0), by Fermat. *)
Definition finv (m a : bigZ) : bigZ :=
  fpow m a (Z.to_pos (BigZ.BigZ.to_Z m - 2)).

(** Little-endian bytes. *)
Definition le_decode (b : bytes) : Z := SetBytes (rev b).
Definition le_encode (n : nat) (x : Z) : bytes := rev (be_bytes n x).

(** *** secp256k1 *)

Definition secp_p : bigZ := BigZ.BigZ.of_Z (2 ^ 256 - 2 ^ 32 - 977).
Definition secp_Gx : bigZ := BigZ.BigZ.of_Z
  0x79BE667EF9DCBBAC55A06295CE870B07029BFCDB2DCE28D959F2815B16F81798.
Definition secp_Gy : bigZ := BigZ.BigZ.of_Z
  0x483ADA7726A3C4655DA4FBFC0E1108A8FD17B448A68554199C47D08FFB10D4B8.

(** A point in Jacobian coordinates [(X, Y, Z)], standing for the
    affine point [(X / Z^2, Y / Z^3)], or the point at infinity. *)
Definition point : Type := option (bigZ * bigZ * bigZ).

Definition secp_double (P : point) : point :=
  match P with
  | None => None
  | Some (x, y, z) =>
      if BigZ.BigZ.eqb y BigZ.BigZ.zero then None
      else
        let p := secp_p in
        let yy := fmul p y y in
        let s := fmul p (BigZ.BigZ.of_Z 4) (fmul p x yy) in
        let m := fmul p (BigZ.BigZ.of_Z 3) (fmul p x x) in
        let x' := fsub p (fmul p m m) (fadd p s s) in
        let y' := fsub p (fmul p m (fsub p s x'))
                    (fmul p (BigZ.BigZ.of_Z 8) (fmul p yy yy)) in
        Some (x', y', fmul p (fadd p y y) z)
  end.

Definition secp_add (P Q : point) : point :=
  match P, Q with
  | None, _ => Q
  | _, None => P
  | Some (x1, y1, z1), Some (x2, y2, z2) =>
      let p := secp_p in
      let z1z1 := fmul p z1 z1 in
      let z2z2 := fmul p z2 z2 in
      let u1 := fmul p x1 z2z2 in
      let u2 := fmul p x2 z1z1 in
      let s1 := fmul p y1 (fmul p z2 z2z2) in
      let s2 := fmul p y2 (fmul p z1 z1z1) in
      if BigZ.BigZ.eqb u1 u2 then
        (if BigZ.BigZ.eqb s1 s2 then secp_double P else None)
      else
        let h := fsub p u2 u1 in
        let r := fsub p s2 s1 in
        let hh := fmul p h h in
        let hhh := fmul p h hh in
        let v := fmul p u1 hh in
        let x3 := fsub p (fsub p (fmul p r r) hhh) (fadd p v v) in
        let y3 := fsub p (fmul p r (fsub p v x3)) (fmul p s1 hhh) in
        Some (x3, y3, fmul p h (fmul p z1 z2))
  end.

Fixpoint secp_mul (k : positive) (P : point) : point :=
  match k with
  | xH => P
  | xO k' => secp_double (secp_mul k' P)
  | xI k' => secp_add (secp_double (secp_mul k' P)) P
  end.

Definition secp_affine (P : point) : option (Z * Z) :=
  match P with
  | None => None
  | Some (x, y, z) =>
      let p := secp_p in
      let zi := finv p z in
      let zi2 := fmul p zi zi in
      Some (BigZ.BigZ.to_Z (fmul p x zi2),
            BigZ.BigZ.to_Z (fmul p y (fmul p zi zi2)))
  end.

(** [ScalarBaseMult(k)]: the library has no point to return for the
    zero scalar (and for a scalar that is not below the group order),
    and returns nil, nil. *)
Definition ScalarBaseMult (k : bytes) : option Z * option Z :=
  let n := SetBytes k in
  if (n =? 0) || (S256_N <=? n) then (None, None)
  else
    match secp_affine (secp_mul (Z.to_pos n) (Some (secp_Gx, secp_Gy, BigZ.BigZ.one))) with
    | Some (x, y) => (Some x, Some y)
    | None => (None, None)
    end.

(** *** x/crypto/curve25519 (RFC 7748) *)

Definition p25519 : bigZ := BigZ.BigZ.of_Z (2 ^ 255 - 19).
Definition a24 : bigZ := BigZ.BigZ.of_Z 121665.

Definition decodeScalar25519 (k : bytes) : Z :=
  let n := le_decode k in
  Z.lor (Z.land n (2 ^ 255 - 1 - 7)) (2 ^ 254).

Definition decodeUCoordinate (u : bytes) : Z :=
  Z.land (le_decode u) (2 ^ 255 - 1).

Definition ladder_state : Type := (bigZ * bigZ * bigZ * bigZ)%type.

Definition ladder_step (x1 : bigZ) (st : ladder_state) : ladder_state :=
  let '(x2, z2, x3, z3) := st in
  let p := p25519 in
  let A := fadd p x2 z2 in
  let AA := fmul p A A in
  let B := fsub p x2 z2 in
  let BB := fmul p B B in
  let E := fsub p AA BB in
  let C := fadd p x3 z3 in
  let D := fsub p x3 z3 in
  let DA := fmul p D A in
  let CB := fmul p C B in
  let x3' := fmul p (fadd p DA CB) (fadd p DA CB) in
  let z3' := fmul p x1 (fmul p (fsub p DA CB) (fsub p DA CB)) in
  let x2' := fmul p AA BB in
  let z2' := fmul p E (fadd p AA (fmul p a24 E)) in
  (x2', z2', x3', z3').

Definition cswap (swap : bool) (st : ladder_state) : ladder_state :=
  let '(x2, z2, x3, z3) := st in
  if swap then (x3, z3, x2, z2) else st.

(** The Montgomery ladder over the bits [t-1 .. 0] of [k]. *)
Fixpoint ladder (t : nat) (k : Z) (x1 : bigZ) (swap : bool) (st : ladder_state)
  : ladder_state :=
  match t with
  | O => cswap swap st
  | S t' =>
      let kt := Z.testbit k (Z.of_nat t') in
      ladder t' k x1 kt (ladder_step x1 (cswap (xorb swap kt) st))
  end.

(** A ladder state in which each of the two points has a zero
    coordinate: the state of the ladder on a point of order two. *)
Definition degenerate (st : ladder_state) : Prop :=
  let '(x2, z2, x3, z3) := st in
  (BigZ.BigZ.to_Z x2 = 0 \/ BigZ.BigZ.to_Z z2 = 0)
  /\ (BigZ.BigZ.to_Z x3 = 0 \/ BigZ.BigZ.to_Z z3 = 0).

Definition ScalarMult (scalar point : bytes) : bytes :=
  let k := decodeScalar25519 scalar in
  let u := BigZ.BigZ.modulo (BigZ.BigZ.of_Z (decodeUCoordinate point)) p25519 in
  let '(x2, z2, _, _) :=
    ladder 255 k u false (BigZ.BigZ.one, BigZ.BigZ.zero, u, BigZ.BigZ.one) in
  le_encode 32 (BigZ.BigZ.to_Z (fmul p25519 x2 (finv p25519 z2))).

Fixpoint bytes_eqb (a b : bytes) : bool :=
  match a, b with
  | [], [] => true
  | x :: a', y :: b' => Byte.eqb x y && bytes_eqb a' b'
  | _, _ => false
  end.

(** [X25519(scalar, point)].  The library compares the result with the
    all-zero point on every path but that of its own [Basepoint]
    slice, where the result is never zero; here it is compared on every
    path. *)
Definition X25519 (scalar point : bytes) : result bytes :=
  if negb (length scalar =? 32)%nat then Err (errorString "bad scalar length")
  else if negb (length point =? 32)%nat then Err (errorString "bad point length")
  else
    let dst := ScalarMult scalar point in
    if bytes_eqb dst (zeros 32)
    then Err (errorString "bad input point: low order point")
    else Ok dst.

(** *** encoding/hex, encoding/base64, decimal numbers *)

Definition hexval (c : ascii) : option Z :=
  let n := Z.of_N (N_of_ascii c) in
  if (48 <=? n) && (n <=? 57) then Some (n - 48)
  else if (97 <=? n) && (n <=? 102) then Some (n - 87)
  else if (65 <=? n) && (n <=? 70) then Some (n - 55)
  else None.

(** [hex.DecodeString] *)
Fixpoint hex_DecodeString (s : string) : result bytes :=
  match s with
  | EmptyString => Ok []
  | String _ EmptyString => Err (errorString "encoding/hex: odd length hex string")
  | String a (String b rest) =>
      match hexval a, hexval b with
      | Some x, Some y =>
          match hex_DecodeString rest with
          | Ok tl => Ok (byte_of_Z (16 * x + y) :: tl)
          | other => other
          end
      | _, _ => Err (errorString "encoding/hex: invalid byte")
      end
  end.

Definition from_hex (s : string) : bytes :=
  match hex_DecodeString s with
  | Ok b => b
  | _ => []
  end.

Definition b64_alphabet : string :=
  "ABCDEFGHIJKLMNOPQRSTUVWXYZabcdefghijklmnopqrstuvwxyz0123456789+/".

Definition b64_char (n : Z) : ascii :=
  match String.get (Z.to_nat (Z.land n 63)) b64_alphabet with
  | Some c => c
  | None => "="%char
  end.

Definition b64_val (c : ascii) : option Z :=
  let n := Z.of_N (N_of_ascii c) in
  if (65 <=? n) && (n <=? 90) then Some (n - 65)
  else if (97 <=? n) && (n <=? 122) then Some (n - 71)
  else if (48 <=? n) && (n <=? 57) then Some (n + 4)
  else if n =? 43 then Some 62
  else if n =? 47 then Some 63
  else None.

(** [base64.StdEncoding.EncodeToString] *)
Fixpoint b64_encode (l : bytes) : string :=
  match l with
  | [] => EmptyString
  | [a] =>
      let n := Z.shiftl (u8 a) 16 in
      String (b64_char (Z.shiftr n 18)) (String (b64_char (Z.shiftr n 12)) "==")
  | [a; b] =>
      let n := Z.shiftl (u8 a) 16 + Z.shiftl (u8 b) 8 in
      String (b64_char (Z.shiftr n 18)) (String (b64_char (Z.shiftr n 12))
        (String (b64_char (Z.shiftr n 6)) "="))
  | a :: b :: c :: rest =>
      let n := Z.shiftl (u8 a) 16 + Z.shiftl (u8 b) 8 + u8 c in
      String (b64_char (Z.shiftr n 18)) (String (b64_char (Z.shiftr n 12))
        (String (b64_char (Z.shiftr n 6)) (String (b64_char n) (b64_encode rest))))
  end.

(** [base64.StdEncoding.DecodeString] *)
Fixpoint b64_decode (s : string) : option bytes :=
  match s with
  | EmptyString => Some []
  | String c1 (String c2 (String c3 (String c4 rest))) =>
      match b64_val c1, b64_val c2 with
      | Some v1, Some v2 =>
          let eq := "="%char in
          if Ascii.eqb c3 eq then
            if Ascii.eqb c4 eq && (String.length rest =? 0)%nat
            then Some [byte_of_Z (Z.shiftr (64 * v1 + v2) 4)]
            else None
          else
            match b64_val c3 with
            | Some v3 =>
                let n3 := 4096 * v1 + 64 * v2 + v3 in
                if Ascii.eqb c4 eq then
                  if (String.length rest =? 0)%nat
                  then Some [byte_of_Z (Z.shiftr n3 10); byte_of_Z (Z.shiftr n3 2)]
                  else None
                else
                  match b64_val c4, b64_decode rest with
                  | Some v4, Some tl =>
                      let n := 64 * n3 + v4 in
                      Some (byte_of_Z (Z.shiftr n 16) :: byte_of_Z (Z.shiftr n 8)
                              :: byte_of_Z n :: tl)
                  | _, _ => None
                  end
            | None => None
            end
      | _, _ => None
      end
  | _ => None
  end.

(** The decimal text of an integer, as [big.Int.MarshalJSON] and
    [strconv.Itoa] write it. *)
Definition print_Z (z : Z) : string :=
  DecimalString.NilZero.string_of_int (Z.to_int z).

Definition is_digit (c : ascii) : bool :=
  let n := N_of_ascii c in ((48 <=? n) && (n <=? 57))%N.

Fixpoint parse_digits (acc : Z) (s : string) : Z * string :=
  match s with
  | String c rest =>
      if is_digit c then parse_digits (10 * acc + (Z.of_N (N_of_ascii c) - 48)) rest
      else (acc, s)
  | EmptyString => (acc, s)
  end.

Definition parse_Z (s : string) : option (Z * string) :=
  match s with
  | String c rest =>
      if is_digit c then Some (parse_digits 0 s)
      else if Ascii.eqb c "-"%char then
        match rest with
        | String d _ =>
            if is_digit d
            then let '(n, rest') := parse_digits 0 rest in Some (- n, rest')
            else None
        | EmptyString => None
        end
      else None
  | EmptyString => None
  end.

(** *** JSON text *)

(** The double quote. *)
Definition dq : string := String "034"%char EmptyString.

Definition json_key (name : string) : string := (dq ++ name ++ dq ++ ":")%string.
Definition json_string (s : string) : string := (dq ++ s ++ dq)%string.

Fixpoint expect (lit s : string) : option string :=
  match lit, s with
  | EmptyString, _ => Some s
  | String a lit', String b s' => if Ascii.eqb a b then expect lit' s' else None
  | _, EmptyString => None
  end.

(** The characters up to the next double quote, and what follows it. *)
Fixpoint until_dq (s : string) : option (string * string) :=
  match s with
  | EmptyString => None
  | String c rest =>
      if Ascii.eqb c "034"%char then Some (EmptyString, rest)
      else match until_dq rest with
           | Some (body, rest') => Some (String c body, rest')
           | None => None
           end
  end.

Definition parse_string (s : string) : option (string * string) :=
  match expect dq s with
  | Some s' => until_dq s'
  | None => None
  end.

Fixpoint join (sep : string) (l : list string) : string :=
  match l with
  | [] => EmptyString
  | [x] => x
  | x :: tl => (x ++ sep ++ join sep tl)%string
  end.

(** The numbers of a JSON array after its opening bracket. *)
Fixpoint parse_numbers (fuel : nat) (s : string) : option (list Z * string) :=
  match fuel with
  | O => None
  | S f =>
      match parse_Z s with
      | Some (n, String c rest) =>
          if Ascii.eqb c ","%char then
            match parse_numbers f rest with
            | Some (tl, rest') => Some (n :: tl, rest')
            | None => None
            end
          else if Ascii.eqb c "]"%char then Some ([n], rest)
          else None
      | _ => None
      end
  end.

Definition parse_array (s : string) : option (list Z * string) :=
  match expect "[" s with
  | Some s' =>
      match expect "]" s' with
      | Some rest => Some ([], rest)
      | None => parse_numbers (String.length s') s'
      end
  | None => None
  end.

Definition obind {A B} (o : option A) (k : A -> option B) : option B :=
  match o with
  | Some a => k a
  | None => None
  end.

Definition field {A} (name : string) (p : string -> option (A * string))
    (s : string) : option (A * string) :=
  obind (expect (json_key name) s) p.

Definition ErrJSONEnd : error := errorString "unexpected end of JSON input".
Definition ErrJSONSyntax : error := errorString "invalid character in JSON input".
Definition ErrJSONValue : error := errorString "json: unsupported value".

Definition json_result {A} (b : bytes) (o : option A) : result A :=
  match o with
  | Some a => Ok a
  | None => match b with [] => Err ErrJSONEnd | _ => Err ErrJSONSyntax end
  end.

(** The JSON object of [ocrPrivateKeyRawData]:
    the three [big.Int] as numbers, the byte slice in base64, the byte
    array as an array of numbers. *)
Definition print_raw (raw : ocrPrivateKeyRawData.t) : string :=
  ("{" ++ json_key "EcdsaX" ++ print_Z (ocrPrivateKeyRawData.EcdsaX raw)
     ++ "," ++ json_key "EcdsaY" ++ print_Z (ocrPrivateKeyRawData.EcdsaY raw)
     ++ "," ++ json_key "EcdsaD" ++ print_Z (ocrPrivateKeyRawData.EcdsaD raw)
     ++ "," ++ json_key "Ed25519PrivKey"
     ++ json_string (b64_encode (ocrPrivateKeyRawData.Ed25519PrivKey raw))
     ++ "," ++ json_key "OffChainEncryption" ++ "["
     ++ join "," (map (fun b => print_Z (u8 b))
                      (ocrPrivateKeyRawData.OffChainEncryption raw))
     ++ "]}")%string.

Definition parse_raw (s : string) : option ocrPrivateKeyRawData.t :=
  obind (expect "{" s) (fun s =>
  obind (field "EcdsaX" parse_Z s) (fun '(x, s) =>
  obind (expect "," s) (fun s =>
  obind (field "EcdsaY" parse_Z s) (fun '(y, s) =>
  obind (expect "," s) (fun s =>
  obind (field "EcdsaD" parse_Z s) (fun '(d, s) =>
  obind (expect "," s) (fun s =>
  obind (field "Ed25519PrivKey" parse_string s) (fun '(ed64, s) =>
  obind (b64_decode ed64) (fun ed =>
  obind (expect "," s) (fun s =>
  obind (field "OffChainEncryption" parse_array s) (fun '(arr, s) =>
  obind (expect "}" s) (fun s =>
  if (String.length s =? 0)%nat && forallb (fun n => (0 <=? n) && (n <? 256)) arr
  then Some {| ocrPrivateKeyRawData.EcdsaX := x;
               ocrPrivateKeyRawData.EcdsaY := y;
               ocrPrivateKeyRawData.EcdsaD := d;
               ocrPrivateKeyRawData.Ed25519PrivKey := ed;
               ocrPrivateKeyRawData.OffChainEncryption :=
                 copy_into 32 (map byte_of_Z arr) |}
  else None)))))))))))).

Definition raw_eqb (a b : ocrPrivateKeyRawData.t) : bool :=
  (ocrPrivateKeyRawData.EcdsaX a =? ocrPrivateKeyRawData.EcdsaX b)
  && (ocrPrivateKeyRawData.EcdsaY a =? ocrPrivateKeyRawData.EcdsaY b)
  && (ocrPrivateKeyRawData.EcdsaD a =? ocrPrivateKeyRawData.EcdsaD b)
  && bytes_eqb (ocrPrivateKeyRawData.Ed25519PrivKey a)
               (ocrPrivateKeyRawData.Ed25519PrivKey b)
  && bytes_eqb (ocrPrivateKeyRawData.OffChainEncryption a)
               (ocrPrivateKeyRawData.OffChainEncryption b).

(** [json.Unmarshal(b, &rawKeyData)], on the text that [json.Marshal]
    writes. *)
Definition Unmarshal_raw (b : bytes) : result ocrPrivateKeyRawData.t :=
  json_result b (parse_raw (string_of_list_byte b)).

(** [json.Marshal(&rawKeyData)].  The encoder reads its text back and
    returns it when it decodes to the value it was given. *)
Definition Marshal_raw (raw : ocrPrivateKeyRawData.t) : result bytes :=
  let b := list_byte_of_string (print_raw raw) in
  match Unmarshal_raw b with
  | Ok raw' => if raw_eqb raw raw' then Ok b else Err ErrJSONValue
  | _ => Err ErrJSONValue
  end.

(** *** go-ethereum/accounts/keystore *)

(** [keystore.CryptoJSON], with the scrypt parameters of [KDFParams]. *)
Module keystore.
Record CryptoJSON : Type := mk {
  Cipher : string;
  CipherText : string;
  IV : string;
  KDF : string;
  dklen : Z;
  n : Z;
  p : Z;
  r : Z;
  salt : string;
  MAC : string
}.
End keystore.

Definition print_crypto (c : keystore.CryptoJSON) : string :=
  ("{" ++ json_key "cipher" ++ json_string (keystore.Cipher c)
     ++ "," ++ json_key "ciphertext" ++ json_string (keystore.CipherText c)
     ++ "," ++ json_key "cipherparams"
     ++ "{" ++ json_key "iv" ++ json_string (keystore.IV c) ++ "}"
     ++ "," ++ json_key "kdf" ++ json_string (keystore.KDF c)
     ++ "," ++ json_key "kdfparams"
     ++ "{" ++ json_key "dklen" ++ print_Z (keystore.dklen c)
     ++ "," ++ json_key "n" ++ print_Z (keystore.n c)
     ++ "," ++ json_key "p" ++ print_Z (keystore.p c)
     ++ "," ++ json_key "r" ++ print_Z (keystore.r c)
     ++ "," ++ json_key "salt" ++ json_string (keystore.salt c) ++ "}"
     ++ "," ++ json_key "mac" ++ json_string (keystore.MAC c)
     ++ "}")%string.

Definition parse_crypto (s : string) : option keystore.CryptoJSON :=
  obind (expect "{" s) (fun s =>
  obind (field "cipher" parse_string s) (fun '(cipher, s) =>
  obind (expect "," s) (fun s =>
  obind (field "ciphertext" parse_string s) (fun '(ciphertext, s) =>
  obind (expect "," s) (fun s =>
  obind (expect (json_key "cipherparams" ++ "{") s) (fun s =>
  obind (field "iv" parse_string s) (fun '(iv, s) =>
  obind (expect "}," s) (fun s =>
  obind (field "kdf" parse_string s) (fun '(kdf, s) =>
  obind (expect "," s) (fun s =>
  obind (expect (json_key "kdfparams" ++ "{") s) (fun s =>
  obind (field "dklen" parse_Z s) (fun '(dklen, s) =>
  obind (expect "," s) (fun s =>
  obind (field "n" parse_Z s) (fun '(n, s) =>
  obind (expect "," s) (fun s =>
  obind (field "p" parse_Z s) (fun '(p, s) =>
  obind (expect "," s) (fun s =>
  obind (field "r" parse_Z s) (fun '(r, s) =>
  obind (expect "," s) (fun s =>
  obind (field "salt" parse_string s) (fun '(salt, s) =>
  obind (expect "}," s) (fun s =>
  obind (field "mac" parse_string s) (fun '(mac, s) =>
  obind (expect "}" s) (fun s =>
  if (String.length s =? 0)%nat
  then Some (keystore.mk cipher ciphertext iv kdf dklen n p r salt mac)
  else None))))))))))))))))))))))).

Definition crypto_eqb (a b : keystore.CryptoJSON) : bool :=
  String.eqb (keystore.Cipher a) (keystore.Cipher b)
  && String.eqb (keystore.CipherText a) (keystore.CipherText b)
  && String.eqb (keystore.IV a) (keystore.IV b)
  && String.eqb (keystore.KDF a) (keystore.KDF b)
  && (keystore.dklen a =? keystore.dklen b)
  && (keystore.n a =? keystore.n b)
  && (keystore.p a =? keystore.p b)
  && (keystore.r a =? keystore.r b)
  && String.eqb (keystore.salt a) (keystore.salt b)
  && String.eqb (keystore.MAC a) (keystore.MAC b).

Definition Unmarshal_crypto (b : bytes) : result keystore.CryptoJSON :=
  json_result b (parse_crypto (string_of_list_byte b)).

Definition Marshal_crypto (c : keystore.CryptoJSON) : result bytes :=
  let b := list_byte_of_string (print_crypto c) in
  match Unmarshal_crypto b with
  | Ok c' => if crypto_eqb c c' then Ok b else Err ErrJSONValue
  | _ => Err ErrJSONValue
  end.

(** *** crypto/hmac *)

(** [hmac.New(sha256.New, key)]: the key as a block of 64 bytes, hashed
    first when it is longer, zero-padded when it is shorter. *)
Definition hmac_block (key : bytes) : bytes :=
  copy_into 64 (if (64 <? length key)%nat then Sum256 key else key).

Definition xor_pad (pad : Z) (block : bytes) : bytes :=
  map (fun b => byte_of_Z (Z.lxor (u8 b) pad)) block.

(** The MAC of [msg] under the key block: the outer hash over the inner
    hash. *)
Definition hmac_Sum (block msg : bytes) : bytes :=
  Sum256 (xor_pad 0x5c block ++ Sum256 (xor_pad 0x36 block ++ msg)).

Definition xor_bytes (a b : bytes) : bytes :=
  map (fun xy => byte_of_Z (Z.lxor (u8 (fst xy)) (u8 (snd xy)))) (combine a b).

(** *** x/crypto/pbkdf2 *)

Fixpoint pbkdf2_rounds (block : bytes) (n : nat) (U T : bytes) : bytes :=
  match n with
  | O => T
  | S n' =>
      let U' := hmac_Sum block U in
      pbkdf2_rounds block n' U' (xor_bytes T U')
  end.

(** The array behind the slice that [pbkdf2.Key] returns: [numBlocks]
    blocks of 32 bytes. *)
Definition pbkdf2_blocks (password salt : bytes) (iter keyLen : Z) : bytes :=
  let prf := hmac_block password in
  let numBlocks := Z.quot (keyLen + 31) 32 in
  flat_map
    (fun block =>
       let T := hmac_Sum prf (salt ++ be_bytes 4 (Z.of_nat block)) in
       pbkdf2_rounds prf (Z.to_nat (iter - 1)) T T)
    (seq 1 (Z.to_nat numBlocks)).

Definition pbkdf2_Key (password salt : bytes) (iter keyLen : Z) : bytes :=
  firstn (Z.to_nat keyLen) (pbkdf2_blocks password salt iter keyLen).

(** *** x/crypto/scrypt *)

Definition rotl (n : Uint63.int) (x : word) : word :=
  w32 (Uint63.lor (Uint63.lsl x n) (Uint63.lsr x (Uint63.sub 32 n))).

Definition quarter (a b c d : word) : word * word * word * word :=
  let b := Uint63.lxor b (rotl 7 (wadd a d)) in
  let c := Uint63.lxor c (rotl 9 (wadd b a)) in
  let d := Uint63.lxor d (rotl 13 (wadd c b)) in
  let a := Uint63.lxor a (rotl 18 (wadd d c)) in
  (a, b, c, d).

(** Two rounds of Salsa20: the columns, then the rows. *)
Definition doubleround (x : list word) : list word :=
  match x with
  | [s0; s1; s2; s3; s4; s5; s6; s7; s8; s9; s10; s11; s12; s13; s14; s15] =>
      let '(s0, s4, s8, s12) := quarter s0 s4 s8 s12 in
      let '(s5, s9, s13, s1) := quarter s5 s9 s13 s1 in
      let '(s10, s14, s2, s6) := quarter s10 s14 s2 s6 in
      let '(s15, s3, s7, s11) := quarter s15 s3 s7 s11 in
      let '(s0, s1, s2, s3) := quarter s0 s1 s2 s3 in
      let '(s5, s6, s7, s4) := quarter s5 s6 s7 s4 in
      let '(s10, s11, s8, s9) := quarter s10 s11 s8 s9 in
      let '(s15, s12, s13, s14) := quarter s15 s12 s13 s14 in
      [s0; s1; s2; s3; s4; s5; s6; s7; s8; s9; s10; s11; s12; s13; s14; s15]
  | _ => x
  end.

Definition words_xor (a b : list word) : list word :=
  map (fun xy => Uint63.lxor (fst xy) (snd xy)) (combine a b).

(** [salsaXOR]: the Salsa20/8 core on the XOR of [tmp] and [inp]. *)
Definition salsaXOR (tmp inp : list word) : list word :=
  let w := words_xor tmp inp in
  let x := doubleround (doubleround (doubleround (doubleround w))) in
  map (fun xy => wadd (fst xy) (snd xy)) (combine x w).

Fixpoint word_chunks (fuel : nat) (l : list word) : list (list word) :=
  match fuel with
  | O => []
  | S f => match l with
           | [] => []
           | _ => firstn 16 l :: word_chunks f (skipn 16 l)
           end
  end.

Fixpoint mix_loop (tmp : list word) (blocks : list (list word)) : list (list word) :=
  match blocks with
  | [] => []
  | b :: rest => let y := salsaXOR tmp b in y :: mix_loop y rest
  end.

Fixpoint evens {A} (l : list A) : list A :=
  match l with
  | a :: _ :: rest => a :: evens rest
  | other => other
  end.

Definition odds {A} (l : list A) : list A := evens (tl l).

(** [blockMix]: the blocks of even index, then those of odd index. *)
Definition blockMix (x : list word) : list word :=
  let blocks := word_chunks (length x) x in
  let ys := mix_loop (last blocks []) blocks in
  List.concat (evens ys ++ odds ys)%list.

(** [integer]: the first 64 bits of the last block. *)
Definition integer (x : list word) (r : Z) : Z :=
  let j := Z.to_nat ((2 * r - 1) * 16) in
  Z.lor (Uint63.to_Z (nth j x 0%uint63))
        (Z.shiftl (Uint63.to_Z (nth (S j) x 0%uint63)) 32).

Fixpoint smix_fill (n : nat) (x : list word) (v : list (list word))
  : list word * list (list word) :=
  match n with
  | O => (x, rev v)
  | S n' => smix_fill n' (blockMix x) (x :: v)
  end.

Fixpoint smix_mix (n : nat) (N r : Z) (v : list (list word)) (x : list word) : list word :=
  match n with
  | O => x
  | S n' =>
      let j := Z.to_nat (Z.land (integer x r) (N - 1)) in
      smix_mix n' N r v (blockMix (words_xor x (nth j v [])))
  end.

Definition le_word (b : bytes) : word := Uint63.of_Z (SetBytes (rev b)).
Definition word_le (x : word) : bytes := rev (be_bytes 4 (Uint63.to_Z x)).

(** [smix] on one chunk of [128 * r] bytes. *)
Definition smix (b : bytes) (r N : Z) : bytes :=
  let x := map le_word (chunks (length b) 4 b) in
  let '(x, v) := smix_fill (Z.to_nat N) x [] in
  flat_map word_le (smix_mix (Z.to_nat N) N r v x).

Definition maxInt : Z := 2 ^ 63 - 1.
Definition uint64 (x : Z) : Z := x mod 2 ^ 64.

Definition ErrScryptN : error := errorString "scrypt: N must be > 1 and a power of 2".
Definition ErrScryptLarge : error := errorString "scrypt: parameters are too large".

(** [scrypt.Key(password, salt, N, r, p, keyLen)], as the array behind
    the slice it returns: the parameter checks in the order of the Go
    condition (the division by [p], then by [r], is reached only when the
    tests before it are false), [pbkdf2], [smix] on each of the [p]
    chunks, [pbkdf2] again. *)
Definition scrypt_Key_array (password salt : bytes) (N r p keyLen : Z) : result bytes :=
  if (N <=? 1) || negb (Z.land N (N - 1) =? 0) then Err ErrScryptN
  else if 2 ^ 30 <=? uint64 (uint64 r * uint64 p) then Err ErrScryptLarge
  else if p =? 0 then Panic "runtime error: integer divide by zero"
  else if (Z.quot (Z.quot maxInt 128) p <? r) || (Z.quot maxInt 256 <? r)
  then Err ErrScryptLarge
  else if r =? 0 then Panic "runtime error: integer divide by zero"
  else if Z.quot (Z.quot maxInt 128) r <? N then Err ErrScryptLarge
  else
    let b := pbkdf2_Key password salt 1 (p * 128 * r) in
    let b := flat_map (fun chunk => smix chunk r N)
               (chunks (Z.to_nat p) (Z.to_nat (128 * r)) b) in
    if keyLen <? 0 then Panic "runtime error: slice bounds out of range"
    else Ok (pbkdf2_blocks password b 1 keyLen).


Definition scrypt_Key (password salt : bytes) (N r p keyLen : Z) : result bytes :=
  match scrypt_Key_array password salt N r p keyLen with
  | Ok dk => Ok (firstn (Z.to_nat keyLen) dk)
  | other => other
  end.

(** *** The data encryption of the keystore *)

(** The stream cipher in the place of AES-128-CTR: block [i] of the key
    stream is the hash of the key, the IV and [i]. *)
Fixpoint keystream_xor (key iv : bytes) (i : Z) (blocks : list bytes) : bytes :=
  match blocks with
  | [] => []
  | blk :: rest =>
      xor_bytes blk (Sum256 (key ++ iv ++ be_bytes 4 i))
        ++ keystream_xor key iv (i + 1) rest
  end.

Definition aesCTRXOR (key inText iv : bytes) : bytes :=
  keystream_xor key iv 0 (chunks (length inText) 32 inText).

(** [crypto.Keccak256(macKey, cipherText)]: the hash of the two, one
    after the other.  (SHA-256 stands in for Keccak-256.) *)
Definition mac_of (macKey cipherText : bytes) : bytes :=
  Sum256 (macKey ++ cipherText).

Definition ErrCipher : error := errorString "Cipher not supported".
Definition ErrKDF : error := errorString "Unsupported KDF".

(** [getKDFKey], for the key derivation that [EncryptDataV3] writes. *)
Definition getKDFKey (c : keystore.CryptoJSON) (auth : string) : result bytes :=
  (if negb (String.eqb (keystore.KDF c) "scrypt") then Err ErrKDF
   else
     salt <- hex_DecodeString (keystore.salt c) ;;
     scrypt_Key_array (list_byte_of_string auth) salt
       (keystore.n c) (keystore.r c) (keystore.p c) (keystore.dklen c))%go.

(** [keystore.DecryptDataV3].  [derivedKey[16:32]] and [derivedKey[:16]]
    slice the array behind the derived key, and panic when it is shorter
    than 32 bytes. *)
Definition DecryptDataV3 (c : keystore.CryptoJSON) (auth : string) : result bytes :=
  (if negb (String.eqb (keystore.Cipher c) "aes-128-ctr") then Err ErrCipher
   else
     mac <- hex_DecodeString (keystore.MAC c) ;;
     iv <- hex_DecodeString (keystore.IV c) ;;
     cipherText <- hex_DecodeString (keystore.CipherText c) ;;
     derivedKey <- getKDFKey c auth ;;
     if (length derivedKey <? 32)%nat
     then Panic "runtime error: slice bounds out of range"
     else
       let calculatedMAC := mac_of (firstn 16 (skipn 16 derivedKey)) cipherText in
       if negb (bytes_eqb calculatedMAC mac) then Err keystore_ErrDecrypt
       else Ok (aesCTRXOR (firstn 16 derivedKey) cipherText iv))%go.

(** [keystore.EncryptDataV3]: salt and IV are read from
    [crypto/rand.Reader], and a failure of the reader is a panic; [r] is
    8 and the derived key has 32 bytes.  The result is returned when it
    decrypts to the data. *)
Definition EncryptDataV3 (data auth : bytes) (scryptN scryptP : Z) (rnd : Reader)
  : result keystore.CryptoJSON :=
  match ReadFull 32 rnd with
  | Ok (salt, rnd1) =>
      match scrypt_Key auth salt scryptN 8 scryptP 32 with
      | Ok derivedKey =>
          match ReadFull 16 rnd1 with
          | Ok (iv, _) =>
              let encryptKey := firstn 16 derivedKey in
              let cipherText := aesCTRXOR encryptKey data iv in
              let mac := mac_of (firstn 16 (skipn 16 derivedKey)) cipherText in
              let cryptoStruct :=
                keystore.mk "aes-128-ctr" (hex_EncodeToString cipherText)
                  (hex_EncodeToString iv) "scrypt" 32 scryptN scryptP 8
                  (hex_EncodeToString salt) (hex_EncodeToString mac) in
              match DecryptDataV3 cryptoStruct (string_of_list_byte auth) with
              | Ok data' =>
                  if bytes_eqb data' data then Ok cryptoStruct
                  else Err (errorString "keystore: self-check failed")
              | _ => Err (errorString "keystore: self-check failed")
              end
          | _ => Panic "reading from crypto/rand failed"
          end
      | Err e => Err e
      | Panic w => Panic w
      end
  | _ => Panic "reading from crypto/rand failed"
  end.

(** *** The key types of the package *)

(** [ed25519.GenerateKey]: a 32-byte seed is read, the private key is
    the seed followed by the public key.  (A hash of the seed stands in
    for the Ed25519 public key.) *)
Definition GenerateKey : Rand (bytes * bytes) :=
  fun rd =>
    match ReadFull 32 rd with
    | Ok (seed, rd') => let pub := Sum256 seed in Ok ((pub, seed ++ pub), rd')
    | Err e => Err e
    | Panic w => Panic w
    end.

(** [ed25519.PrivateKey.Public()]: the last 32 bytes. *)
Definition PublicKey (priv : bytes) : bytes := skipn 32 priv.

(** The 20-byte address of a public point.  (SHA-256 stands in for
    Keccak-256.) *)
Definition PubkeyToAddress (X Y : option Z) : bytes :=
  match X, Y with
  | Some x, Some y => skipn 12 (Sum256 (be_bytes 32 x ++ be_bytes 32 y))
  | _, _ => zeros 20
  end.

Definition Address_String (a : bytes) : string := ("0x" ++ hex_EncodeToString a)%string.

#[export] Instance libs : Libraries := {|
  json_Marshal_raw := Marshal_raw;
  json_Unmarshal_raw := Unmarshal_raw;
  CryptoJSON := keystore.CryptoJSON;
  json_Marshal_crypto := Marshal_crypto;
  json_Unmarshal_crypto := Unmarshal_crypto;
  sha256_Sum256 := Sum256;
  curve_ScalarBaseMult := ScalarBaseMult;
  ed25519_GenerateKey := GenerateKey;
  curve25519_X25519 := X25519;
  keystore_EncryptDataV3 := EncryptDataV3;
  keystore_DecryptDataV3 := DecryptDataV3;
  crypto_PubkeyToAddress := PubkeyToAddress;
  offChainPrivateKey_PublicKey := PublicKey;
  OnChainSigningAddress_String := Address_String;
  OffChainPublicKey_String := hex_EncodeToString
|}.

End Ref.

(* ===================================================================== *)
(** ** A key-agreement library with a proved Diffie-Hellman property      *)
(* ===================================================================== *)

(** A second model of the key-agreement library: the Diffie-Hellman
    function of the multiplicative group of the field of X25519 (the
    integers modulo 2^255 - 19), with the byte encodings, the base point
    9 and the zero check of X25519.  The Diffie-Hellman property of the
    Montgomery ladder of [Ref] is a theorem of the arithmetic of the
    curve; that of exponentiation has a short proof, given below, and
    the key-agreement claim is run on it. *)
Module DH.

Definition power (u k : Z) : Z :=
  BigZ.BigZ.to_Z (Ref.fpow Ref.p25519 (BigZ.BigZ.of_Z u) (Z.to_pos k)).

Definition X25519 (scalar point : bytes) : result bytes :=
  if negb (length scalar =? 32)%nat then Err (errorString "bad scalar length")
  else if negb (length point =? 32)%nat then Err (errorString "bad point length")
  else
    let k := Ref.decodeScalar25519 scalar in
    let u := Ref.decodeUCoordinate point in
    let dst := Ref.le_encode 32 (power u k) in
    if Ref.bytes_eqb dst (zeros 32)
    then Err (errorString "bad input point: low order point")
    else Ok dst.

(** The libraries of [Ref], with this key agreement. *)
#[export] Instance libs : Libraries := {|
  json_Marshal_raw := Ref.Marshal_raw;
  json_Unmarshal_raw := Ref.Unmarshal_raw;
  CryptoJSON := Ref.keystore.CryptoJSON;
  json_Marshal_crypto := Ref.Marshal_crypto;
  json_Unmarshal_crypto := Ref.Unmarshal_crypto;
  sha256_Sum256 := Ref.Sum256;
  curve_ScalarBaseMult := Ref.ScalarBaseMult;
  ed25519_GenerateKey := Ref.GenerateKey;
  curve25519_X25519 := X25519;
  keystore_EncryptDataV3 := Ref.EncryptDataV3;
  keystore_DecryptDataV3 := Ref.DecryptDataV3;
  crypto_PubkeyToAddress := Ref.PubkeyToAddress;
  offChainPrivateKey_PublicKey := Ref.PublicKey;
  OnChainSigningAddress_String := Ref.Address_String;
  OffChainPublicKey_String := hex_EncodeToString
|}.

End DH.

(* ===================================================================== *)
(** ** Sample runs                                                        *)
(* ===================================================================== *)

(** Two bundles generated with the reference libraries.  Their
    curve25519 scalars are the private keys of Alice and Bob in the test
    vector of RFC 7748, section 6.1. *)
Module Sample.

Definition entropy_alice : Reader :=
  Ref.from_hex "aa5e28d6a97a2479a65527f7290311a3624d4cc0fa1578598ee3c2613bf99522"
  ++ Ref.from_hex "000102030405060708090a0b0c0d0e0f101112131415161718191a1b1c1d1e1f"
  ++ Ref.from_hex "77076d0a7318a57d3c16c17251b26645df4c2f87ebc0992ab177fba51db92c2a".

Definition entropy_bob : Reader :=
  Ref.from_hex "7e2b897b8cebc6361663ad410835639826d590f393d90a9538881735256dfae3"
  ++ Ref.from_hex "202122232425262728292a2b2c2d2e2f303132333435363738393a3b3c3d3e3f"
  ++ Ref.from_hex "5dab087e624a8a4b79e17f8b83800ee66f3bb1292618b6fd1c2f8b27ff88e0eb".

Definition generated (entropy : Reader) : OCRPrivateKey.t :=
  match NewOCRPrivateKey (L := Ref.libs) entropy with
  | Ok (k, _) => k
  | _ => zero_OCRPrivateKey
  end.

Definition alice : OCRPrivateKey.t := Eval vm_compute in generated entropy_alice.
Definition bob : OCRPrivateKey.t := Eval vm_compute in generated entropy_bob.

(** The entropy that [keystore.EncryptDataV3] consumes: salt and IV. *)
Definition entropy_vault : Reader :=
  map byte_of_Z (map Z.of_nat (seq 1 48)).

Definition no_container : EncryptedOCRPrivateKey.t :=
  EncryptedOCRPrivateKey.mk EmptyString [] [] [] 0 0.

(** Reduced cost parameters, as tests use them. *)
Definition test_params : scryptParams.t := scryptParams.mk 2 1.

Definition alice_encrypted : EncryptedOCRPrivateKey.t :=
  Eval vm_compute in
    match encrypt (L := Ref.libs) alice "correct-password" test_params entropy_vault
      return EncryptedOCRPrivateKey.t with
    | Ok e => e
    | _ => no_container
    end.

Definition alice_decrypted : OCRPrivateKey.t :=
  Eval vm_compute in
    match Decrypt (L := Ref.libs) alice_encrypted "correct-password"
      return OCRPrivateKey.t with
    | Ok k => k
    | _ => zero_OCRPrivateKey
    end.

(** The container of [alice_encrypted] with its first byte, the opening
    brace, overwritten by the letter x. *)
Definition alice_corrupted : EncryptedOCRPrivateKey.t :=
  {| EncryptedOCRPrivateKey.ID := EncryptedOCRPrivateKey.ID alice_encrypted;
     EncryptedOCRPrivateKey.OnChainSigningAddress :=
       EncryptedOCRPrivateKey.OnChainSigningAddress alice_encrypted;
     EncryptedOCRPrivateKey.OffChainPublicKey :=
       EncryptedOCRPrivateKey.OffChainPublicKey alice_encrypted;
     EncryptedOCRPrivateKey.EncryptedPrivKeys :=
       "x"%byte :: skipn 1 (EncryptedOCRPrivateKey.EncryptedPrivKeys alice_encrypted);
     EncryptedOCRPrivateKey.CreatedAt := 0;
     EncryptedOCRPrivateKey.UpdatedAt := 0 |}.

(** The container of [alice_encrypted] under another identifier. *)
Definition alice_relabelled : EncryptedOCRPrivateKey.t :=
  {| EncryptedOCRPrivateKey.ID := "not-the-hash";
     EncryptedOCRPrivateKey.OnChainSigningAddress :=
       EncryptedOCRPrivateKey.OnChainSigningAddress alice_encrypted;
     EncryptedOCRPrivateKey.OffChainPublicKey :=
       EncryptedOCRPrivateKey.OffChainPublicKey alice_encrypted;
     EncryptedOCRPrivateKey.EncryptedPrivKeys :=
       EncryptedOCRPrivateKey.EncryptedPrivKeys alice_encrypted;
     EncryptedOCRPrivateKey.CreatedAt := 0;
     EncryptedOCRPrivateKey.UpdatedAt := 0 |}.

(** A bundle with the public components of [alice] and other private
    material: another on-chain scalar, another Ed25519 seed in front of
    the same public key, the exchange scalar of [bob]. *)
Definition alice_other_secrets : OCRPrivateKey.t :=
  {| OCRPrivateKey.ID := "other";
     OCRPrivateKey.onChainSigning :=
       {| ecdsa.Curve := None;
          ecdsa.X := ecdsa.X (OCRPrivateKey.onChainSigning alice);
          ecdsa.Y := ecdsa.Y (OCRPrivateKey.onChainSigning alice);
          ecdsa.D := 12345 |};
     OCRPrivateKey.offChainSigning :=
       zeros 32 ++ skipn 32 (OCRPrivateKey.offChainSigning alice);
     OCRPrivateKey.offChainEncryption := OCRPrivateKey.offChainEncryption bob |}.

(** A container written by the keystore under the raw password
    [correct-password], without the prefix of [adulteratedPassword]. *)
Definition foreign_crypto : Ref.keystore.CryptoJSON :=
  Eval vm_compute in
    match Ref.EncryptDataV3 (list_byte_of_string "payload")
            (list_byte_of_string "correct-password") 2 1 entropy_vault
      return Ref.keystore.CryptoJSON with
    | Ok c => c
    | _ => Ref.keystore.mk EmptyString EmptyString EmptyString EmptyString
             0 0 0 0 EmptyString EmptyString
    end.

Definition foreign_container : EncryptedOCRPrivateKey.t :=
  Eval vm_compute in
    match Ref.Marshal_crypto foreign_crypto
      return EncryptedOCRPrivateKey.t with
    | Ok b => EncryptedOCRPrivateKey.mk "foreign" [] [] b 0 0
    | _ => no_container
    end.

Definition relabelled_decrypted : OCRPrivateKey.t :=
  Eval vm_compute in
    match Decrypt (L := Ref.libs) alice_relabelled "correct-password"
      return OCRPrivateKey.t with
    | Ok k => k
    | _ => zero_OCRPrivateKey
    end.

(** The JSON text of [alice], and the bundle that [UnmarshalJSON]
    builds from it. *)
Definition alice_json : bytes :=
  Eval vm_compute in
    match MarshalJSON (L := Ref.libs) alice
      return bytes with
    | Ok b => b
    | _ => []
    end.

Definition alice_unmarshalled : OCRPrivateKey.t :=
  Eval vm_compute in
    match UnmarshalJSON (L := Ref.libs) zero_OCRPrivateKey alice_json
      return OCRPrivateKey.t with
    | Ok k => k
    | _ => zero_OCRPrivateKey
    end.

(** The public keys and the shared secret of RFC 7748, section 6.1. *)
Definition alice_public : bytes :=
  Ref.from_hex "8520f0098930a754748b7ddcb43ef75a0dbf3a0d26381af4eba4a98eaa9b4e6a".
Definition bob_public : bytes :=
  Ref.from_hex "de9edb7d7b7dc1b4d35b61c2ece435373f8343c85b78674dadfc7e146f882b4f".
Definition shared_secret : bytes :=
  Ref.from_hex "4a5d9d5ba4ce2de1728e3bf480350f25e07e21c947d19e3376f09b3c1e161742".

(** Two of the points of low order on Curve25519: u = 0 and u = 1. *)
Definition low_order_0 : bytes := zeros 32.
Definition low_order_1 : bytes := x01 :: zeros 31.

End Sample.

(** Further runs: the decrypted bundle of [Sample.alice] encrypted again
    under another password, a container that the keystore wrote under
    the adulterated password around bytes that are not a key bundle, and
    a bundle without a public point. *)
Module Scenario.

Definition entropy_rekey : Reader := rev Sample.entropy_vault.

Definition alice_rekeyed : EncryptedOCRPrivateKey.t :=
  Eval vm_compute in
    match encrypt (L := Ref.libs) Sample.alice_decrypted "new-password"
            Sample.test_params entropy_rekey
      return EncryptedOCRPrivateKey.t with
    | Ok e => e
    | _ => Sample.no_container
    end.

Definition not_a_bundle : EncryptedOCRPrivateKey.t :=
  Eval vm_compute in
    match Ref.EncryptDataV3 (list_byte_of_string "payload")
            (list_byte_of_string "ocrkeycorrect-password") 2 1 Sample.entropy_vault
      return EncryptedOCRPrivateKey.t with
    | Ok c =>
        match Ref.Marshal_crypto c return EncryptedOCRPrivateKey.t with
        | Ok b => EncryptedOCRPrivateKey.mk "other" [] [] b 0 0
        | _ => Sample.no_container
        end
    | _ => Sample.no_container
    end.

(** The container of [Sample.alice] written under the password of
    [Sample.alice_encrypted] followed by one NUL character. *)
Definition padded_password : string := ("correct-password" ++ nuls 1)%string.

Definition alice_padded : EncryptedOCRPrivateKey.t :=
  Eval vm_compute in
    match encrypt (L := Ref.libs) Sample.alice padded_password
            Sample.test_params Sample.entropy_vault
      return EncryptedOCRPrivateKey.t with
    | Ok e => e
    | _ => Sample.no_container
    end.

(** The [CryptoJSON] in the container of [Sample.alice]. *)
Definition alice_crypto : Ref.keystore.CryptoJSON :=
  Eval vm_compute in
    match Ref.Unmarshal_crypto
            (EncryptedOCRPrivateKey.EncryptedPrivKeys Sample.alice_encrypted)
      return Ref.keystore.CryptoJSON with
    | Ok c => c
    | _ => Sample.foreign_crypto
    end.

Definition no_public_point : OCRPrivateKey.t :=
  {| OCRPrivateKey.ID := "incomplete";
     OCRPrivateKey.onChainSigning := ecdsa.mk (Some secp256k1_S256) None None 7;
     OCRPrivateKey.offChainSigning := OCRPrivateKey.offChainSigning Sample.alice;
     OCRPrivateKey.offChainEncryption := OCRPrivateKey.offChainEncryption Sample.alice |}.

End Scenario.

(* ===================================================================== *)
(** ** The store of the configuration tests (config_test.go, lines 337-364) *)
(* ===================================================================== *)

(** [fakeChainConfigORM] is a Go map from the text of a chain identifier
    to a map from keys to values.  Go maps are references: the methods
    have a value receiver and still update the store of the caller, and
    the inner map that [StoreString] and [Clear] fetch is the one the
    outer map holds.  The store is modelled by its contents, a finite map
    of finite maps, threaded through the calls; an update of an inner
    map is an update of the outer map at the chain.  (Inner maps are
    created by [StoreString] only, one per chain, so no two chains share
    one.) *)
Module config_test.

Abbreviation gmap := gmap.gmap.
Abbreviation fakeChainConfigORM := (gmap string (gmap string string)).

(** stdpp's notations for lookup and insertion. *)
Notation "m !! i" := (base.lookup i m) (at level 20).
Notation "<[ k := a ]>" := (base.insert k a) (format "<[ k := a ]>").

Section ORM.

(** [utils.Big] is defined in another package of the repository; the
    store reads a chain identifier through its [String()] method only. *)
Variable utils_Big : Type.
Variable Big_String : utils_Big -> string.

(** [make(fakeChainConfigORM)] *)
Definition make_fakeChainConfigORM : fakeChainConfigORM := base.empty.

(** [LoadString] (lines 339-346): the named results start as the empty
    string and [false]; a missing key reads as the zero value. *)
Definition LoadString (f : fakeChainConfigORM) (chainID : utils_Big) (key : string)
  : string * bool :=
  match f !! Big_String chainID with
  | Some m =>
      match m !! key with
      | Some val => (val, true)
      | None => (EmptyString, false)
      end
  | None => (EmptyString, false)
  end.

(** [StoreString] (lines 348-356): the new store and the returned error,
    always nil. *)
Definition StoreString (f : fakeChainConfigORM) (chainID : utils_Big) (key val : string)
  : fakeChainConfigORM * option error :=
  let '(m, f) :=
    match f !! Big_String chainID with
    | Some m => (m, f)
    | None => (base.empty, <[Big_String chainID := base.empty]> f)
    end in
  (<[Big_String chainID := <[key := val]> m]> f, None).

(** [Clear] (lines 358-364) *)
Definition Clear (f : fakeChainConfigORM) (chainID : utils_Big) (key : string)
  : fakeChainConfigORM * option error :=
  match f !! Big_String chainID with
  | Some m => (<[Big_String chainID := base.delete key m]> f, None)
  | None => (f, None)
  end.

End ORM.

(** The store after two calls of [StoreString] for chain 1, with the
    decimal text of the identifier. *)
Definition sample_store : fakeChainConfigORM :=
  fst (StoreString Z Ref.print_Z
         (fst (StoreString Z Ref.print_Z make_fakeChainConfigORM
                 1 "EvmGasPriceDefault" "42000000000"))
         1 "EvmMaxGasPriceWei" "100000000000000").

End config_test.

(* ===================================================================== *)
(** ** Facts about the Go values                                          *)
(* ===================================================================== *)

Lemma u8_range (b : byte) : 0 <= u8 b < 256.
Proof.
  unfold u8. pose proof (Byte.to_N_bounded b) as H.
  apply N.lt_succ_r in H. split; [apply N2Z.is_nonneg | ].
  change 256 with (Z.of_N 256). apply N2Z.inj_lt. exact H.
Qed.

Lemma SetBytes_nonneg (b : bytes) : 0 <= SetBytes b.
Proof.
  unfold SetBytes.
  assert (G : forall l acc, 0 <= acc ->
                0 <= fold_left (fun a x => a * 256 + u8 x) l acc).
  { induction l as [| x l IH]; intros acc Hacc; simpl; [exact Hacc | ].
    apply IH. pose proof (u8_range x). lia. }
  apply G. lia.
Qed.

Lemma copy_into_length (n : nat) (src : bytes) : length (copy_into n src) = n.
Proof.
  unfold copy_into, zeros.
  rewrite length_app, length_firstn, repeat_length. lia.
Qed.

Lemma copy_into_same (n : nat) (src : bytes) :
  length src = n -> copy_into n src = src.
Proof.
  intros H. unfold copy_into, zeros.
  rewrite firstn_all2 by lia.
  replace (n - length src)%nat with 0%nat by lia.
  simpl. apply app_nil_r.
Qed.

Lemma ReadFull_inv (n : nat) (r : Reader) (b : bytes) (r' : Reader) :
  ReadFull n r = Ok (b, r') -> length b = n /\ r = b ++ r'.
Proof.
  unfold ReadFull. destruct (Nat.leb_spec n (length r)) as [Hle | Hlt]; [ | discriminate].
  intros H. injection H as <- <-. split.
  - rewrite length_firstn. lia.
  - symmetry. apply firstn_skipn.
Qed.

(** The rounds of [cryptorand.Int] never run out of fuel before the reader runs
    out of bytes: more fuel than bytes changes nothing. *)
Lemma cryptorand_Int_loop_fuel (k : nat) (b max : Z) :
  (0 < k)%nat ->
  forall fuel r, (length r < fuel)%nat ->
    cryptorand_Int_loop (S fuel) k b max r = cryptorand_Int_loop fuel k b max r.
Proof.
  intros Hk. induction fuel as [| fuel IH]; intros r Hlen; [lia | ].
  change (cryptorand_Int_loop (S (S fuel)) k b max r)
    with (match ReadFull k r with
          | Ok (buf, r') =>
              let buf' := match buf with
                          | [] => []
                          | b0 :: tl => byte_of_Z (Z.land (u8 b0) (Z.shiftl 1 b - 1)) :: tl
                          end in
              let n := SetBytes buf' in
              if n <? max then Ok (n, r') else cryptorand_Int_loop (S fuel) k b max r'
          | Err e => Err e
          | Panic w => Panic w
          end).
  change (cryptorand_Int_loop (S fuel) k b max r)
    with (match ReadFull k r with
          | Ok (buf, r') =>
              let buf' := match buf with
                          | [] => []
                          | b0 :: tl => byte_of_Z (Z.land (u8 b0) (Z.shiftl 1 b - 1)) :: tl
                          end in
              let n := SetBytes buf' in
              if n <? max then Ok (n, r') else cryptorand_Int_loop fuel k b max r'
          | Err e => Err e
          | Panic w => Panic w
          end).
  destruct (ReadFull k r) as [[buf r'] | e | w] eqn:E; try reflexivity.
  apply ReadFull_inv in E. destruct E as [Hb ->].
  rewrite length_app in Hlen. cbv zeta.
  destruct (_ <? max); [reflexivity | ].
  apply IH. lia.
Qed.

Lemma cryptorand_Int_loop_range (k : nat) (b max : Z) :
  forall fuel r n r',
    cryptorand_Int_loop fuel k b max r = Ok (n, r') -> 0 <= n < max.
Proof.
  induction fuel as [| fuel IH]; intros r n r' H; simpl in H; [discriminate | ].
  destruct (ReadFull k r) as [[buf r1] | e | w]; try discriminate.
  cbv zeta in H.
  match type of H with
  | (if ?n0 <? max then _ else _) = _ =>
      destruct (Z.ltb_spec n0 max) as [Hlt | Hge]
  end.
  - injection H as <- <-. split; [apply SetBytes_nonneg | exact Hlt].
  - eapply IH; eassumption.
Qed.

(** [cryptorand.Int(reader, max)] returns a value of [[0, max)]. *)
Lemma cryptorand_Int_range (max : Z) (r : Reader) (n : Z) (r' : Reader) :
  cryptorand_Int max r = Ok (n, r') -> 0 <= n < max.
Proof.
  unfold cryptorand_Int. destruct (Z.leb_spec max 0) as [Hle | Hgt]; [discriminate | ].
  destruct (BitLen (max - 1) =? 0).
  - intros H. injection H as <- <-. lia.
  - apply cryptorand_Int_loop_range.
Qed.

Lemma u8_byte_of_Z (z : Z) : 0 <= z < 256 -> u8 (byte_of_Z z) = z.
Proof.
  intros Hz. unfold u8, byte_of_Z. rewrite Z.mod_small by lia.
  destruct (Byte.of_N (Z.to_N z)) as [b |] eqn:E.
  - apply Byte.to_of_N in E. rewrite E. apply Z2N.id. lia.
  - exfalso. apply Byte.of_N_None_iff in E. lia.
Qed.

Lemma le_bytes_value (fuel : nat) :
  forall n, 0 <= n < 2 ^ Z.of_nat fuel ->
    fold_right (fun x acc => acc * 256 + u8 x) 0 (le_bytes fuel n) = n.
Proof.
  induction fuel as [| fuel IH]; intros n Hn.
  - simpl in *. lia.
  - cbn [le_bytes]. destruct (Z.eqb_spec n 0) as [-> | Hnz]; [reflexivity | ].
    cbn [fold_right]. rewrite u8_byte_of_Z by (apply Z.mod_pos_bound; lia).
    rewrite IH.
    + pose proof (Z.div_mod n 256). lia.
    + rewrite Nat2Z.inj_succ, Z.pow_succ_r in Hn by lia.
      split; [apply Z.div_pos; lia | ].
      apply Z.div_lt_upper_bound; lia.
Qed.

(** [SetBytes] reads back what [Bytes] wrote. *)
Lemma SetBytes_Bytes (x : Z) : 0 <= x -> SetBytes (Bytes x) = x.
Proof.
  intros Hx. unfold SetBytes, Bytes. rewrite Z.abs_eq by exact Hx.
  rewrite <- (fold_left_rev_right (fun x acc => acc * 256 + u8 x)).
  rewrite rev_involutive. apply le_bytes_value.
  rewrite Nat2Z.inj_succ.
  destruct (Z.eq_dec x 0) as [-> | Hnz]; [simpl; lia | ].
  rewrite Z2Nat.id by apply Z.log2_nonneg.
  split; [exact Hx | ]. apply Z.log2_spec. lia.
Qed.

Lemma ReadFull_app (buf rest : bytes) :
  ReadFull (length buf) (buf ++ rest) = Ok (buf, rest).
Proof.
  unfold ReadFull. rewrite length_app.
  destruct (Nat.leb_spec (length buf) (length buf + length rest)) as [_ | H]; [ | lia].
  rewrite firstn_app, Nat.sub_diag, firstn_all, skipn_app, Nat.sub_diag, skipn_all.
  simpl. now rewrite app_nil_r.
Qed.

Lemma byte_mask_8 (b : byte) : byte_of_Z (Z.land (u8 b) (Z.shiftl 1 8 - 1)) = b.
Proof. destruct b; reflexivity. Qed.

(** The first round of [cryptorand.Int] on the order of the group: a
    block of 32 bytes whose big-endian value is below [N] is accepted, and
    this value is returned. *)
Lemma cryptorand_Int_accepts (buf rest : bytes) :
  length buf = 32%nat ->
  SetBytes buf < S256_N ->
  cryptorand_Int S256_N (buf ++ rest) = Ok (SetBytes buf, rest).
Proof.
  intros Hlen Hlt. unfold cryptorand_Int.
  change (S256_N <=? 0) with false.
  change (BitLen (S256_N - 1)) with 256.
  change (256 =? 0) with false.
  change (Z.to_nat ((256 + 7) / 8)) with 32%nat.
  change (if 256 mod 8 =? 0 then 8 else 256 mod 8) with 8.
  assert (E : ReadFull 32 (buf ++ rest) = Ok (buf, rest))
    by (rewrite <- Hlen; apply ReadFull_app).
  cbn [cryptorand_Int_loop]. rewrite E.
  destruct buf as [| b0 tl]; [discriminate Hlen | ].
  rewrite byte_mask_8. cbv zeta.
  destruct (Z.ltb_spec (SetBytes (b0 :: tl)) S256_N) as [_ | H]; [reflexivity | lia].
Qed.

Lemma u8_inj (a b : byte) : u8 a = u8 b -> a = b.
Proof.
  unfold u8. intros H. apply N2Z.inj in H.
  pose proof (Byte.of_to_N a) as Ha. pose proof (Byte.of_to_N b) as Hb.
  rewrite H in Ha. rewrite Ha in Hb. now injection Hb.
Qed.

Lemma SetBytes_snoc (a : bytes) (x : byte) :
  SetBytes (a ++ [x]) = SetBytes a * 256 + u8 x.
Proof. unfold SetBytes. now rewrite fold_left_app. Qed.

(** Two blocks of the same length with the same value are the same
    block: every value is drawn from exactly one block. *)
Lemma SetBytes_inj (a b : bytes) :
  length a = length b -> SetBytes a = SetBytes b -> a = b.
Proof.
  revert b. induction a as [| x a IH] using rev_ind; intros b Hlen Heq.
  - destruct b; [reflexivity | discriminate].
  - destruct b as [| y b _] using rev_ind.
    + rewrite length_app in Hlen. simpl in Hlen. lia.
    + rewrite !length_app in Hlen. simpl in Hlen.
      rewrite !SetBytes_snoc in Heq.
      pose proof (u8_range x). pose proof (u8_range y).
      assert (u8 x = u8 y /\ SetBytes a = SetBytes b) as [Hx Hr] by lia.
      apply u8_inj in Hx. subst y. f_equal. apply IH; [lia | exact Hr].
Qed.

Lemma le_bytes_length (fuel : nat) :
  forall (n : Z) (m : nat), 0 <= n < 256 ^ Z.of_nat m -> (length (le_bytes fuel n) <= m)%nat.
Proof.
  induction fuel as [| fuel IH]; intros n m Hn; [simpl; lia | ].
  cbn [le_bytes]. destruct (Z.eqb_spec n 0) as [-> | Hnz]; [simpl; lia | ].
  destruct m as [| m]; [simpl in Hn; lia | ].
  cbn [length]. apply le_n_S. apply IH.
  rewrite Nat2Z.inj_succ, Z.pow_succ_r in Hn by lia.
  split; [apply Z.div_pos; lia | apply Z.div_lt_upper_bound; lia].
Qed.

Lemma SetBytes_zeros_app (k : nat) (l : bytes) : SetBytes (zeros k ++ l) = SetBytes l.
Proof.
  unfold SetBytes, zeros. rewrite fold_left_app. f_equal.
  induction k as [| k IH]; [reflexivity | ]. simpl. exact IH.
Qed.

(** Every scalar of [[0, N-1]], zero included, is drawn: from the block of
    32 bytes that writes it in big-endian. *)
Lemma cryptorand_Int_onto (d : Z) :
  0 <= d < S256_N ->
  exists buf,
    length buf = 32%nat /\ SetBytes buf = d
    /\ forall rest, cryptorand_Int S256_N (buf ++ rest) = Ok (d, rest).
Proof.
  intros Hd.
  assert (Hlen : (length (Bytes d) <= 32)%nat).
  { unfold Bytes. rewrite length_rev. apply le_bytes_length.
    rewrite Z.abs_eq by lia. split; [lia | ].
    assert (S256_N < 256 ^ Z.of_nat 32) by reflexivity. lia. }
  exists (zeros (32 - length (Bytes d)) ++ Bytes d).
  assert (Hv : SetBytes (zeros (32 - length (Bytes d)) ++ Bytes d) = d)
    by (rewrite SetBytes_zeros_app; apply SetBytes_Bytes; lia).
  assert (Hl : length (zeros (32 - length (Bytes d)) ++ Bytes d) = 32%nat)
    by (unfold zeros; rewrite length_app, repeat_length; lia).
  split; [exact Hl | split; [exact Hv | ]].
  intros rest.
  rewrite (cryptorand_Int_accepts _ rest Hl) by (rewrite Hv; lia).
  now rewrite Hv.
Qed.

Lemma hex_EncodeToString_length (b : bytes) :
  String.length (hex_EncodeToString b) = (2 * length b)%nat.
Proof.
  induction b as [| v b IH]; simpl; [reflexivity | ].
  rewrite IH. lia.
Qed.

Lemma hexdigit_lower (v : byte) :
  is_lower_hex (hexdigit (Z.shiftr (u8 v) 4)) = true
  /\ is_lower_hex (hexdigit (Z.land (u8 v) 15)) = true.
Proof. destruct v; split; reflexivity. Qed.

Lemma hex_EncodeToString_lower (b : bytes) :
  all_chars is_lower_hex (hex_EncodeToString b) = true.
Proof.
  induction b as [| v b IH]; [reflexivity | ].
  destruct (hexdigit_lower v) as [H1 H2].
  cbn [hex_EncodeToString all_chars]. rewrite H1, H2, IH. reflexivity.
Qed.

Lemma adulteratedPassword_eq (auth : string) :
  adulteratedPassword auth = ("ocrkey" ++ auth)%string.
Proof. reflexivity. Qed.

Lemma adulteratedPassword_inj (a b : string) :
  adulteratedPassword a = adulteratedPassword b -> a = b.
Proof. unfold adulteratedPassword. simpl. intros H. injection H. trivial. Qed.

Lemma list_byte_of_string_inj (a b : string) :
  list_byte_of_string a = list_byte_of_string b -> a = b.
Proof.
  intros H. rewrite <- (string_of_list_byte_of_string a), <- (string_of_list_byte_of_string b).
  now rewrite H.
Qed.

(** The raw password is never the adulterated one: the prefix makes it
    six bytes longer. *)
Lemma adulteratedPassword_neq (auth : string) : adulteratedPassword auth <> auth.
Proof.
  intros H. apply (f_equal String.length) in H.
  change (String.length (adulteratedPassword auth))
    with (S (S (S (S (S (S (String.length auth))))))) in H.
  lia.
Qed.

Lemma Ok_inj {A} (a b : A) : Ok a = Ok b -> a = b.
Proof. intros H. injection H. trivial. Qed.

Lemma list_byte_of_string_app (a b : string) :
  list_byte_of_string (a ++ b)%string = list_byte_of_string a ++ list_byte_of_string b.
Proof.
  induction a as [| c a IH]; [reflexivity | ].
  change (list_byte_of_string (String c a ++ b)%string)
    with (byte_of_ascii c :: list_byte_of_string (a ++ b)%string).
  rewrite IH. reflexivity.
Qed.

Lemma list_byte_of_string_nuls (k : nat) : list_byte_of_string (nuls k) = zeros k.
Proof.
  induction k as [| k IH]; [reflexivity | ].
  change (list_byte_of_string (nuls (S k)))
    with (byte_of_ascii Ascii.zero :: list_byte_of_string (nuls k)).
  rewrite IH. reflexivity.
Qed.

Lemma list_byte_of_string_length (s : string) :
  length (list_byte_of_string s) = String.length s.
Proof.
  induction s as [| c s IH]; [reflexivity | ].
  change (S (length (list_byte_of_string s)) = S (String.length s)).
  now rewrite IH.
Qed.

Lemma zeros_app (a b : nat) : zeros a ++ zeros b = zeros (a + b).
Proof. unfold zeros. symmetry. apply repeat_app. Qed.

(** Zero bytes behind the source, within the array, are the zero bytes
    the array has anyway. *)
Lemma copy_into_zeros (n : nat) (src : bytes) (k : nat) :
  (length src + k <= n)%nat -> copy_into n (src ++ zeros k) = copy_into n src.
Proof.
  intros H. unfold copy_into.
  assert (Hz : length (zeros k) = k) by apply repeat_length.
  rewrite !firstn_all2 by (rewrite ?length_app; lia).
  rewrite length_app, Hz, <- app_assoc, zeros_app. do 2 f_equal. lia.
Qed.

Lemma count_nonzero_app (a b : bytes) :
  count_nonzero (a ++ b) = (count_nonzero a + count_nonzero b)%nat.
Proof. unfold count_nonzero. now rewrite filter_app, length_app. Qed.

Lemma count_nonzero_zeros (k : nat) : count_nonzero (zeros k) = 0%nat.
Proof. induction k as [| k IH]; [reflexivity | exact IH]. Qed.

Lemma count_nonzero_copy_into (n : nat) (src : bytes) :
  (length src <= n)%nat -> count_nonzero (copy_into n src) = count_nonzero src.
Proof.
  intros H. unfold copy_into. rewrite firstn_all2 by exact H.
  rewrite count_nonzero_app, count_nonzero_zeros. lia.
Qed.

(** A block of 32 bytes whose value is not below [N] is discarded, and
    the draw goes on with what follows. *)
Lemma cryptorand_Int_rejects (buf rest : bytes) :
  length buf = 32%nat ->
  S256_N <= SetBytes buf ->
  cryptorand_Int S256_N (buf ++ rest) = cryptorand_Int S256_N rest.
Proof.
  intros Hlen Hge. unfold cryptorand_Int.
  change (S256_N <=? 0) with false.
  change (BitLen (S256_N - 1)) with 256.
  change (256 =? 0) with false.
  change (Z.to_nat ((256 + 7) / 8)) with 32%nat.
  change (if 256 mod 8 =? 0 then 8 else 256 mod 8) with 8.
  assert (E : ReadFull 32 (buf ++ rest) = Ok (buf, rest))
    by (rewrite <- Hlen; apply ReadFull_app).
  cbv iota beta.
  change (cryptorand_Int_loop (S (length (buf ++ rest))) 32 8 S256_N (buf ++ rest))
    with (match ReadFull 32 (buf ++ rest) with
          | Ok (b, r') =>
              let b' :=
                match b with
                | [] => []
                | b0 :: tl => byte_of_Z (Z.land (u8 b0) (Z.shiftl 1 8 - 1)) :: tl
                end in
              let n := SetBytes b' in
              if n <? S256_N then Ok (n, r')
              else cryptorand_Int_loop (length (buf ++ rest)) 32 8 S256_N r'
          | Err e => Err e
          | Panic w => Panic w
          end).
  rewrite E. destruct buf as [| b0 tl]; [discriminate Hlen | ].
  rewrite byte_mask_8. cbv zeta.
  destruct (Z.ltb_spec (SetBytes (b0 :: tl)) S256_N) as [H | _]; [lia | ].
  rewrite length_app, Hlen.
  assert (G : forall j, cryptorand_Int_loop (j + S (length rest)) 32 8 S256_N rest
                        = cryptorand_Int_loop (S (length rest)) 32 8 S256_N rest).
  { induction j as [| j IH]; [reflexivity | ].
    cbn [Nat.add]. rewrite cryptorand_Int_loop_fuel by lia. exact IH. }
  exact (G 31%nat).
Qed.

(* ===================================================================== *)
(** ** The functions of private_key.go                                    *)
(* ===================================================================== *)

Section Properties.
Context {L : Libraries}.

(** What a successful run of [NewOCRPrivateKey] has done. *)
Lemma NewOCRPrivateKey_inv (ent : Reader) (B : OCRPrivateKey.t) (ent' : Reader) :
  NewOCRPrivateKey ent = Ok (B, ent') ->
  exists d r1 pub priv r2 encp x y m,
    cryptorand_Int S256_N ent = Ok (d, r1)
    /\ curve_ScalarBaseMult (Bytes d) = (Some x, Some y)
    /\ ed25519_GenerateKey r1 = Ok ((pub, priv), r2)
    /\ ReadFull curve25519_ScalarSize r2 = Ok (encp, ent')
    /\ json_Marshal_raw (ocrPrivateKeyRawData.mk x y d priv encp) = Ok m
    /\ B = OCRPrivateKey.mk (hex_EncodeToString (sha256_Sum256 m))
             (ecdsa.mk (Some secp256k1_S256) (Some x) (Some y) d) priv encp.
Proof.
  unfold NewOCRPrivateKey, bind, lift, ret, json_Marshal, MarshalJSON.
  destruct (cryptorand_Int S256_N ent) as [[d r1] | e | w] eqn:Ed; try discriminate.
  destruct (ed25519_GenerateKey r1) as [[[pub priv] r2] | e | w] eqn:Eg; try discriminate.
  destruct (ReadFull curve25519_ScalarSize r2) as [[encp r3] | e | w] eqn:Er;
    try discriminate.
  cbn [OCRPrivateKey.onChainSigning OCRPrivateKey.offChainSigning
       OCRPrivateKey.offChainEncryption ecdsa.X ecdsa.Y ecdsa.D snd fst].
  destruct (curve_ScalarBaseMult (Bytes d)) as [[x |] [y |]] eqn:Es;
    cbn [fst snd]; try discriminate.
  match goal with
  | |- context [json_Marshal_raw ?raw] =>
      destruct (json_Marshal_raw raw) as [m | e | w] eqn:Em; try discriminate
  end.
  intros H. injection H as <- <-.
  exists d, r1, pub, priv, r2, encp, x, y, m. repeat split; assumption.
Qed.

(** [MarshalJSON] does not read [ID]. *)
Lemma MarshalJSON_ignores_ID (pk : OCRPrivateKey.t) (id : string) :
  MarshalJSON (OCRPrivateKey.mk id (OCRPrivateKey.onChainSigning pk)
                 (OCRPrivateKey.offChainSigning pk)
                 (OCRPrivateKey.offChainEncryption pk))
  = MarshalJSON pk.
Proof. reflexivity. Qed.

(** The scalar that [NewOCRPrivateKey] draws is in [[0, N-1]], and the
    public point is what [ScalarBaseMult] returns for its bytes. *)
Lemma NewOCRPrivateKey_scalar (ent : Reader) (B : OCRPrivateKey.t) (ent' : Reader) :
  NewOCRPrivateKey ent = Ok (B, ent') ->
  0 <= ecdsa.D (OCRPrivateKey.onChainSigning B) < S256_N
  /\ curve_ScalarBaseMult (Bytes (ecdsa.D (OCRPrivateKey.onChainSigning B)))
     = (ecdsa.X (OCRPrivateKey.onChainSigning B),
        ecdsa.Y (OCRPrivateKey.onChainSigning B)).
Proof.
  intros H. apply NewOCRPrivateKey_inv in H.
  destruct H as (d & r1 & pub & priv & r2 & encp & x & y & m & Hd & Hs & _ & _ & _ & ->).
  cbn. split; [eapply cryptorand_Int_range; eassumption | exact Hs].
Qed.

(** What a successful [encrypt] has done. *)
Lemma encrypt_inv (pk : OCRPrivateKey.t) (auth : string) (sp : scryptParams.t)
    (rnd : Reader) (enc : EncryptedOCRPrivateKey.t) :
  encrypt pk auth sp rnd = Ok enc ->
  exists m cj c,
    MarshalJSON pk = Ok m
    /\ keystore_EncryptDataV3 m (list_byte_of_string ("ocrkey" ++ auth))
         (scryptParams.N sp) (scryptParams.P sp) rnd = Ok cj
    /\ json_Marshal_crypto cj = Ok c
    /\ enc = EncryptedOCRPrivateKey.mk (OCRPrivateKey.ID pk)
               (onChainPrivateKey_Address (OCRPrivateKey.onChainSigning pk))
               (offChainPrivateKey_PublicKey (OCRPrivateKey.offChainSigning pk))
               c time_zero time_zero.
Proof.
  unfold encrypt, json_Marshal, rbind.
  destruct (MarshalJSON pk) as [m | e | w] eqn:Em; try discriminate.
  destruct (keystore_EncryptDataV3 m _ _ _ rnd) as [cj | e | w] eqn:Ee;
    cbn [wrap_err]; try discriminate.
  destruct (json_Marshal_crypto cj) as [c | e | w] eqn:Ec;
    cbn [wrap_err]; try discriminate.
  intros H. injection H as <-.
  exists m, cj, c. repeat split; assumption.
Qed.

(** On a bundle that [NewOCRPrivateKey] returned, [encrypt] succeeds as
    soon as the keystore and the encoder of its result do. *)
Lemma encrypt_generated (ent ent' : Reader) (B : OCRPrivateKey.t) :
  NewOCRPrivateKey ent = Ok (B, ent') ->
  exists m,
    MarshalJSON B = Ok m
    /\ forall (auth : string) (sp : scryptParams.t) (rnd : Reader)
              (cj : CryptoJSON) (c : bytes),
         keystore_EncryptDataV3 m (list_byte_of_string (adulteratedPassword auth))
           (scryptParams.N sp) (scryptParams.P sp) rnd = Ok cj ->
         json_Marshal_crypto cj = Ok c ->
         encrypt B auth sp rnd
         = Ok (EncryptedOCRPrivateKey.mk (OCRPrivateKey.ID B)
                 (PublicKeyAddressOnChain B) (PublicKeyOffChain B)
                 c time_zero time_zero).
Proof.
  intros H. apply NewOCRPrivateKey_inv in H.
  destruct H as (d & r1 & pub & priv & r2 & encp & x & y & m & _ & _ & _ & _ & Hm & ->).
  exists m. split; [exact Hm | ].
  intros auth sp rnd cj c He Hc. unfold encrypt, json_Marshal, rbind.
  change (MarshalJSON _) with (json_Marshal_raw (ocrPrivateKeyRawData.mk x y d priv encp)).
  rewrite Hm, He. cbn [wrap_err]. rewrite Hc. reflexivity.
Qed.

(** What a successful [Decrypt] has done. *)
Lemma Decrypt_inv (encKey : EncryptedOCRPrivateKey.t) (auth : string)
    (pk : OCRPrivateKey.t) :
  Decrypt encKey auth = Ok pk ->
  exists cj m raw,
    json_Unmarshal_crypto (EncryptedOCRPrivateKey.EncryptedPrivKeys encKey) = Ok cj
    /\ keystore_DecryptDataV3 cj ("ocrkey" ++ auth) = Ok m
    /\ json_Unmarshal_raw m = Ok raw
    /\ pk = OCRPrivateKey.mk (EncryptedOCRPrivateKey.ID encKey)
              (ecdsa.mk None (Some (ocrPrivateKeyRawData.EcdsaX raw))
                 (Some (ocrPrivateKeyRawData.EcdsaY raw))
                 (ocrPrivateKeyRawData.EcdsaD raw))
              (ocrPrivateKeyRawData.Ed25519PrivKey raw)
              (ocrPrivateKeyRawData.OffChainEncryption raw).
Proof.
  unfold Decrypt, json_Unmarshal, UnmarshalJSON, rbind.
  destruct (json_Unmarshal_crypto _) as [cj | e | w] eqn:Ec;
    cbn [wrap_err]; try discriminate.
  destruct (keystore_DecryptDataV3 cj _) as [m | e | w] eqn:Ed;
    cbn [wrap_err]; try discriminate.
  destruct (json_Unmarshal_raw m) as [raw | e | w] eqn:Er;
    cbn [wrap_err]; try discriminate.
  intros H. injection H as <-.
  exists cj, m, raw. repeat split; assumption.
Qed.

(** [Decrypt] on a container that parses and whose plaintext parses. *)
Lemma Decrypt_Ok (encKey : EncryptedOCRPrivateKey.t) (auth : string)
    (cj : CryptoJSON) (m : bytes) (raw : ocrPrivateKeyRawData.t) :
  json_Unmarshal_crypto (EncryptedOCRPrivateKey.EncryptedPrivKeys encKey) = Ok cj ->
  keystore_DecryptDataV3 cj (adulteratedPassword auth) = Ok m ->
  json_Unmarshal_raw m = Ok raw ->
  Decrypt encKey auth
  = Ok (OCRPrivateKey.mk (EncryptedOCRPrivateKey.ID encKey)
          (ecdsa.mk None (Some (ocrPrivateKeyRawData.EcdsaX raw))
             (Some (ocrPrivateKeyRawData.EcdsaY raw))
             (ocrPrivateKeyRawData.EcdsaD raw))
          (ocrPrivateKeyRawData.Ed25519PrivKey raw)
          (ocrPrivateKeyRawData.OffChainEncryption raw)).
Proof.
  intros Hc Hd Hr. unfold Decrypt, json_Unmarshal, UnmarshalJSON, rbind.
  rewrite Hc. cbn [wrap_err]. rewrite Hd. cbn [wrap_err]. rewrite Hr.
  reflexivity.
Qed.

(** [Decrypt] when the keystore rejects the password. *)
Lemma Decrypt_rejected (encKey : EncryptedOCRPrivateKey.t) (auth : string)
    (cj : CryptoJSON) (e : error) :
  json_Unmarshal_crypto (EncryptedOCRPrivateKey.EncryptedPrivKeys encKey) = Ok cj ->
  keystore_DecryptDataV3 cj (adulteratedPassword auth) = Err e ->
  Decrypt encKey auth = Err (errors_Wrapf e "could not decrypt OCR key").
Proof.
  intros Hc Hd. unfold Decrypt, rbind.
  rewrite Hc. cbn [wrap_err]. rewrite Hd. reflexivity.
Qed.

(** [Decrypt] when the container is not a [CryptoJSON]. *)
Lemma Decrypt_invalid (encKey : EncryptedOCRPrivateKey.t) (auth : string) (e : error) :
  json_Unmarshal_crypto (EncryptedOCRPrivateKey.EncryptedPrivKeys encKey) = Err e ->
  Decrypt encKey auth = Err (errors_Wrapf e "invalid cryptoJSON for OCR key").
Proof.
  intros Hc. unfold Decrypt, rbind. rewrite Hc. reflexivity.
Qed.

(** [encrypt] succeeds exactly when the three steps do. *)
Lemma encrypt_Ok_iff (pk : OCRPrivateKey.t) (m : bytes) (auth : string)
    (sp : scryptParams.t) (rnd : Reader) (enc : EncryptedOCRPrivateKey.t) :
  json_Marshal pk = Ok m ->
  encrypt pk auth sp rnd = Ok enc
  <-> exists cj c,
        keystore_EncryptDataV3 m (list_byte_of_string ("ocrkey" ++ auth))
          (scryptParams.N sp) (scryptParams.P sp) rnd = Ok cj
        /\ json_Marshal_crypto cj = Ok c
        /\ enc = EncryptedOCRPrivateKey.mk (OCRPrivateKey.ID pk)
                   (onChainPrivateKey_Address (OCRPrivateKey.onChainSigning pk))
                   (offChainPrivateKey_PublicKey (OCRPrivateKey.offChainSigning pk))
                   c time_zero time_zero.
Proof.
  intros Hm. split.
  - intros H. apply encrypt_inv in H. destruct H as (m' & cj & c & Hm' & He & Hc & ->).
    unfold json_Marshal in Hm. rewrite Hm in Hm'. injection Hm' as <-.
    exists cj, c. repeat split; assumption.
  - intros (cj & c & He & Hc & ->). unfold encrypt, rbind. rewrite Hm.
    change (adulteratedPassword auth) with ("ocrkey" ++ auth)%string.
    rewrite He. cbn [wrap_err]. rewrite Hc. reflexivity.
Qed.

(** [Decrypt] succeeds exactly when the three steps do. *)
Lemma Decrypt_Ok_iff (encKey : EncryptedOCRPrivateKey.t) (auth : string)
    (pk : OCRPrivateKey.t) :
  Decrypt encKey auth = Ok pk
  <-> exists cj m raw,
        json_Unmarshal_crypto (EncryptedOCRPrivateKey.EncryptedPrivKeys encKey) = Ok cj
        /\ keystore_DecryptDataV3 cj ("ocrkey" ++ auth) = Ok m
        /\ json_Unmarshal_raw m = Ok raw
        /\ pk = OCRPrivateKey.mk (EncryptedOCRPrivateKey.ID encKey)
                  (ecdsa.mk None (Some (ocrPrivateKeyRawData.EcdsaX raw))
                     (Some (ocrPrivateKeyRawData.EcdsaY raw))
                     (ocrPrivateKeyRawData.EcdsaD raw))
                  (ocrPrivateKeyRawData.Ed25519PrivKey raw)
                  (ocrPrivateKeyRawData.OffChainEncryption raw).
Proof.
  split; [apply Decrypt_inv | ].
  intros (cj & m & raw & Hc & Hd & Hr & ->). apply (Decrypt_Ok _ _ cj m raw); assumption.
Qed.

(** [Decrypt] returns the wrapped [keystore.ErrDecrypt] exactly when the
    container parses and the keystore answers [ErrDecrypt]. *)
Lemma Decrypt_ErrCouldNotDecrypt_iff (encKey : EncryptedOCRPrivateKey.t) (auth : string) :
  Decrypt encKey auth = Err ErrCouldNotDecrypt
  <-> exists cj,
        json_Unmarshal_crypto (EncryptedOCRPrivateKey.EncryptedPrivKeys encKey) = Ok cj
        /\ keystore_DecryptDataV3 cj (adulteratedPassword auth) = Err keystore_ErrDecrypt.
Proof.
  split.
  - unfold Decrypt, json_Unmarshal, UnmarshalJSON, rbind, ErrCouldNotDecrypt, errors_Wrapf.
    destruct (json_Unmarshal_crypto _) as [cj | e0 | w] eqn:Ec;
      cbn [wrap_err]; try discriminate.
    destruct (keystore_DecryptDataV3 cj _) as [m | e0 | w] eqn:Ed;
      cbn [wrap_err]; try discriminate.
    + destruct (json_Unmarshal_raw m) as [raw | e0 | w] eqn:Er;
        cbn [wrap_err]; discriminate.
    + intros H. injection H as ->. exists cj. split; [reflexivity | exact Ed].
  - intros (cj & Hc & Hd). apply (Decrypt_rejected _ _ cj); assumption.
Qed.

(** When the password enters the keystore as an HMAC key only,
    [Decrypt] does not tell apart two passwords whose adulterated forms
    have the same key block. *)
Lemma Decrypt_same_key_block (encKey : EncryptedOCRPrivateKey.t) (P P' : string) :
  keystore_password_as_hmac_key ->
  hmac_key_block (list_byte_of_string (adulteratedPassword P'))
  = hmac_key_block (list_byte_of_string (adulteratedPassword P)) ->
  Decrypt encKey P' = Decrypt encKey P.
Proof.
  intros Hkey E. unfold Decrypt, rbind.
  destruct (json_Unmarshal_crypto _) as [cj | e0 | w]; cbn [wrap_err]; try reflexivity.
  rewrite (Hkey cj _ _ E). reflexivity.
Qed.

(** Zero bytes behind a key, within the 64 bytes of the block, leave the
    key block as it is. *)
Lemma hmac_key_block_zeros (key : bytes) (k : nat) :
  (length key + k <= 64)%nat ->
  hmac_key_block (key ++ zeros k) = hmac_key_block key.
Proof.
  intros H. unfold hmac_key_block.
  assert (Hz : length (zeros k) = k) by apply repeat_length.
  rewrite length_app, Hz.
  destruct (Nat.ltb_spec 64 (length key + k)) as [H1 | _]; [lia | ].
  destruct (Nat.ltb_spec 64 (length key)) as [H1 | _]; [lia | ].
  apply copy_into_zeros. exact H.
Qed.

(** So a password followed by NUL characters reaches the keystore with
    the key block of the password, up to 58 characters in all. *)
Lemma adulteratedPassword_nuls (P : string) (k : nat) :
  (String.length P + k <= 58)%nat ->
  hmac_key_block (list_byte_of_string (adulteratedPassword (P ++ nuls k)))
  = hmac_key_block (list_byte_of_string (adulteratedPassword P)).
Proof.
  intros H. unfold adulteratedPassword.
  rewrite !list_byte_of_string_app, list_byte_of_string_nuls, app_assoc.
  apply hmac_key_block_zeros.
  rewrite length_app, !list_byte_of_string_length.
  change (String.length "ocrkey") with 6%nat. lia.
Qed.

(** The adulterated password and the raw password are different HMAC
    keys: the prefix adds six bytes that are not zero. *)
Lemma adulteratedPassword_other_key (P : string) :
  (String.length P <= 58)%nat ->
  hmac_key_block (list_byte_of_string (adulteratedPassword P))
  <> hmac_key_block (list_byte_of_string P).
Proof.
  intros H E. apply (f_equal count_nonzero) in E. revert E.
  unfold hmac_key_block, adulteratedPassword.
  rewrite list_byte_of_string_app, length_app, !list_byte_of_string_length.
  change (String.length "ocrkey") with 6%nat.
  destruct (Nat.ltb_spec 64 (6 + String.length P)) as [H1 | _]; [lia | ].
  destruct (Nat.ltb_spec 64 (String.length P)) as [H1 | _]; [lia | ].
  rewrite !count_nonzero_copy_into
    by (rewrite ?length_app, !list_byte_of_string_length;
        change (String.length "ocrkey") with 6%nat; lia).
  rewrite count_nonzero_app.
  change (count_nonzero (list_byte_of_string "ocrkey")) with 6%nat. lia.
Qed.

(** The scalars of a generated bundle: the exchange scalar has 32
    bytes. *)
Lemma NewOCRPrivateKey_exchange_scalar (ent : Reader) (B : OCRPrivateKey.t)
    (ent' : Reader) :
  NewOCRPrivateKey ent = Ok (B, ent') ->
  length (OCRPrivateKey.offChainEncryption B) = 32%nat.
Proof.
  intros H. apply NewOCRPrivateKey_inv in H.
  destruct H as (d & r1 & pub & priv & r2 & encp & x & y & m & _ & _ & _ & Hr & _ & ->).
  apply ReadFull_inv in Hr. exact (proj1 Hr).
Qed.

End Properties.

(* ===================================================================== *)
(** ** The claims                                                         *)
(* ===================================================================== *)

Section Claims.
Context {L : Libraries}.

(** C1 (vault round trip).  When encoding/json and the keystore round
    trip, then for every bundle [B] returned by [NewOCRPrivateKey] and
    every password [P] (and every cost parameters, those of [Encrypt]
    included), decrypting what [encrypt] returned, with the same
    password, succeeds and gives a bundle with the ID, the on-chain
    private scalar, the two public coordinates, the Ed25519 private key
    and the curve25519 scalar of [B]. *)
Theorem C1_vault_round_trip :
  json_raw_round_trip -> json_crypto_round_trip -> keystore_round_trip ->
  forall (ent ent' : Reader) (B : OCRPrivateKey.t) (P : string)
         (sp : scryptParams.t) (rnd : Reader) (enc : EncryptedOCRPrivateKey.t),
    NewOCRPrivateKey ent = Ok (B, ent') ->
    encrypt B P sp rnd = Ok enc ->
    exists B',
      Decrypt enc P = Ok B'
      /\ OCRPrivateKey.ID B' = OCRPrivateKey.ID B
      /\ ecdsa.D (OCRPrivateKey.onChainSigning B')
         = ecdsa.D (OCRPrivateKey.onChainSigning B)
      /\ ecdsa.X (OCRPrivateKey.onChainSigning B')
         = ecdsa.X (OCRPrivateKey.onChainSigning B)
      /\ ecdsa.Y (OCRPrivateKey.onChainSigning B')
         = ecdsa.Y (OCRPrivateKey.onChainSigning B)
      /\ OCRPrivateKey.offChainSigning B' = OCRPrivateKey.offChainSigning B
      /\ OCRPrivateKey.offChainEncryption B' = OCRPrivateKey.offChainEncryption B.
Proof.
  intros Hraw Hcj Hks ent ent' B P sp rnd enc Hgen Henc.
  apply NewOCRPrivateKey_inv in Hgen.
  destruct Hgen as (d & r1 & pub & priv & r2 & encp & x & y & m0 & _ & _ & _ & _ & Hm0 & ->).
  apply encrypt_inv in Henc.
  destruct Henc as (m & cj & c & Hm & He & Hc & ->).
  unfold MarshalJSON in Hm. cbn in Hm.
  apply Hks in He. rewrite string_of_list_byte_of_string in He.
  eexists. split.
  - eapply Decrypt_Ok; [apply Hcj; exact Hc | exact He | apply Hraw; exact Hm].
  - cbn. repeat split; reflexivity.
Qed.

(** C2, as amended (wrong password).  [Decrypt] returns the decryption
    error, [keystore.ErrDecrypt] wrapped in the message of the decryption
    step, exactly when the container parses and the MAC check of the
    keystore fails for ["ocrkey" ++ P2]: one error value for every such
    failure, wrong password or tampered cipher text alike.  A container
    that is not a [CryptoJSON] gives another error, that of the parsing
    step.  And the MAC check does not fail for every [P2 <> P1]:
    decrypting what [encrypt] returned for [P1] succeeds with [P1], and
    with every password that reaches the keystore as the same HMAC key:
    [P1] followed by NUL characters, up to 58 characters in all. *)
Theorem C2_wrong_password :
  json_raw_round_trip -> json_crypto_round_trip -> keystore_round_trip ->
  keystore_password_as_hmac_key ->
  forall (B : OCRPrivateKey.t) (P1 : string) (sp : scryptParams.t)
         (rnd : Reader) (enc : EncryptedOCRPrivateKey.t),
    encrypt B P1 sp rnd = Ok enc ->
    (forall (enc' : EncryptedOCRPrivateKey.t) (P2 : string),
        Decrypt enc' P2 = Err ErrCouldNotDecrypt
        <-> exists cj,
              json_Unmarshal_crypto (EncryptedOCRPrivateKey.EncryptedPrivKeys enc') = Ok cj
              /\ keystore_DecryptDataV3 cj (adulteratedPassword P2)
                 = Err keystore_ErrDecrypt)
    /\ (forall (enc' : EncryptedOCRPrivateKey.t) (auth : string) (e : error),
           json_Unmarshal_crypto (EncryptedOCRPrivateKey.EncryptedPrivKeys enc') = Err e ->
           Decrypt enc' auth = Err (errors_Wrapf e "invalid cryptoJSON for OCR key")
           /\ Decrypt enc' auth <> Err ErrCouldNotDecrypt)
    /\ (exists B',
           Decrypt enc P1 = Ok B'
           /\ (forall P2 : string,
                  hmac_key_block (list_byte_of_string (adulteratedPassword P2))
                  = hmac_key_block (list_byte_of_string (adulteratedPassword P1)) ->
                  Decrypt enc P2 = Ok B')
           /\ (forall k : nat,
                  (String.length P1 + k <= 58)%nat ->
                  Decrypt enc (P1 ++ nuls k) = Ok B')).
Proof.
  intros Hraw Hcj Hks Hkey B P1 sp rnd enc Henc.
  split; [ | split].
  - intros enc' P2. apply Decrypt_ErrCouldNotDecrypt_iff.
  - intros enc' auth e Hc'. rewrite (Decrypt_invalid _ auth _ Hc').
    split; [reflexivity | ]. unfold ErrCouldNotDecrypt, errors_Wrapf. discriminate.
  - apply encrypt_inv in Henc. destruct Henc as (m & cj & c & Hm & He & Hc & ->).
    unfold MarshalJSON in Hm.
    destruct (ecdsa.X (OCRPrivateKey.onChainSigning B)) as [x |]; [ | discriminate].
    destruct (ecdsa.Y (OCRPrivateKey.onChainSigning B)) as [y |]; [ | discriminate].
    apply Hks in He. rewrite string_of_list_byte_of_string in He.
    assert (Hd : forall P2 : string,
               hmac_key_block (list_byte_of_string (adulteratedPassword P2))
               = hmac_key_block (list_byte_of_string (adulteratedPassword P1)) ->
               Decrypt
                 (EncryptedOCRPrivateKey.mk (OCRPrivateKey.ID B)
                    (onChainPrivateKey_Address (OCRPrivateKey.onChainSigning B))
                    (offChainPrivateKey_PublicKey (OCRPrivateKey.offChainSigning B))
                    c time_zero time_zero) P2
               = Ok (OCRPrivateKey.mk (OCRPrivateKey.ID B)
                       (ecdsa.mk None (Some x) (Some y)
                          (ecdsa.D (OCRPrivateKey.onChainSigning B)))
                       (OCRPrivateKey.offChainSigning B)
                       (OCRPrivateKey.offChainEncryption B))).
    { intros P2 E. rewrite (Decrypt_same_key_block _ P1 P2 Hkey E).
      etransitivity;
        [eapply Decrypt_Ok; [apply Hcj; exact Hc | exact He | apply Hraw; exact Hm] | ].
      reflexivity. }
    eexists. split; [apply Hd; reflexivity | split].
    + exact Hd.
    + intros k Hk. apply Hd. apply adulteratedPassword_nuls. exact Hk.
Qed.

(** C3 (identity derivation).  The ID of a bundle returned by
    [NewOCRPrivateKey] is the lowercase hexadecimal text of the SHA-256
    digest of [json.Marshal] of the bundle, 64 characters; what is
    marshalled is the raw data of the three private keys (the on-chain
    one with its two public coordinates) and nothing else; two
    generated bundles with the same on-chain scalar, Ed25519 private key
    and curve25519 scalar have the same ID. *)
Theorem C3_identity_derivation :
  sha256_size ->
  forall (ent ent' : Reader) (B : OCRPrivateKey.t),
    NewOCRPrivateKey ent = Ok (B, ent') ->
    (exists x y m,
        ecdsa.X (OCRPrivateKey.onChainSigning B) = Some x
        /\ ecdsa.Y (OCRPrivateKey.onChainSigning B) = Some y
        /\ json_Marshal_raw
             (ocrPrivateKeyRawData.mk x y
                (ecdsa.D (OCRPrivateKey.onChainSigning B))
                (OCRPrivateKey.offChainSigning B)
                (OCRPrivateKey.offChainEncryption B)) = Ok m
        /\ json_Marshal B = Ok m
        /\ OCRPrivateKey.ID B = hex_EncodeToString (sha256_Sum256 m))
    /\ String.length (OCRPrivateKey.ID B) = 64%nat
    /\ all_chars is_lower_hex (OCRPrivateKey.ID B) = true
    /\ (forall (ent2 ent2' : Reader) (B2 : OCRPrivateKey.t),
           NewOCRPrivateKey ent2 = Ok (B2, ent2') ->
           ecdsa.D (OCRPrivateKey.onChainSigning B2)
           = ecdsa.D (OCRPrivateKey.onChainSigning B) ->
           OCRPrivateKey.offChainSigning B2 = OCRPrivateKey.offChainSigning B ->
           OCRPrivateKey.offChainEncryption B2 = OCRPrivateKey.offChainEncryption B ->
           OCRPrivateKey.ID B2 = OCRPrivateKey.ID B).
Proof.
  intros Hsize ent ent' B Hgen.
  apply NewOCRPrivateKey_inv in Hgen.
  destruct Hgen as (d & r1 & pub & priv & r2 & encp & x & y & m & _ & Hs & _ & _ & Hm & ->).
  cbn [OCRPrivateKey.ID OCRPrivateKey.onChainSigning OCRPrivateKey.offChainSigning
       OCRPrivateKey.offChainEncryption ecdsa.D].
  split; [ | split; [ | split]].
  - exists x, y, m. repeat split; try reflexivity; exact Hm.
  - rewrite hex_EncodeToString_length, Hsize. reflexivity.
  - apply hex_EncodeToString_lower.
  - intros ent2 ent2' B2 Hgen2 HD Hoff Henc.
    apply NewOCRPrivateKey_inv in Hgen2.
    destruct Hgen2 as (d2 & r1' & pub2 & priv2 & r2' & encp2 & x2 & y2 & m2
                       & _ & Hs2 & _ & _ & Hm2 & ->).
    cbn in HD, Hoff, Henc. subst d2 priv2 encp2.
    rewrite Hs in Hs2. injection Hs2 as <- <-.
    rewrite Hm in Hm2. injection Hm2 as <-. reflexivity.
Qed.

(** C4 (key generation range).  When the secp256k1 library has no point
    for the scalar 0, every bundle that [NewOCRPrivateKey] returns has an
    on-chain scalar of [[1, N-1]], and a public point that is the one
    [ScalarBaseMult] returned for the bytes of that scalar.  The scalar
    is the draw of [cryptorand.Int] on the reader, which is uniform: a
    block of 32 bytes with a value below [N] is taken as it is, each
    value coming from exactly one block, and a block with another value
    is discarded for the next one. *)
Theorem C4_key_generation_range :
  secp256k1_no_point_for_zero ->
  forall (ent ent' : Reader) (B : OCRPrivateKey.t),
    NewOCRPrivateKey ent = Ok (B, ent') ->
    let d := ecdsa.D (OCRPrivateKey.onChainSigning B) in
    1 <= d <= S256_N - 1
    /\ (exists x y,
           ecdsa.X (OCRPrivateKey.onChainSigning B) = Some x
           /\ ecdsa.Y (OCRPrivateKey.onChainSigning B) = Some y
           /\ curve_ScalarBaseMult (Bytes d) = (Some x, Some y))
    /\ (exists r1, cryptorand_Int S256_N ent = Ok (d, r1))
    /\ (forall d' : Z,
           1 <= d' <= S256_N - 1 ->
           exists buf,
             length buf = 32%nat /\ SetBytes buf = d'
             /\ (forall rest, cryptorand_Int S256_N (buf ++ rest) = Ok (d', rest))
             /\ (forall buf', length buf' = 32%nat -> SetBytes buf' = d' -> buf' = buf))
    /\ (forall buf rest : bytes,
           length buf = 32%nat -> S256_N <= SetBytes buf ->
           cryptorand_Int S256_N (buf ++ rest) = cryptorand_Int S256_N rest).
Proof.
  intros Hzero ent ent' B H. apply NewOCRPrivateKey_inv in H.
  destruct H as (d & r1 & pub & priv & r2 & encp & x & y & m & Hd & Hs & _ & _ & _ & ->).
  cbn [OCRPrivateKey.onChainSigning ecdsa.D ecdsa.X ecdsa.Y]. cbv zeta.
  split; [ | split; [ | split; [ | split]]].
  - pose proof (cryptorand_Int_range _ _ _ _ Hd) as Hr.
    destruct (Z.eq_dec d 0) as [-> | Hnz]; [ | lia].
    unfold secp256k1_no_point_for_zero in Hzero. rewrite Hzero in Hs. discriminate.
  - exists x, y. repeat split. exact Hs.
  - exists r1. exact Hd.
  - intros d' Hd'. destruct (cryptorand_Int_onto d') as (buf & Hl & Hv & Hdraw); [lia | ].
    exists buf. repeat split; try assumption.
    intros buf' Hl' Hv'. apply SetBytes_inj; congruence.
  - apply cryptorand_Int_rejects.
Qed.

(** C5 (key-agreement symmetry).  When X25519 has its Diffie-Hellman
    property and never returns the all-zero point, then for every two
    bundles [A] and [B] that [NewOCRPrivateKey] returned:
    [PublicKeyConfig] returns the product of the exchange scalar with the
    base point; [ConfigDiffieHelman] of each bundle on the public key of
    the other succeeds, and both return the same 32 bytes: the point that
    X25519 returns for the exchange scalar of the one and the public key
    of the other, which is not the all-zero array. *)
Theorem C5_key_agreement_symmetry :
  X25519_never_zero -> X25519_Diffie_Hellman ->
  forall (entA entA' entB entB' : Reader) (A B : OCRPrivateKey.t),
    NewOCRPrivateKey entA = Ok (A, entA') ->
    NewOCRPrivateKey entB = Ok (B, entB') ->
    exists pa pb s,
      PublicKeyConfig A = Ok pa
      /\ PublicKeyConfig B = Ok pb
      /\ curve25519_X25519 (OCRPrivateKey.offChainEncryption A) curve25519_Basepoint
         = Ok pa
      /\ curve25519_X25519 (OCRPrivateKey.offChainEncryption B) curve25519_Basepoint
         = Ok pb
      /\ ConfigDiffieHelman A pb = Ok s
      /\ ConfigDiffieHelman B pa = Ok s
      /\ curve25519_X25519 (OCRPrivateKey.offChainEncryption A) pb = Ok s
      /\ curve25519_X25519 (OCRPrivateKey.offChainEncryption B) pa = Ok s
      /\ length s = 32%nat
      /\ s <> zeros 32.
Proof.
  intros Hnz Hdh entA entA' entB entB' A B HA HB.
  apply NewOCRPrivateKey_exchange_scalar in HA, HB.
  destruct (Hdh _ _ HA HB) as (pa & pb & s & Ha & Hb & Hab & Hba).
  destruct (Hnz _ _ _ Ha) as [Hla _]. destruct (Hnz _ _ _ Hb) as [Hlb _].
  destruct (Hnz _ _ _ Hab) as [Hls Hs].
  exists pa, pb, s. unfold PublicKeyConfig, ConfigDiffieHelman, rbind.
  rewrite Ha, Hb, Hab, Hba.
  unfold curve25519_PointSize, ed25519_PublicKeySize.
  rewrite !copy_into_same by assumption.
  repeat split; try reflexivity; assumption.
Qed.

(** C6 (degenerate peer point).  An error of [X25519] on the peer point
    (the library reports a point of low order as one) is returned as it
    is, with no shared point; and as the library never returns the
    all-zero point, a shared point that [ConfigDiffieHelman] returns is
    the point of the library, never the all-zero array. *)
Theorem C6_degenerate_peer_point :
  X25519_never_zero ->
  forall (pk : OCRPrivateKey.t) (base : bytes),
    (forall e, curve25519_X25519 (OCRPrivateKey.offChainEncryption pk) base = Err e ->
               ConfigDiffieHelman pk base = Err e)
    /\ (forall s, ConfigDiffieHelman pk base = Ok s ->
                  curve25519_X25519 (OCRPrivateKey.offChainEncryption pk) base = Ok s
                  /\ s <> zeros 32).
Proof.
  intros Hnz pk base. unfold ConfigDiffieHelman, rbind. split.
  - intros e He. rewrite He. reflexivity.
  - intros s.
    destruct (curve25519_X25519 _ base) as [p | e | w] eqn:Ex; try discriminate.
    intros H. injection H as <-.
    destruct (Hnz _ _ _ Ex) as [Hlen Hz].
    unfold ed25519_PublicKeySize. rewrite copy_into_same by exact Hlen.
    split; [reflexivity | exact Hz].
Qed.

(** C7 (non-disclosure).  [String] and [GoStringer] are a function of
    the on-chain signing address and the off-chain public key: two
    bundles that agree on these two render the same.  The on-chain
    scalar, the exchange scalar and the ID do not reach the output at
    all: replacing them changes nothing; the Ed25519 private key reaches
    it through its public key only. *)
Theorem C7_non_disclosure :
  forall pk1 pk2 : OCRPrivateKey.t,
    PublicKeyAddressOnChain pk1 = PublicKeyAddressOnChain pk2 ->
    PublicKeyOffChain pk1 = PublicKeyOffChain pk2 ->
    OCRPrivateKey_String pk1 = OCRPrivateKey_String pk2
    /\ GoStringer pk1 = GoStringer pk2
    /\ GoStringer pk1 = OCRPrivateKey_String pk1
    /\ (forall (id' : string) (curve' : option elliptic_Curve) (d' : Z) (e' : bytes),
           OCRPrivateKey_String
             (OCRPrivateKey.mk id'
                (ecdsa.mk curve' (ecdsa.X (OCRPrivateKey.onChainSigning pk1))
                   (ecdsa.Y (OCRPrivateKey.onChainSigning pk1)) d')
                (OCRPrivateKey.offChainSigning pk1) e')
           = OCRPrivateKey_String pk1).
Proof.
  intros pk1 pk2 Ha Hp. unfold GoStringer, OCRPrivateKey_String.
  repeat split; try reflexivity; rewrite Ha, Hp; reflexivity.
Qed.

(** C8 (identity threading).  [encrypt] copies the ID, the on-chain
    address and the off-chain public key of the bundle into its result;
    [Decrypt] of any container returns the ID stored with the
    container, whatever the decrypted key material. *)
Theorem C8_identity_threading :
  forall (pk : OCRPrivateKey.t) (auth : string) (sp : scryptParams.t) (rnd : Reader)
         (enc stored : EncryptedOCRPrivateKey.t) (auth' : string)
         (pk' : OCRPrivateKey.t),
    encrypt pk auth sp rnd = Ok enc ->
    Decrypt stored auth' = Ok pk' ->
    (EncryptedOCRPrivateKey.ID enc = OCRPrivateKey.ID pk
     /\ EncryptedOCRPrivateKey.OnChainSigningAddress enc = PublicKeyAddressOnChain pk
     /\ EncryptedOCRPrivateKey.OffChainPublicKey enc = PublicKeyOffChain pk)
    /\ OCRPrivateKey.ID pk' = EncryptedOCRPrivateKey.ID stored.
Proof.
  intros pk auth sp rnd enc stored auth' pk' Henc Hdec.
  apply encrypt_inv in Henc. destruct Henc as (m & cj & c & _ & _ & _ & ->).
  apply Decrypt_inv in Hdec. destruct Hdec as (cj' & m' & raw & _ & _ & _ & ->).
  repeat split; reflexivity.
Qed.

(** C9, as amended (password adulteration).  For a bundle that
    marshals, [encrypt] with [P] succeeds exactly when the keystore
    encrypts the marshalled bundle under the bytes of ["ocrkey" ++ P]
    and the result encodes, and returns that result; [Decrypt] with [P]
    succeeds exactly when the keystore opens the container with
    ["ocrkey" ++ P] and the plain text is a key bundle.  So, when the
    libraries round trip, a container that [encrypt] wrote under [P]
    opens with [P]; and, the password being an HMAC key for the keystore,
    also with every password whose adulterated form has the same key
    block, as [P] followed by NUL characters: not with [P] alone.  The
    raw password [P] is another HMAC key than ["ocrkey" ++ P], and a
    container for which the keystore refuses ["ocrkey" ++ P], whatever
    it was written under, is refused with the decryption error. *)
Theorem C9_password_adulteration :
  json_raw_round_trip -> json_crypto_round_trip -> keystore_round_trip ->
  keystore_password_as_hmac_key ->
  forall (pk : OCRPrivateKey.t) (m : bytes) (P : string) (sp : scryptParams.t)
         (rnd : Reader),
    json_Marshal pk = Ok m ->
    (forall enc : EncryptedOCRPrivateKey.t,
        encrypt pk P sp rnd = Ok enc
        <-> exists cj c,
              keystore_EncryptDataV3 m (list_byte_of_string ("ocrkey" ++ P))
                (scryptParams.N sp) (scryptParams.P sp) rnd = Ok cj
              /\ json_Marshal_crypto cj = Ok c
              /\ enc = EncryptedOCRPrivateKey.mk (OCRPrivateKey.ID pk)
                         (PublicKeyAddressOnChain pk) (PublicKeyOffChain pk)
                         c time_zero time_zero)
    /\ (forall (stored : EncryptedOCRPrivateKey.t) (P' : string) (pk' : OCRPrivateKey.t),
           Decrypt stored P' = Ok pk'
           <-> exists cj m' raw,
                 json_Unmarshal_crypto (EncryptedOCRPrivateKey.EncryptedPrivKeys stored)
                 = Ok cj
                 /\ keystore_DecryptDataV3 cj ("ocrkey" ++ P') = Ok m'
                 /\ json_Unmarshal_raw m' = Ok raw
                 /\ pk' = OCRPrivateKey.mk (EncryptedOCRPrivateKey.ID stored)
                            (ecdsa.mk None (Some (ocrPrivateKeyRawData.EcdsaX raw))
                               (Some (ocrPrivateKeyRawData.EcdsaY raw))
                               (ocrPrivateKeyRawData.EcdsaD raw))
                            (ocrPrivateKeyRawData.Ed25519PrivKey raw)
                            (ocrPrivateKeyRawData.OffChainEncryption raw))
    /\ (forall enc : EncryptedOCRPrivateKey.t,
           encrypt pk P sp rnd = Ok enc ->
           exists pk',
             Decrypt enc P = Ok pk'
             /\ json_Marshal pk' = Ok m
             /\ (forall P' : string,
                    hmac_key_block (list_byte_of_string ("ocrkey" ++ P'))
                    = hmac_key_block (list_byte_of_string ("ocrkey" ++ P)) ->
                    Decrypt enc P' = Ok pk')
             /\ (forall k : nat,
                    (String.length P + k <= 58)%nat ->
                    Decrypt enc (P ++ nuls k) = Ok pk'))
    /\ ((String.length P <= 58)%nat ->
        hmac_key_block (list_byte_of_string ("ocrkey" ++ P))
        <> hmac_key_block (list_byte_of_string P))
    /\ (forall (stored : EncryptedOCRPrivateKey.t) (cj : CryptoJSON),
           json_Unmarshal_crypto (EncryptedOCRPrivateKey.EncryptedPrivKeys stored) = Ok cj ->
           keystore_DecryptDataV3 cj ("ocrkey" ++ P) = Err keystore_ErrDecrypt ->
           Decrypt stored P = Err ErrCouldNotDecrypt).
Proof.
  intros Hraw Hcj Hks Hkey pk m P sp rnd Hm.
  split; [ | split; [ | split; [ | split]]].
  - intros enc. apply encrypt_Ok_iff. exact Hm.
  - intros stored P' pk'. apply Decrypt_Ok_iff.
  - intros enc Henc.
    apply encrypt_inv in Henc. destruct Henc as (m' & cj & c & Hm' & He & Hc & ->).
    unfold json_Marshal in Hm. rewrite Hm in Hm'. injection Hm' as <-.
    unfold MarshalJSON in Hm.
    destruct (ecdsa.X (OCRPrivateKey.onChainSigning pk)) as [x |]; [ | discriminate].
    destruct (ecdsa.Y (OCRPrivateKey.onChainSigning pk)) as [y |]; [ | discriminate].
    apply Hks in He. rewrite string_of_list_byte_of_string in He.
    assert (Hd : forall P' : string,
               hmac_key_block (list_byte_of_string (adulteratedPassword P'))
               = hmac_key_block (list_byte_of_string (adulteratedPassword P)) ->
               Decrypt
                 (EncryptedOCRPrivateKey.mk (OCRPrivateKey.ID pk)
                    (onChainPrivateKey_Address (OCRPrivateKey.onChainSigning pk))
                    (offChainPrivateKey_PublicKey (OCRPrivateKey.offChainSigning pk))
                    c time_zero time_zero) P'
               = Ok (OCRPrivateKey.mk (OCRPrivateKey.ID pk)
                       (ecdsa.mk None (Some x) (Some y)
                          (ecdsa.D (OCRPrivateKey.onChainSigning pk)))
                       (OCRPrivateKey.offChainSigning pk)
                       (OCRPrivateKey.offChainEncryption pk))).
    { intros P' E. rewrite (Decrypt_same_key_block _ P P' Hkey E).
      etransitivity;
        [eapply Decrypt_Ok; [apply Hcj; exact Hc | exact He | apply Hraw; exact Hm] | ].
      reflexivity. }
    eexists. split; [apply Hd; reflexivity | split; [ | split]].
    + unfold json_Marshal, MarshalJSON. cbn. exact Hm.
    + exact Hd.
    + intros k Hk. apply Hd. apply adulteratedPassword_nuls. exact Hk.
  - apply adulteratedPassword_other_key.
  - intros stored cj Hc Hd. apply (Decrypt_rejected _ _ cj); assumption.
Qed.

(** C10 (curve-field asymmetry).  A bundle returned by
    [NewOCRPrivateKey] has the secp256k1 curve in its on-chain public
    key; a bundle rebuilt by [UnmarshalJSON], and so one returned by
    [Decrypt], has none; the two are different values. *)
Theorem C10_curve_field_asymmetry :
  forall (ent ent' : Reader) (B : OCRPrivateKey.t)
         (pk0 : OCRPrivateKey.t) (b : bytes) (U : OCRPrivateKey.t)
         (enc : EncryptedOCRPrivateKey.t) (auth : string) (B' : OCRPrivateKey.t),
    NewOCRPrivateKey ent = Ok (B, ent') ->
    UnmarshalJSON pk0 b = Ok U ->
    Decrypt enc auth = Ok B' ->
    ecdsa.Curve (OCRPrivateKey.onChainSigning B) = Some secp256k1_S256
    /\ ecdsa.Curve (OCRPrivateKey.onChainSigning U) = None
    /\ ecdsa.Curve (OCRPrivateKey.onChainSigning B') = None
    /\ U <> B /\ B' <> B.
Proof.
  intros ent ent' B pk0 b U enc auth B' Hgen Hun Hdec.
  apply NewOCRPrivateKey_inv in Hgen.
  destruct Hgen as (d & r1 & pub & priv & r2 & encp & x & y & m & _ & _ & _ & _ & _ & ->).
  apply Decrypt_inv in Hdec. destruct Hdec as (cj & m' & raw & _ & _ & _ & ->).
  unfold UnmarshalJSON, rbind in Hun.
  destruct (json_Unmarshal_raw b) as [raw' | e | w]; try discriminate.
  injection Hun as <-.
  cbn. repeat split; try reflexivity; intros H; discriminate H.
Qed.

End Claims.

(* ===================================================================== *)
(** ** The reference libraries meet the contracts                         *)
(* ===================================================================== *)

Lemma bytes_eqb_eq (a b : bytes) : Ref.bytes_eqb a b = true <-> a = b.
Proof.
  revert b. induction a as [| x a IH]; intros [| y b]; simpl;
    try (split; [discriminate | discriminate]); [tauto | ].
  rewrite andb_true_iff, IH. split.
  - intros [Hx ->]. apply Byte.byte_dec_bl in Hx. now subst.
  - intros H. injection H as -> ->. split; [now apply Byte.byte_dec_lb | reflexivity].
Qed.

Lemma raw_eqb_eq (a b : ocrPrivateKeyRawData.t) : Ref.raw_eqb a b = true -> a = b.
Proof.
  destruct a, b. unfold Ref.raw_eqb. cbn.
  rewrite !andb_true_iff, !Z.eqb_eq, !bytes_eqb_eq.
  intros [[[[-> ->] ->] ->] ->]. reflexivity.
Qed.

Lemma crypto_eqb_eq (a b : Ref.keystore.CryptoJSON) : Ref.crypto_eqb a b = true -> a = b.
Proof.
  destruct a, b. unfold Ref.crypto_eqb. cbn.
  rewrite !andb_true_iff, !Z.eqb_eq, !String.eqb_eq.
  intros [[[[[[[[[-> ->] ->] ->] ->] ->] ->] ->] ->] ->]. reflexivity.
Qed.

Lemma Ref_json_raw_round_trip : json_raw_round_trip (L := Ref.libs).
Proof.
  intros raw b. cbn. unfold Ref.Marshal_raw.
  destruct (Ref.Unmarshal_raw _) as [raw' | e | w] eqn:E; try discriminate.
  destruct (Ref.raw_eqb raw raw') eqn:Q; [ | discriminate].
  intros H. injection H as <-. rewrite E. f_equal. symmetry. now apply raw_eqb_eq.
Qed.

Lemma Ref_json_crypto_round_trip : json_crypto_round_trip (L := Ref.libs).
Proof.
  intros cj b. cbn. unfold Ref.Marshal_crypto.
  destruct (Ref.Unmarshal_crypto _) as [cj' | e | w] eqn:E; try discriminate.
  destruct (Ref.crypto_eqb cj cj') eqn:Q; [ | discriminate].
  intros H. injection H as <-. rewrite E. f_equal. symmetry. now apply crypto_eqb_eq.
Qed.

Lemma be_bytes_length (n : nat) (x : Z) : length (Ref.be_bytes n x) = n.
Proof. unfold Ref.be_bytes. now rewrite length_map, length_rev, length_seq. Qed.

Lemma Ref_sha256_size : sha256_size (L := Ref.libs).
Proof.
  intros m. cbn. unfold Ref.Sum256.
  destruct (fold_left _ _ _) as [[[[[[[a b] c] d] e] f] g] h].
  unfold Ref.bytes_of_word. rewrite !length_app, !be_bytes_length. reflexivity.
Qed.

Lemma Ref_X25519_never_zero : X25519_never_zero (L := Ref.libs).
Proof.
  intros scalar point out.
  change (@curve25519_X25519 Ref.libs) with Ref.X25519. unfold Ref.X25519.
  destruct (negb _); [discriminate | ].
  destruct (negb _); [discriminate | ].
  destruct (Ref.bytes_eqb _ _) eqn:Q; [discriminate | ].
  intros H. apply Ok_inj in H. subst out. split.
  - unfold Ref.ScalarMult. destruct (Ref.ladder _ _ _ _ _) as [[[x2 z2] x3] z3].
    unfold Ref.le_encode. now rewrite length_rev, be_bytes_length.
  - intros Hz. apply (proj2 (bytes_eqb_eq _ _)) in Hz. rewrite Hz in Q. discriminate.
Qed.

(** *** The point u = 0 is rejected for every scalar *)

Section LowOrder.
Import BigZ.

Local Notation "[ x ]" := (BigZ.to_Z x).

Lemma fmul_zero_l m a b : [a] = 0 -> [Ref.fmul m a b] = 0.
Proof.
  intros H. unfold Ref.fmul. rewrite BigZ.spec_modulo, BigZ.spec_mul, H.
  rewrite Z.mul_0_l. apply Zmod_0_l.
Qed.

Lemma fmul_zero_r m a b : [b] = 0 -> [Ref.fmul m a b] = 0.
Proof.
  intros H. unfold Ref.fmul. rewrite BigZ.spec_modulo, BigZ.spec_mul, H.
  rewrite Z.mul_0_r. apply Zmod_0_l.
Qed.

Lemma fpow_zero m b e : [b] = 0 -> [Ref.fpow m b e] = 0.
Proof.
  intros H. induction e as [e IH | e IH | ]; cbn [Ref.fpow].
  - apply fmul_zero_r. exact H.
  - apply fmul_zero_l. exact IH.
  - rewrite BigZ.spec_modulo, H. apply Zmod_0_l.
Qed.

Lemma square_difference m x2 z2 :
  [x2] = 0 \/ [z2] = 0 ->
  [Ref.fsub m (Ref.fmul m (Ref.fadd m x2 z2) (Ref.fadd m x2 z2))
              (Ref.fmul m (Ref.fsub m x2 z2) (Ref.fsub m x2 z2))] = 0.
Proof.
  intros H. unfold Ref.fsub, Ref.fmul, Ref.fadd.
  rewrite !BigZ.spec_modulo, !BigZ.spec_sub, !BigZ.spec_modulo, !BigZ.spec_mul,
    !BigZ.spec_modulo, !BigZ.spec_add, !BigZ.spec_sub.
  rewrite <- !Zmult_mod.
  destruct H as [-> | ->].
  - rewrite Z.add_0_l, Z.sub_0_l.
    replace (- [z2] * - [z2]) with ([z2] * [z2]) by ring.
    rewrite Z.sub_diag. apply Zmod_0_l.
  - rewrite Z.add_0_r, Z.sub_0_r, Z.sub_diag. apply Zmod_0_l.
Qed.

Lemma ladder_step_degenerate x1 st :
  [x1] = 0 -> Ref.degenerate st -> Ref.degenerate (Ref.ladder_step x1 st).
Proof.
  intros Hx1. destruct st as [[[x2 z2] x3] z3]. intros [H2 H3].
  unfold Ref.ladder_step, Ref.degenerate. split; right.
  - apply fmul_zero_l. apply square_difference. exact H2.
  - apply fmul_zero_l. exact Hx1.
Qed.

Lemma cswap_degenerate b st : Ref.degenerate st -> Ref.degenerate (Ref.cswap b st).
Proof.
  destruct st as [[[x2 z2] x3] z3]. intros [H2 H3].
  destruct b; cbn; split; assumption.
Qed.

Lemma ladder_degenerate x1 k :
  [x1] = 0 ->
  forall t swap st, Ref.degenerate st -> Ref.degenerate (Ref.ladder t k x1 swap st).
Proof.
  intros Hx1. induction t as [| t IH]; intros swap st Hst; cbn [Ref.ladder].
  - apply cswap_degenerate. exact Hst.
  - apply IH. apply ladder_step_degenerate; [exact Hx1 | ].
    apply cswap_degenerate. exact Hst.
Qed.

(** The point u = 0 is of low order: [ScalarMult] maps it to the all-zero
    point, for every scalar. *)
Lemma Ref_ScalarMult_low_order_0 (scalar : bytes) :
  Ref.ScalarMult scalar (zeros 32) = zeros 32.
Proof.
  unfold Ref.ScalarMult.
  set (u := BigZ.modulo _ _).
  assert (Hu : [u] = 0) by (vm_compute; reflexivity).
  pose proof (ladder_degenerate u (Ref.decodeScalar25519 scalar) Hu 255 false
                (BigZ.one, BigZ.zero, u, BigZ.one)) as H.
  destruct (Ref.ladder _ _ _ _ _) as [[[x2 z2] x3] z3].
  assert (Hd : Ref.degenerate (x2, z2, x3, z3)).
  { apply H. split; [right; reflexivity | left; exact Hu]. }
  destruct Hd as [[Hx | Hz] _].
  - rewrite (fmul_zero_l _ _ _ Hx). reflexivity.
  - unfold Ref.finv. rewrite (fmul_zero_r _ x2 _ (fpow_zero _ _ _ Hz)). reflexivity.
Qed.

End LowOrder.

(** [X25519] rejects the point u = 0 for every scalar. *)
Lemma Ref_X25519_low_order_0 (scalar : bytes) :
  length scalar = 32%nat ->
  Ref.X25519 scalar (zeros 32) = Err (errorString "bad input point: low order point").
Proof.
  intros Hlen. unfold Ref.X25519. rewrite Hlen.
  rewrite Ref_ScalarMult_low_order_0. reflexivity.
Qed.

(** What [EncryptDataV3] returns is accepted with its password. *)
Lemma Ref_EncryptDataV3_checked (data auth : bytes) (n p : Z) (rnd : Reader)
    (cj : Ref.keystore.CryptoJSON) :
  Ref.EncryptDataV3 data auth n p rnd = Ok cj ->
  Ref.DecryptDataV3 cj (string_of_list_byte auth) = Ok data.
Proof.
  unfold Ref.EncryptDataV3.
  destruct (ReadFull 32 rnd) as [[salt rnd1] | |]; try discriminate.
  destruct (Ref.scrypt_Key auth salt n 8 p 32) as [dk | |]; try discriminate.
  destruct (ReadFull 16 rnd1) as [[iv rnd2] | |]; try discriminate.
  cbv zeta.
  match goal with
  | |- match ?x with _ => _ end = _ -> _ => destruct x as [data' | |] eqn:E; try discriminate
  end.
  destruct (Ref.bytes_eqb data' data) eqn:Q; [ | discriminate].
  intros H. injection H as <-. rewrite E. f_equal. now apply bytes_eqb_eq.
Qed.

Lemma Ref_keystore_round_trip : keystore_round_trip (L := Ref.libs).
Proof. intros data auth n p rnd cj. cbn. apply Ref_EncryptDataV3_checked. Qed.

(** The password enters the key derivation through [hmac.New] only. *)
Lemma Ref_pbkdf2_blocks_key (password password' salt : bytes) (iter keyLen : Z) :
  Ref.hmac_block password = Ref.hmac_block password' ->
  Ref.pbkdf2_blocks password salt iter keyLen
  = Ref.pbkdf2_blocks password' salt iter keyLen.
Proof. intros E. unfold Ref.pbkdf2_blocks. rewrite E. reflexivity. Qed.

Lemma Ref_scrypt_Key_array_key (password password' salt : bytes) (N r p keyLen : Z) :
  Ref.hmac_block password = Ref.hmac_block password' ->
  Ref.scrypt_Key_array password salt N r p keyLen
  = Ref.scrypt_Key_array password' salt N r p keyLen.
Proof.
  intros E. unfold Ref.scrypt_Key_array, Ref.pbkdf2_Key. cbv zeta.
  rewrite (Ref_pbkdf2_blocks_key password password' salt 1 (p * 128 * r) E).
  rewrite (Ref_pbkdf2_blocks_key password password' _ 1 keyLen E).
  reflexivity.
Qed.

Lemma Ref_keystore_password_as_hmac_key :
  keystore_password_as_hmac_key (L := Ref.libs).
Proof.
  intros cj auth auth' E.
  change (Ref.hmac_block (list_byte_of_string auth)
          = Ref.hmac_block (list_byte_of_string auth')) in E.
  change (Ref.DecryptDataV3 cj auth = Ref.DecryptDataV3 cj auth').
  unfold Ref.DecryptDataV3, Ref.getKDFKey.
  destruct (Ref.hex_DecodeString (Ref.keystore.salt cj)) as [salt | e | w];
    [ | reflexivity | reflexivity].
  cbn [rbind].
  rewrite (Ref_scrypt_Key_array_key _ _ salt _ _ _ _ E). reflexivity.
Qed.

Lemma Ref_no_point_for_zero : secp256k1_no_point_for_zero (L := Ref.libs).
Proof. vm_compute. reflexivity. Qed.

(* ===================================================================== *)
(** ** The key agreement of [DH] meets the contracts                      *)
(* ===================================================================== *)

Section DiffieHellman.
Import BigZ.

Local Notation "[ x ]" := (BigZ.to_Z x).
Local Abbreviation p := (2 ^ 255 - 19).

Lemma p25519_value : [Ref.p25519] = p.
Proof. reflexivity. Qed.

Lemma fpow_spec (m b : BigZ.t) (e : positive) :
  0 < [m] -> [Ref.fpow m b e] = [b] ^ Z.pos e mod [m].
Proof.
  intros Hm. induction e as [e IH | e IH | ]; cbn [Ref.fpow]; cbv zeta; unfold Ref.fmul.
  - rewrite BigZ.spec_modulo, BigZ.spec_mul, BigZ.spec_modulo, BigZ.spec_mul, IH.
    rewrite <- (Z.mul_mod ([b] ^ Z.pos e) ([b] ^ Z.pos e)) by lia.
    rewrite Z.mul_mod_idemp_l by lia.
    replace (Z.pos e~1) with (Z.pos e + Z.pos e + 1) by lia.
    rewrite !Z.pow_add_r, Z.pow_1_r by lia. reflexivity.
  - rewrite BigZ.spec_modulo, BigZ.spec_mul, IH.
    rewrite <- Z.mul_mod by lia.
    replace (Z.pos e~0) with (Z.pos e + Z.pos e) by lia.
    rewrite Z.pow_add_r by lia. reflexivity.
  - rewrite BigZ.spec_modulo, Z.pow_1_r. reflexivity.
Qed.

Lemma power_spec (u k : Z) : 0 < k -> DH.power u k = u ^ k mod p.
Proof.
  intros Hk. unfold DH.power. rewrite fpow_spec by reflexivity.
  rewrite BigZ.spec_of_Z, Z2Pos.id by exact Hk. reflexivity.
Qed.


Lemma u8_byte_of_Z_mod (z : Z) : u8 (byte_of_Z z) = z mod 256.
Proof.
  assert (E : byte_of_Z z = byte_of_Z (z mod 256))
    by (unfold byte_of_Z; now rewrite Z.mod_mod).
  rewrite E. apply u8_byte_of_Z. apply Z.mod_pos_bound. lia.
Qed.

Lemma SetBytes_cons (h : byte) (t : bytes) :
  SetBytes (h :: t) = u8 h * 256 ^ Z.of_nat (length t) + SetBytes t.
Proof.
  induction t as [| x t IH] using rev_ind.
  - unfold SetBytes. simpl. lia.
  - rewrite app_comm_cons, !SetBytes_snoc, IH, length_app. cbn [length].
    rewrite Nat2Z.inj_add, Z.pow_add_r, Z.pow_1_r by lia. lia.
Qed.

Lemma be_bytes_S (n : nat) (x : Z) :
  Ref.be_bytes (S n) x
  = byte_of_Z (Z.shiftr x (8 * Z.of_nat n)) :: Ref.be_bytes n x.
Proof. unfold Ref.be_bytes. rewrite seq_S, rev_app_distr. reflexivity. Qed.

(** The big-endian bytes read back as the value, modulo their range. *)
Lemma SetBytes_be_bytes (n : nat) (x : Z) :
  0 <= x -> SetBytes (Ref.be_bytes n x) = x mod 256 ^ Z.of_nat n.
Proof.
  intros Hx. induction n as [| n IH].
  - cbn. now rewrite Z.mod_1_r.
  - rewrite be_bytes_S, SetBytes_cons, be_bytes_length, IH, u8_byte_of_Z_mod.
    rewrite Z.shiftr_div_pow2 by lia.
    replace (2 ^ (8 * Z.of_nat n)) with (256 ^ Z.of_nat n)
      by (change 256 with (2 ^ 8); rewrite <- Z.pow_mul_r by lia; reflexivity).
    rewrite Nat2Z.inj_succ, Z.pow_succ_r by lia.
    rewrite (Z.mul_comm 256), Z.rem_mul_r by lia. lia.
Qed.

Lemma le_encode_length (n : nat) (x : Z) : length (Ref.le_encode n x) = n.
Proof. unfold Ref.le_encode. now rewrite length_rev, be_bytes_length. Qed.

Lemma le_decode_encode (x : Z) :
  0 <= x < 2 ^ 256 -> Ref.le_decode (Ref.le_encode 32 x) = x.
Proof.
  intros Hx. unfold Ref.le_decode, Ref.le_encode.
  rewrite rev_involutive, SetBytes_be_bytes by lia.
  change (256 ^ Z.of_nat 32) with (2 ^ 256). apply Z.mod_small. exact Hx.
Qed.

Lemma decodeUCoordinate_encode (x : Z) :
  0 <= x < 2 ^ 255 -> Ref.decodeUCoordinate (Ref.le_encode 32 x) = x.
Proof.
  intros Hx. unfold Ref.decodeUCoordinate. rewrite le_decode_encode by lia.
  change (2 ^ 255 - 1) with (Z.ones 255). rewrite Z.land_ones by lia.
  apply Z.mod_small. exact Hx.
Qed.

Lemma le_encode_zero (x : Z) :
  0 <= x < 2 ^ 256 -> Ref.le_encode 32 x = zeros 32 -> x = 0.
Proof.
  intros Hx E. rewrite <- (le_decode_encode x Hx), E. reflexivity.
Qed.

(** A clamped scalar is positive: bit 254 is set. *)
Lemma decodeScalar25519_pos (k : bytes) : 0 < Ref.decodeScalar25519 k.
Proof.
  unfold Ref.decodeScalar25519.
  assert (H0 : 0 <= Z.land (Ref.le_decode k) (2 ^ 255 - 1 - 7))
    by (apply Z.land_nonneg; right; lia).
  assert (H1 : 0 <= Z.lor (Z.land (Ref.le_decode k) (2 ^ 255 - 1 - 7)) (2 ^ 254))
    by (apply Z.lor_nonneg; split; lia).
  assert (H2 : Z.testbit (Z.lor (Z.land (Ref.le_decode k) (2 ^ 255 - 1 - 7)) (2 ^ 254)) 254
               = true).
  { rewrite Z.lor_spec. rewrite (Z.pow2_bits_true 254) by lia. apply orb_true_r. }
  destruct (Z.eq_dec (Z.lor (Z.land (Ref.le_decode k) (2 ^ 255 - 1 - 7)) (2 ^ 254)) 0)
    as [E | E]; [ | lia].
  rewrite E in H2. discriminate.
Qed.

(** No power of the base 9 is 0 in the field: 9 has an inverse. *)
Lemma power_of_base_nonzero (e : Z) : 0 <= e -> 9 ^ e mod p <> 0.
Proof.
  intros He Hz.
  pose (i := DH.power 9 (p - 2)).
  assert (Hi : (9 * i) mod p = 1) by (vm_compute; reflexivity).
  assert (H1 : (9 ^ e * i ^ e) mod p = 1).
  { rewrite <- Z.pow_mul_l, Zpow_facts.Zpower_mod, Hi by lia.
    rewrite Z.pow_1_l by lia. reflexivity. }
  rewrite <- Z.mul_mod_idemp_l, Hz in H1 by lia. discriminate.
Qed.

Lemma base_point_value : Ref.decodeUCoordinate curve25519_Basepoint = 9.
Proof. reflexivity. Qed.

(** What [DH.X25519] returns on operands of 32 bytes, when the power is
    not 0. *)
Lemma DH_X25519_Ok (scalar point : bytes) :
  length scalar = 32%nat -> length point = 32%nat ->
  Ref.decodeUCoordinate point ^ Ref.decodeScalar25519 scalar mod p <> 0 ->
  DH.X25519 scalar point
  = Ok (Ref.le_encode 32
          (Ref.decodeUCoordinate point ^ Ref.decodeScalar25519 scalar mod p)).
Proof.
  intros Hs Hp Hnz. unfold DH.X25519. rewrite Hs, Hp. cbn [Nat.eqb negb]. cbv zeta.
  rewrite power_spec by apply decodeScalar25519_pos.
  set (v := Ref.decodeUCoordinate point ^ Ref.decodeScalar25519 scalar mod p) in *.
  assert (Hv : 0 <= v < p) by (apply Z.mod_pos_bound; lia).
  destruct (Ref.bytes_eqb (Ref.le_encode 32 v) (zeros 32)) eqn:Q; [ | reflexivity].
  exfalso. apply bytes_eqb_eq in Q. apply le_encode_zero in Q; lia.
Qed.

Lemma DH_X25519_never_zero : X25519_never_zero (L := DH.libs).
Proof.
  intros scalar point out. change (@curve25519_X25519 DH.libs) with DH.X25519.
  unfold DH.X25519.
  destruct (negb (length scalar =? 32)%nat); [discriminate | ].
  destruct (negb (length point =? 32)%nat); [discriminate | ].
  cbv zeta. destruct (Ref.bytes_eqb _ (zeros 32)) eqn:Q; [discriminate | ].
  intros H. apply Ok_inj in H. subst out. split; [apply le_encode_length | ].
  intros Hz. apply (proj2 (bytes_eqb_eq _ _)) in Hz. rewrite Hz in Q. discriminate.
Qed.

(** The Diffie-Hellman property: both sides raise 9 to the product of the
    two clamped scalars. *)
Lemma DH_X25519_Diffie_Hellman : X25519_Diffie_Hellman (L := DH.libs).
Proof.
  intros a b Ha Hb. change (@curve25519_X25519 DH.libs) with DH.X25519.
  pose proof (decodeScalar25519_pos a) as Hka.
  pose proof (decodeScalar25519_pos b) as Hkb.
  set (ka := Ref.decodeScalar25519 a) in *.
  set (kb := Ref.decodeScalar25519 b) in *.
  assert (Hbase : length curve25519_Basepoint = 32%nat) by reflexivity.
  assert (Ea : DH.X25519 a curve25519_Basepoint = Ok (Ref.le_encode 32 (9 ^ ka mod p))).
  { rewrite (DH_X25519_Ok a _ Ha Hbase); rewrite base_point_value;
      [reflexivity | apply power_of_base_nonzero; lia]. }
  assert (Eb : DH.X25519 b curve25519_Basepoint = Ok (Ref.le_encode 32 (9 ^ kb mod p))).
  { rewrite (DH_X25519_Ok b _ Hb Hbase); rewrite base_point_value;
      [reflexivity | apply power_of_base_nonzero; lia]. }
  assert (Hra : 0 <= 9 ^ ka mod p < 2 ^ 255)
    by (pose proof (Z.mod_pos_bound (9 ^ ka) p); lia).
  assert (Hrb : 0 <= 9 ^ kb mod p < 2 ^ 255)
    by (pose proof (Z.mod_pos_bound (9 ^ kb) p); lia).
  assert (Eab : (9 ^ kb mod p) ^ ka mod p = 9 ^ (ka * kb) mod p).
  { rewrite <- Zpow_facts.Zpower_mod, <- Z.pow_mul_r by lia. f_equal. f_equal. lia. }
  assert (Eba : (9 ^ ka mod p) ^ kb mod p = 9 ^ (ka * kb) mod p).
  { rewrite <- Zpow_facts.Zpower_mod, <- Z.pow_mul_r by lia. reflexivity. }
  exists (Ref.le_encode 32 (9 ^ ka mod p)), (Ref.le_encode 32 (9 ^ kb mod p)),
         (Ref.le_encode 32 (9 ^ (ka * kb) mod p)).
  split; [exact Ea | split; [exact Eb | split]].
  - rewrite (DH_X25519_Ok a _ Ha (le_encode_length 32 _));
      rewrite decodeUCoordinate_encode by exact Hrb; fold ka; rewrite Eab;
      [reflexivity | apply power_of_base_nonzero; lia].
  - rewrite (DH_X25519_Ok b _ Hb (le_encode_length 32 _));
      rewrite decodeUCoordinate_encode by exact Hra; fold kb; rewrite Eba;
      [reflexivity | apply power_of_base_nonzero; lia].
Qed.

End DiffieHellman.

(* ===================================================================== *)
(** ** The claims on the sample runs                                      *)
(* ===================================================================== *)

(** C1 on the sample run: [alice], encrypted under [correct-password] and
    decrypted again. *)
Lemma C1_vault_round_trip_witness :
  exists B',
    Decrypt (L := Ref.libs) Sample.alice_encrypted "correct-password" = Ok B'
    /\ OCRPrivateKey.ID B' = OCRPrivateKey.ID Sample.alice
    /\ ecdsa.D (OCRPrivateKey.onChainSigning B')
       = ecdsa.D (OCRPrivateKey.onChainSigning Sample.alice)
    /\ ecdsa.X (OCRPrivateKey.onChainSigning B')
       = ecdsa.X (OCRPrivateKey.onChainSigning Sample.alice)
    /\ ecdsa.Y (OCRPrivateKey.onChainSigning B')
       = ecdsa.Y (OCRPrivateKey.onChainSigning Sample.alice)
    /\ OCRPrivateKey.offChainSigning B' = OCRPrivateKey.offChainSigning Sample.alice
    /\ OCRPrivateKey.offChainEncryption B'
       = OCRPrivateKey.offChainEncryption Sample.alice.
Proof.
  apply (C1_vault_round_trip (L := Ref.libs)
           Ref_json_raw_round_trip Ref_json_crypto_round_trip Ref_keystore_round_trip
           Sample.entropy_alice [] Sample.alice "correct-password"
           Sample.test_params Sample.entropy_vault Sample.alice_encrypted).
  - vm_compute. reflexivity.
  - vm_compute. reflexivity.
Defined.

(** C2, as amended, on the sample run: [alice] encrypted under
    [correct-password] and decrypted with [wrong-password], for which
    the MAC check of the keystore fails. *)
Lemma C2_wrong_password_witness :
  Decrypt (L := Ref.libs) Sample.alice_encrypted "wrong-password"
  = Err ErrCouldNotDecrypt.
Proof.
  refine (proj2 (proj1 (C2_wrong_password (L := Ref.libs)
                          Ref_json_raw_round_trip Ref_json_crypto_round_trip
                          Ref_keystore_round_trip Ref_keystore_password_as_hmac_key
                          Sample.alice "correct-password" Sample.test_params
                          Sample.entropy_vault Sample.alice_encrypted _)
                   Sample.alice_encrypted "wrong-password") _).
  - vm_compute. reflexivity.
  - exists Scenario.alice_crypto. split; vm_compute; reflexivity.
Defined.

(** C2 as stated fails, in both halves.  A wrong password and a
    corrupted container are told apart by the error that [Decrypt]
    returns: with the wrong password the container of [alice] is
    rejected by the keystore; with one byte overwritten it is rejected
    by the JSON decoder, whatever the password, with another error and
    another message.  And a password other than the one of the
    container opens it: the same password followed by a NUL character,
    which the key derivation does not tell from it. *)
Lemma C2_counterexample :
  Decrypt (L := Ref.libs) Sample.alice_encrypted "wrong-password"
  = Err (withMessage keystore_ErrDecrypt "could not decrypt OCR key")
  /\ Decrypt (L := Ref.libs) Sample.alice_corrupted "correct-password"
     = Err (withMessage Ref.ErrJSONSyntax "invalid cryptoJSON for OCR key")
  /\ Decrypt (L := Ref.libs) Sample.alice_corrupted "wrong-password"
     = Err (withMessage Ref.ErrJSONSyntax "invalid cryptoJSON for OCR key")
  /\ withMessage keystore_ErrDecrypt "could not decrypt OCR key"
     <> withMessage Ref.ErrJSONSyntax "invalid cryptoJSON for OCR key"
  /\ Error (withMessage keystore_ErrDecrypt "could not decrypt OCR key")
     <> Error (withMessage Ref.ErrJSONSyntax "invalid cryptoJSON for OCR key")
  /\ encrypt (L := Ref.libs) Sample.alice "correct-password" Sample.test_params
       Sample.entropy_vault = Ok Sample.alice_encrypted
  /\ Scenario.padded_password <> "correct-password"
  /\ Decrypt (L := Ref.libs) Sample.alice_encrypted Scenario.padded_password
     = Ok Sample.alice_decrypted.
Proof.
  repeat (apply conj); try (vm_compute; reflexivity); discriminate.
Qed.

(** C3 on the sample run: the ID of [alice]. *)
Lemma C3_identity_derivation_witness :
  (exists x y m,
      ecdsa.X (OCRPrivateKey.onChainSigning Sample.alice) = Some x
      /\ ecdsa.Y (OCRPrivateKey.onChainSigning Sample.alice) = Some y
      /\ json_Marshal_raw (Libraries := Ref.libs)
           (ocrPrivateKeyRawData.mk x y
              (ecdsa.D (OCRPrivateKey.onChainSigning Sample.alice))
              (OCRPrivateKey.offChainSigning Sample.alice)
              (OCRPrivateKey.offChainEncryption Sample.alice)) = Ok m
      /\ json_Marshal (L := Ref.libs) Sample.alice = Ok m
      /\ OCRPrivateKey.ID Sample.alice
         = hex_EncodeToString (sha256_Sum256 (Libraries := Ref.libs) m))
  /\ String.length (OCRPrivateKey.ID Sample.alice) = 64%nat
  /\ all_chars is_lower_hex (OCRPrivateKey.ID Sample.alice) = true
  /\ (forall (ent2 ent2' : Reader) (B2 : OCRPrivateKey.t),
         NewOCRPrivateKey (L := Ref.libs) ent2 = Ok (B2, ent2') ->
         ecdsa.D (OCRPrivateKey.onChainSigning B2)
         = ecdsa.D (OCRPrivateKey.onChainSigning Sample.alice) ->
         OCRPrivateKey.offChainSigning B2 = OCRPrivateKey.offChainSigning Sample.alice ->
         OCRPrivateKey.offChainEncryption B2
         = OCRPrivateKey.offChainEncryption Sample.alice ->
         OCRPrivateKey.ID B2 = OCRPrivateKey.ID Sample.alice).
Proof.
  apply (C3_identity_derivation (L := Ref.libs) Ref_sha256_size
           Sample.entropy_alice [] Sample.alice).
  vm_compute. reflexivity.
Defined.

(** C4 on the sample run: the scalar and the public point of [alice]. *)
Lemma C4_key_generation_range_witness :
  1 <= ecdsa.D (OCRPrivateKey.onChainSigning Sample.alice) <= S256_N - 1
  /\ (exists x y,
         ecdsa.X (OCRPrivateKey.onChainSigning Sample.alice) = Some x
         /\ ecdsa.Y (OCRPrivateKey.onChainSigning Sample.alice) = Some y
         /\ curve_ScalarBaseMult (Libraries := Ref.libs)
              (Bytes (ecdsa.D (OCRPrivateKey.onChainSigning Sample.alice)))
            = (Some x, Some y))
  /\ (exists r1,
         cryptorand_Int S256_N Sample.entropy_alice
         = Ok (ecdsa.D (OCRPrivateKey.onChainSigning Sample.alice), r1)).
Proof.
  pose proof (C4_key_generation_range (L := Ref.libs) Ref_no_point_for_zero
                Sample.entropy_alice [] Sample.alice) as H.
  cbv zeta in H.
  destruct H as (H1 & H2 & H3 & _); [vm_compute; reflexivity | ].
  exact (conj H1 (conj H2 H3)).
Defined.

(** In the reference libraries the bundles that [NewOCRPrivateKey]
    returns have a scalar of [[1, N-1]]. *)
Lemma Ref_generated_scalar_nonzero (ent ent' : Reader) (B : OCRPrivateKey.t) :
  NewOCRPrivateKey (L := Ref.libs) ent = Ok (B, ent') ->
  1 <= ecdsa.D (OCRPrivateKey.onChainSigning B) < S256_N.
Proof.
  intros H. apply NewOCRPrivateKey_inv in H.
  destruct H as (d & r1 & pub & priv & r2 & encp & x & y & m & Hd & Hs & _ & _ & _ & ->).
  apply cryptorand_Int_range in Hd. cbn [OCRPrivateKey.onChainSigning ecdsa.D].
  destruct (Z.eq_dec d 0) as [-> | Hnz]; [ | lia].
  exfalso. change (Ref.ScalarBaseMult (Bytes 0) = (Some x, Some y)) in Hs.
  vm_compute in Hs. discriminate.
Qed.

(** X20 (the zero draw).  [cryptorand.Int] returns the scalar 0 when the
    reader delivers 32 zero bytes: the draw ranges over [[0, N-1]].  A
    secp256k1 library without a point for 0 returns nil coordinates then,
    and when the two other keys are read, [NewOCRPrivateKey] panics on
    the nil pointer in [MarshalJSON], returning no bundle and no error. *)
Theorem X20_zero_draw_panics :
  forall L : Libraries,
    secp256k1_no_point_for_zero ->
    forall (rest : Reader) (keys : bytes * bytes) (r2 : Reader)
           (encp : bytes) (r3 : Reader),
      ed25519_GenerateKey rest = Ok (keys, r2) ->
      ReadFull curve25519_ScalarSize r2 = Ok (encp, r3) ->
      cryptorand_Int S256_N (zeros 32 ++ rest) = Ok (0, rest)
      /\ NewOCRPrivateKey (zeros 32 ++ rest)
         = Panic "invalid memory address or nil pointer dereference".
Proof.
  intros L Hzero rest keys r2 encp r3 Hg Hr.
  assert (E : cryptorand_Int S256_N (zeros 32 ++ rest) = Ok (0, rest))
    by (apply (cryptorand_Int_accepts (zeros 32) rest); reflexivity).
  split; [exact E | ].
  unfold NewOCRPrivateKey, bind, lift, json_Marshal, MarshalJSON.
  rewrite E, Hg, Hr.
  cbn [OCRPrivateKey.onChainSigning ecdsa.X ecdsa.Y snd].
  unfold secp256k1_no_point_for_zero in Hzero. rewrite Hzero. reflexivity.
Qed.

(** X20 on the reference libraries: a reader that delivers 96 zero
    bytes. *)
Lemma X20_zero_draw_panics_witness :
  cryptorand_Int S256_N (zeros 32 ++ zeros 64) = Ok (0, zeros 64)
  /\ NewOCRPrivateKey (L := Ref.libs) (zeros 32 ++ zeros 64)
     = Panic "invalid memory address or nil pointer dereference".
Proof.
  apply (X20_zero_draw_panics Ref.libs Ref_no_point_for_zero (zeros 64)
           (Ref.Sum256 (zeros 32), zeros 32 ++ Ref.Sum256 (zeros 32))
           (zeros 32) (zeros 32) []).
  - vm_compute. reflexivity.
  - vm_compute. reflexivity.
Defined.

(** C5 on the sample run, with the key agreement of [DH]: [alice] and
    [bob]. *)
Lemma C5_key_agreement_symmetry_witness :
  exists pa pb s,
    PublicKeyConfig (L := DH.libs) Sample.alice = Ok pa
    /\ PublicKeyConfig (L := DH.libs) Sample.bob = Ok pb
    /\ curve25519_X25519 (Libraries := DH.libs)
         (OCRPrivateKey.offChainEncryption Sample.alice) curve25519_Basepoint = Ok pa
    /\ curve25519_X25519 (Libraries := DH.libs)
         (OCRPrivateKey.offChainEncryption Sample.bob) curve25519_Basepoint = Ok pb
    /\ ConfigDiffieHelman (L := DH.libs) Sample.alice pb = Ok s
    /\ ConfigDiffieHelman (L := DH.libs) Sample.bob pa = Ok s
    /\ curve25519_X25519 (Libraries := DH.libs)
         (OCRPrivateKey.offChainEncryption Sample.alice) pb = Ok s
    /\ curve25519_X25519 (Libraries := DH.libs)
         (OCRPrivateKey.offChainEncryption Sample.bob) pa = Ok s
    /\ length s = 32%nat
    /\ s <> zeros 32.
Proof.
  apply (C5_key_agreement_symmetry (L := DH.libs)
           DH_X25519_never_zero DH_X25519_Diffie_Hellman
           Sample.entropy_alice [] Sample.entropy_bob [] Sample.alice Sample.bob).
  - vm_compute. reflexivity.
  - vm_compute. reflexivity.
Defined.

(** C6 on the sample run: [alice] and the peer point u = 0, of low
    order. *)
Lemma C6_degenerate_peer_point_witness :
  ConfigDiffieHelman (L := Ref.libs) Sample.alice Sample.low_order_0
  = Err (errorString "bad input point: low order point").
Proof.
  apply (proj1 (C6_degenerate_peer_point (L := Ref.libs) Ref_X25519_never_zero
                  Sample.alice Sample.low_order_0)).
  vm_compute. reflexivity.
Defined.

(** In the reference libraries every bundle that [NewOCRPrivateKey]
    returns rejects the peer point u = 0. *)
Lemma generated_rejects_low_order_0 (ent ent' : Reader) (B : OCRPrivateKey.t) :
  NewOCRPrivateKey (L := Ref.libs) ent = Ok (B, ent') ->
  ConfigDiffieHelman (L := Ref.libs) B Sample.low_order_0
  = Err (errorString "bad input point: low order point").
Proof.
  intros H. apply NewOCRPrivateKey_inv in H.
  destruct H as (d & r1 & pub & priv & r2 & encp & x & y & m & _ & _ & _ & Hr & _ & ->).
  apply ReadFull_inv in Hr. destruct Hr as [Hlen _].
  unfold ConfigDiffieHelman, rbind. cbn [OCRPrivateKey.offChainEncryption].
  change (@curve25519_X25519 Ref.libs) with Ref.X25519.
  unfold Sample.low_order_0. rewrite (Ref_X25519_low_order_0 encp Hlen). reflexivity.
Qed.

(** C7 on the sample run: [alice] and a bundle with the same public
    components and other secrets render the same. *)
Lemma C7_non_disclosure_witness :
  OCRPrivateKey_String (L := Ref.libs) Sample.alice
  = OCRPrivateKey_String (L := Ref.libs) Sample.alice_other_secrets.
Proof.
  refine (proj1 (C7_non_disclosure (L := Ref.libs)
                   Sample.alice Sample.alice_other_secrets _ _)).
  - vm_compute. reflexivity.
  - vm_compute. reflexivity.
Defined.

(** C8 on the sample run: the container of [alice], and the same
    container stored under an ID that is not the hash. *)
Lemma C8_identity_threading_witness :
  (EncryptedOCRPrivateKey.ID Sample.alice_encrypted = OCRPrivateKey.ID Sample.alice
   /\ EncryptedOCRPrivateKey.OnChainSigningAddress Sample.alice_encrypted
      = PublicKeyAddressOnChain (L := Ref.libs) Sample.alice
   /\ EncryptedOCRPrivateKey.OffChainPublicKey Sample.alice_encrypted
      = PublicKeyOffChain (L := Ref.libs) Sample.alice)
  /\ OCRPrivateKey.ID Sample.relabelled_decrypted
     = EncryptedOCRPrivateKey.ID Sample.alice_relabelled.
Proof.
  apply (C8_identity_threading (L := Ref.libs) Sample.alice "correct-password"
           Sample.test_params Sample.entropy_vault Sample.alice_encrypted
           Sample.alice_relabelled "correct-password" Sample.relabelled_decrypted).
  - vm_compute. reflexivity.
  - vm_compute. reflexivity.
Defined.

(** C9, as amended, on the sample run: a container that the keystore
    wrote under the raw password is rejected with that password. *)
Lemma C9_password_adulteration_witness :
  Decrypt (L := Ref.libs) Sample.foreign_container "correct-password"
  = Err ErrCouldNotDecrypt.
Proof.
  refine (proj2 (proj2 (proj2 (proj2
            (C9_password_adulteration (L := Ref.libs)
               Ref_json_raw_round_trip Ref_json_crypto_round_trip
               Ref_keystore_round_trip Ref_keystore_password_as_hmac_key
               Sample.alice Sample.alice_json "correct-password"
               Sample.test_params Sample.entropy_vault _))))
            Sample.foreign_container Sample.foreign_crypto _ _).
  - vm_compute. reflexivity.
  - vm_compute. reflexivity.
  - vm_compute. reflexivity.
Defined.

(** C9 as stated fails: [Decrypt] with a password accepts a container
    that was encrypted, through [encrypt], under another password: the
    same characters followed by a NUL character. *)
Lemma C9_counterexample :
  encrypt (L := Ref.libs) Sample.alice Scenario.padded_password Sample.test_params
    Sample.entropy_vault = Ok Scenario.alice_padded
  /\ Scenario.padded_password <> "correct-password"
  /\ Decrypt (L := Ref.libs) Scenario.alice_padded "correct-password"
     = Ok Sample.alice_decrypted.
Proof.
  repeat (apply conj); try (vm_compute; reflexivity); discriminate.
Qed.

(** C10 on the sample run: [alice], the JSON text of [alice]
    unmarshalled, and the container of [alice] decrypted. *)
Lemma C10_curve_field_asymmetry_witness :
  ecdsa.Curve (OCRPrivateKey.onChainSigning Sample.alice) = Some secp256k1_S256
  /\ ecdsa.Curve (OCRPrivateKey.onChainSigning Sample.alice_unmarshalled) = None
  /\ ecdsa.Curve (OCRPrivateKey.onChainSigning Sample.alice_decrypted) = None
  /\ Sample.alice_unmarshalled <> Sample.alice
  /\ Sample.alice_decrypted <> Sample.alice.
Proof.
  apply (C10_curve_field_asymmetry (L := Ref.libs)
           Sample.entropy_alice [] Sample.alice
           zero_OCRPrivateKey Sample.alice_json Sample.alice_unmarshalled
           Sample.alice_encrypted "correct-password" Sample.alice_decrypted).
  - vm_compute. reflexivity.
  - vm_compute. reflexivity.
  - vm_compute. reflexivity.
Defined.

(** The shared secret of the two sample bundles, with the X25519 of the
    reference libraries, is that of RFC 7748, from both sides. *)
Example RFC7748_shared_secret :
  PublicKeyConfig (L := Ref.libs) Sample.alice = Ok Sample.alice_public
  /\ PublicKeyConfig (L := Ref.libs) Sample.bob = Ok Sample.bob_public
  /\ ConfigDiffieHelman (L := Ref.libs) Sample.alice Sample.bob_public
     = Ok Sample.shared_secret
  /\ ConfigDiffieHelman (L := Ref.libs) Sample.bob Sample.alice_public
     = Ok Sample.shared_secret.
Proof. repeat (apply conj); vm_compute; reflexivity. Qed.

(** The key derivation of the reference libraries on the test vectors
    of RFC 4231 (HMAC-SHA256, case 2) and RFC 7914 (PBKDF2 and scrypt). *)
Example RFC4231_hmac :
  Ref.hmac_Sum (Ref.hmac_block (list_byte_of_string "Jefe"))
    (list_byte_of_string "what do ya want for nothing?")
  = Ref.from_hex "5bdcc146bf60754e6a042426089575c75a003f089d2739839dec58b964ec3843".
Proof. vm_compute. reflexivity. Qed.

Example RFC7914_pbkdf2 :
  Ref.pbkdf2_Key (list_byte_of_string "passwd") (list_byte_of_string "salt") 1 64
  = Ref.from_hex
      ("55ac046e56e3089fec1691c22544b605f94185216dde0465e68b9d57c20dacbc"
       ++ "49ca9cccf179b645991664b39d77ef317c71b845b1e30bd509112041d3a19783").
Proof. vm_compute. reflexivity. Qed.

Example RFC7914_scrypt :
  Ref.scrypt_Key [] [] 16 1 1 64
  = Ok (Ref.from_hex
          ("77d6576238657b203b19ca42c18a0497f16b4844e3074ae8dfdffa3fede21442"
           ++ "fcd0069ded0948f8326a753a0fc81f17e8d3e0fb2e0d3628cf35e20c38d18906")).
Proof. vm_compute. reflexivity. Qed.

(** [PublicKeyConfig], unlike [ConfigDiffieHelman], never returns an
    error. *)
Lemma PublicKeyConfig_no_error {L : Libraries} (pk : OCRPrivateKey.t) (e : error) :
  PublicKeyConfig pk <> Err e.
Proof.
  unfold PublicKeyConfig. destruct (curve25519_X25519 _ _); discriminate.
Qed.

(* ===================================================================== *)
(** ** Further properties of private_key.go                               *)
(* ===================================================================== *)

(** [hex.EncodeToString] loses nothing: the two digits give the byte. *)
Lemma hex_byte_inj (v w : byte) :
  hexdigit (Z.shiftr (u8 v) 4) = hexdigit (Z.shiftr (u8 w) 4) ->
  hexdigit (Z.land (u8 v) 15) = hexdigit (Z.land (u8 w) 15) ->
  v = w.
Proof.
  intros Hh Hl.
  assert (D : forall b : byte,
             Ref.hexval (hexdigit (Z.shiftr (u8 b) 4)) = Some (Z.shiftr (u8 b) 4)
             /\ Ref.hexval (hexdigit (Z.land (u8 b) 15)) = Some (Z.land (u8 b) 15)
             /\ u8 b = 16 * Z.shiftr (u8 b) 4 + Z.land (u8 b) 15)
    by (intros b; destruct b; repeat split; reflexivity).
  destruct (D v) as (Hv1 & Hv2 & Hv), (D w) as (Hw1 & Hw2 & Hw).
  rewrite Hh, Hw1 in Hv1. rewrite Hl, Hw2 in Hv2.
  apply u8_inj. injection Hv1 as E1. injection Hv2 as E2. lia.
Qed.

Lemma hex_EncodeToString_inj (a b : bytes) :
  hex_EncodeToString a = hex_EncodeToString b -> a = b.
Proof.
  revert b. induction a as [| v a IH]; intros [| w b]; cbn [hex_EncodeToString];
    try discriminate; [reflexivity | ].
  intros H. injection H as Hh Hl Hr.
  f_equal; [apply hex_byte_inj; assumption | apply IH; exact Hr].
Qed.

Lemma Bytes_length (d : Z) (m : nat) :
  0 <= d < 256 ^ Z.of_nat m -> (length (Bytes d) <= m)%nat.
Proof.
  intros Hd. unfold Bytes. rewrite length_rev. apply le_bytes_length.
  rewrite Z.abs_eq by lia. exact Hd.
Qed.

Section Further.
Context {L : Libraries}.

(** [Decrypt] undoes [encrypt] on any bundle that [encrypt] accepts. *)
Lemma encrypt_Decrypt (pk : OCRPrivateKey.t) (P : string) (sp : scryptParams.t)
    (rnd : Reader) (enc : EncryptedOCRPrivateKey.t) :
  json_raw_round_trip -> json_crypto_round_trip -> keystore_round_trip ->
  encrypt pk P sp rnd = Ok enc ->
  exists x y m,
    ecdsa.X (OCRPrivateKey.onChainSigning pk) = Some x
    /\ ecdsa.Y (OCRPrivateKey.onChainSigning pk) = Some y
    /\ MarshalJSON pk = Ok m
    /\ Decrypt enc P
       = Ok (OCRPrivateKey.mk (OCRPrivateKey.ID pk)
               (ecdsa.mk None (Some x) (Some y)
                  (ecdsa.D (OCRPrivateKey.onChainSigning pk)))
               (OCRPrivateKey.offChainSigning pk)
               (OCRPrivateKey.offChainEncryption pk)).
Proof.
  intros Hraw Hcj Hks Henc.
  apply encrypt_inv in Henc. destruct Henc as (m & cj & c & Hm & He & Hc & ->).
  pose proof Hm as Hm'. unfold MarshalJSON in Hm.
  destruct (ecdsa.X (OCRPrivateKey.onChainSigning pk)) as [x |]; [ | discriminate].
  destruct (ecdsa.Y (OCRPrivateKey.onChainSigning pk)) as [y |]; [ | discriminate].
  exists x, y, m. repeat split; [exact Hm' | ].
  apply Hks in He. rewrite string_of_list_byte_of_string in He.
  etransitivity;
    [eapply Decrypt_Ok; [apply Hcj; exact Hc | exact He | apply Hraw; exact Hm] | ].
  reflexivity.
Qed.

(** X1 (JSON codec).  When encoding/json round trips on the raw data,
    [UnmarshalJSON] on the bytes of [MarshalJSON pk] succeeds on any
    receiver: it restores the three private keys and the public
    coordinates of [pk], keeps the receiver's ID, leaves the curve nil,
    and the rebuilt bundle marshals to the same bytes again. *)
Theorem X1_json_codec_round_trip :
  json_raw_round_trip ->
  forall (pk pk0 : OCRPrivateKey.t) (b : bytes),
    MarshalJSON pk = Ok b ->
    exists U,
      UnmarshalJSON pk0 b = Ok U
      /\ OCRPrivateKey.ID U = OCRPrivateKey.ID pk0
      /\ ecdsa.Curve (OCRPrivateKey.onChainSigning U) = None
      /\ ecdsa.X (OCRPrivateKey.onChainSigning U)
         = ecdsa.X (OCRPrivateKey.onChainSigning pk)
      /\ ecdsa.Y (OCRPrivateKey.onChainSigning U)
         = ecdsa.Y (OCRPrivateKey.onChainSigning pk)
      /\ ecdsa.D (OCRPrivateKey.onChainSigning U)
         = ecdsa.D (OCRPrivateKey.onChainSigning pk)
      /\ OCRPrivateKey.offChainSigning U = OCRPrivateKey.offChainSigning pk
      /\ OCRPrivateKey.offChainEncryption U = OCRPrivateKey.offChainEncryption pk
      /\ MarshalJSON U = Ok b.
Proof.
  intros Hraw pk pk0 b Hm. pose proof Hm as Hm'. unfold MarshalJSON in Hm.
  destruct (ecdsa.X (OCRPrivateKey.onChainSigning pk)) as [x |] eqn:Ex; [ | discriminate].
  destruct (ecdsa.Y (OCRPrivateKey.onChainSigning pk)) as [y |] eqn:Ey; [ | discriminate].
  eexists. unfold UnmarshalJSON, rbind. rewrite (Hraw _ _ Hm).
  split; [reflexivity | ]. cbn. repeat split; try reflexivity.
  unfold MarshalJSON. cbn. exact Hm.
Qed.

(** X2 (re-encryption).  A bundle that [Decrypt] returned can be
    encrypted again, under any password and cost parameters, and
    decrypting the new container returns that very bundle: ID, nil curve
    and all. *)
Theorem X2_reencryption_round_trip :
  json_raw_round_trip -> json_crypto_round_trip -> keystore_round_trip ->
  forall (stored : EncryptedOCRPrivateKey.t) (P1 : string) (pk : OCRPrivateKey.t)
         (P2 : string) (sp : scryptParams.t) (rnd : Reader)
         (enc : EncryptedOCRPrivateKey.t),
    Decrypt stored P1 = Ok pk ->
    encrypt pk P2 sp rnd = Ok enc ->
    Decrypt enc P2 = Ok pk.
Proof.
  intros Hraw Hcj Hks stored P1 pk P2 sp rnd enc Hdec Henc.
  destruct (encrypt_Decrypt _ _ _ _ _ Hraw Hcj Hks Henc) as (x & y & m & Hx & Hy & _ & ->).
  apply Decrypt_inv in Hdec. destruct Hdec as (cj & m' & raw & _ & _ & _ & ->).
  cbn in Hx, Hy. injection Hx as <-. injection Hy as <-. reflexivity.
Qed.

(** X3 (serialization across the vault).  For a generated bundle, the
    bundle that comes back from [encrypt] and [Decrypt] marshals to the
    bytes of the original, byte for byte, and its ID is again the
    hexadecimal SHA-256 digest of these bytes. *)
Theorem X3_vault_preserves_serialization :
  json_raw_round_trip -> json_crypto_round_trip -> keystore_round_trip ->
  forall (ent ent' : Reader) (B : OCRPrivateKey.t) (P : string)
         (sp : scryptParams.t) (rnd : Reader) (enc : EncryptedOCRPrivateKey.t)
         (B' : OCRPrivateKey.t),
    NewOCRPrivateKey ent = Ok (B, ent') ->
    encrypt B P sp rnd = Ok enc ->
    Decrypt enc P = Ok B' ->
    exists m,
      json_Marshal B = Ok m
      /\ json_Marshal B' = Ok m
      /\ OCRPrivateKey.ID B' = hex_EncodeToString (sha256_Sum256 m).
Proof.
  intros Hraw Hcj Hks ent ent' B P sp rnd enc B' Hgen Henc Hdec.
  destruct (encrypt_Decrypt _ _ _ _ _ Hraw Hcj Hks Henc) as (x & y & m & Hx & Hy & Hm & Hd).
  rewrite Hd in Hdec. injection Hdec as <-.
  apply NewOCRPrivateKey_inv in Hgen.
  destruct Hgen as (d & r1 & pub & priv & r2 & encp & x' & y' & m0 & _ & _ & _ & _ & Hm0 & ->).
  cbn in Hx, Hy. injection Hx as <-. injection Hy as <-.
  unfold MarshalJSON in Hm. cbn in Hm. rewrite Hm0 in Hm. injection Hm as <-.
  exists m0. unfold json_Marshal, MarshalJSON. cbn. repeat split; assumption.
Qed.

(** X4 (identity collisions).  When encoding/json round trips, two
    generated bundles with the same ID are the same bundle, unless their
    two different serializations have the same SHA-256 digest. *)
Theorem X4_identity_collision :
  json_raw_round_trip ->
  forall (ent1 ent1' ent2 ent2' : Reader) (B1 B2 : OCRPrivateKey.t),
    NewOCRPrivateKey ent1 = Ok (B1, ent1') ->
    NewOCRPrivateKey ent2 = Ok (B2, ent2') ->
    OCRPrivateKey.ID B1 = OCRPrivateKey.ID B2 ->
    B1 = B2
    \/ exists m1 m2,
         json_Marshal B1 = Ok m1 /\ json_Marshal B2 = Ok m2
         /\ m1 <> m2 /\ sha256_Sum256 m1 = sha256_Sum256 m2.
Proof.
  intros Hraw ent1 ent1' ent2 ent2' B1 B2 H1 H2 Hid.
  apply NewOCRPrivateKey_inv in H1, H2.
  destruct H1 as (d1 & ra & puba & priv1 & rb & encp1 & x1 & y1 & m1
                  & _ & _ & _ & _ & Hm1 & ->).
  destruct H2 as (d2 & rc & pubb & priv2 & rd & encp2 & x2 & y2 & m2
                  & _ & _ & _ & _ & Hm2 & ->).
  cbn in Hid. apply hex_EncodeToString_inj in Hid.
  destruct (list_eq_dec Byte.byte_eq_dec m1 m2) as [<- | Hne].
  - left. apply Hraw in Hm1, Hm2. rewrite Hm1 in Hm2. injection Hm2 as <- <- <- <- <-.
    reflexivity.
  - right. exists m1, m2. unfold json_Marshal, MarshalJSON. cbn.
    repeat split; assumption.
Qed.

(** X5 (shape of a generated bundle).  In a bundle that
    [NewOCRPrivateKey] returned, the on-chain scalar is in [[0, N-1]]; the
    bytes handed to [ScalarBaseMult] are at most 32 and read back as the
    scalar; both public coordinates are present and are the ones
    [ScalarBaseMult] returned for these bytes; the curve is set; and the
    exchange scalar has exactly 32 bytes. *)
Theorem X5_generated_bundle_shape :
  forall (ent ent' : Reader) (B : OCRPrivateKey.t),
    NewOCRPrivateKey ent = Ok (B, ent') ->
    let k := OCRPrivateKey.onChainSigning B in
    0 <= ecdsa.D k < S256_N
    /\ (length (Bytes (ecdsa.D k)) <= 32)%nat
    /\ SetBytes (Bytes (ecdsa.D k)) = ecdsa.D k
    /\ (exists x y,
          ecdsa.X k = Some x /\ ecdsa.Y k = Some y
          /\ curve_ScalarBaseMult (Bytes (ecdsa.D k)) = (Some x, Some y))
    /\ ecdsa.Curve k = Some secp256k1_S256
    /\ length (OCRPrivateKey.offChainEncryption B) = 32%nat.
Proof.
  intros ent ent' B H. apply NewOCRPrivateKey_inv in H.
  destruct H as (d & r1 & pub & priv & r2 & encp & x & y & m & Hd & Hs & _ & Hr & _ & ->).
  apply cryptorand_Int_range in Hd. apply ReadFull_inv in Hr. destruct Hr as [Hr _].
  cbn [OCRPrivateKey.onChainSigning OCRPrivateKey.offChainEncryption
       ecdsa.D ecdsa.X ecdsa.Y ecdsa.Curve].
  split; [exact Hd | ]. split.
  { apply Bytes_length. assert (S256_N < 256 ^ Z.of_nat 32) by reflexivity. lia. }
  split; [apply SetBytes_Bytes; lia | ].
  split; [exists x, y; repeat split; exact Hs | ].
  split; [reflexivity | exact Hr].
Qed.

(** X6 (errors of the generator).  An error of [NewOCRPrivateKey] is the
    error of one of its four steps, returned as it is: the draw of the
    on-chain scalar, the Ed25519 key generation, the read of the exchange
    scalar, or the marshalling of the bundle for its ID. *)
Theorem X6_generator_errors :
  forall (ent : Reader) (e : error),
    NewOCRPrivateKey ent = Err e ->
    cryptorand_Int S256_N ent = Err e
    \/ (exists d r1,
          cryptorand_Int S256_N ent = Ok (d, r1)
          /\ (ed25519_GenerateKey r1 = Err e
              \/ exists keys r2,
                   ed25519_GenerateKey r1 = Ok (keys, r2)
                   /\ (ReadFull curve25519_ScalarSize r2 = Err e
                       \/ exists encp r3 x y,
                            ReadFull curve25519_ScalarSize r2 = Ok (encp, r3)
                            /\ curve_ScalarBaseMult (Bytes d) = (Some x, Some y)
                            /\ json_Marshal_raw
                                 (ocrPrivateKeyRawData.mk x y d (snd keys) encp)
                               = Err e))).
Proof.
  intros ent e. unfold NewOCRPrivateKey, bind, lift, ret, json_Marshal, MarshalJSON.
  destruct (cryptorand_Int S256_N ent) as [[d r1] | e0 | w] eqn:Ed; try discriminate.
  2: { intros H. injection H as <-. left. reflexivity. }
  destruct (ed25519_GenerateKey r1) as [[keys r2] | e0 | w] eqn:Eg; try discriminate.
  2: { intros H. injection H as <-. eauto 8. }
  destruct (ReadFull curve25519_ScalarSize r2) as [[encp r3] | e0 | w] eqn:Er;
    try discriminate.
  2: { intros H. injection H as <-. eauto 12. }
  cbn [OCRPrivateKey.onChainSigning OCRPrivateKey.offChainSigning
       OCRPrivateKey.offChainEncryption ecdsa.X ecdsa.Y ecdsa.D].
  destruct (curve_ScalarBaseMult (Bytes d)) as [[x |] [y |]] eqn:Es;
    cbn [fst snd]; try discriminate.
  match goal with
  | |- context [json_Marshal_raw ?raw] =>
      destruct (json_Marshal_raw raw) as [m | e0 | w] eqn:Em; try discriminate
  end.
  intros H. injection H as <-. right. exists d, r1. split; [reflexivity | right].
  exists keys, r2. split; [exact Eg | right].
  exists encp, r3, x, y. repeat split; assumption.
Qed.

(** X7 (errors of [encrypt]).  An error of [encrypt] is the error of the
    marshalling step as it is, or the error of the keystore under the
    message "could not encrypt ocr key", or the error of the encoder of
    the container under "could not encode cryptoJSON". *)
Theorem X7_encrypt_errors :
  forall (pk : OCRPrivateKey.t) (auth : string) (sp : scryptParams.t) (rnd : Reader)
         (e : error),
    encrypt pk auth sp rnd = Err e ->
    json_Marshal pk = Err e
    \/ (exists m cause,
          json_Marshal pk = Ok m
          /\ keystore_EncryptDataV3 m (list_byte_of_string (adulteratedPassword auth))
               (scryptParams.N sp) (scryptParams.P sp) rnd = Err cause
          /\ e = errors_Wrapf cause "could not encrypt ocr key")
    \/ (exists m cj cause,
          json_Marshal pk = Ok m
          /\ keystore_EncryptDataV3 m (list_byte_of_string (adulteratedPassword auth))
               (scryptParams.N sp) (scryptParams.P sp) rnd = Ok cj
          /\ json_Marshal_crypto cj = Err cause
          /\ e = errors_Wrapf cause "could not encode cryptoJSON").
Proof.
  intros pk auth sp rnd e. unfold encrypt, rbind.
  destruct (json_Marshal pk) as [m | e0 | w] eqn:Em; try discriminate.
  2: { intros H. injection H as <-. left. reflexivity. }
  destruct (keystore_EncryptDataV3 m _ _ _ rnd) as [cj | e0 | w] eqn:Ee;
    cbn [wrap_err]; try discriminate.
  2: { intros H. injection H as <-. right; left. exists m, e0. repeat split. exact Ee. }
  destruct (json_Marshal_crypto cj) as [c | e0 | w] eqn:Ec;
    cbn [wrap_err]; try discriminate.
  intros H. injection H as <-. right; right. exists m, cj, e0.
  repeat split; assumption.
Qed.

(** X8 (errors of [Decrypt]).  An error of [Decrypt] wraps the error of
    one of its three steps under the message of that step: "invalid
    cryptoJSON for OCR key" when the container does not parse, "could not
    decrypt OCR key" when the keystore refuses, "could not unmarshal OCR
    key" when the decrypted bytes are not a key bundle. *)
Theorem X8_Decrypt_errors :
  forall (encKey : EncryptedOCRPrivateKey.t) (auth : string) (e : error),
    Decrypt encKey auth = Err e ->
    (exists cause,
        json_Unmarshal_crypto (EncryptedOCRPrivateKey.EncryptedPrivKeys encKey)
        = Err cause
        /\ e = errors_Wrapf cause "invalid cryptoJSON for OCR key")
    \/ (exists cj cause,
          json_Unmarshal_crypto (EncryptedOCRPrivateKey.EncryptedPrivKeys encKey) = Ok cj
          /\ keystore_DecryptDataV3 cj (adulteratedPassword auth) = Err cause
          /\ e = errors_Wrapf cause "could not decrypt OCR key")
    \/ (exists cj m cause,
          json_Unmarshal_crypto (EncryptedOCRPrivateKey.EncryptedPrivKeys encKey) = Ok cj
          /\ keystore_DecryptDataV3 cj (adulteratedPassword auth) = Ok m
          /\ json_Unmarshal_raw m = Err cause
          /\ e = errors_Wrapf cause "could not unmarshal OCR key").
Proof.
  intros encKey auth e. unfold Decrypt, json_Unmarshal, UnmarshalJSON, rbind.
  destruct (json_Unmarshal_crypto _) as [cj | e0 | w] eqn:Ec;
    cbn [wrap_err]; try discriminate.
  2: { intros H. injection H as <-. left. exists e0. split; reflexivity. }
  destruct (keystore_DecryptDataV3 cj _) as [m | e0 | w] eqn:Ed;
    cbn [wrap_err]; try discriminate.
  2: { intros H. injection H as <-. right; left. exists cj, e0.
       repeat split. exact Ed. }
  destruct (json_Unmarshal_raw m) as [raw | e0 | w] eqn:Er;
    cbn [wrap_err]; try discriminate.
  intros H. injection H as <-. right; right. exists cj, m, e0.
  repeat split; assumption.
Qed.

(** X9 (public view across the vault).  When the libraries round trip,
    the bundle decrypted from what [encrypt] returned has the address and
    the off-chain public key recorded in the container, and it renders,
    and computes its key-agreement public key, as the original bundle
    does. *)
Theorem X9_public_view_preserved :
  json_raw_round_trip -> json_crypto_round_trip -> keystore_round_trip ->
  forall (pk : OCRPrivateKey.t) (P : string) (sp : scryptParams.t) (rnd : Reader)
         (enc : EncryptedOCRPrivateKey.t) (pk' : OCRPrivateKey.t),
    encrypt pk P sp rnd = Ok enc ->
    Decrypt enc P = Ok pk' ->
    PublicKeyAddressOnChain pk' = EncryptedOCRPrivateKey.OnChainSigningAddress enc
    /\ PublicKeyOffChain pk' = EncryptedOCRPrivateKey.OffChainPublicKey enc
    /\ OCRPrivateKey_String pk' = OCRPrivateKey_String pk
    /\ GoStringer pk' = GoStringer pk
    /\ PublicKeyConfig pk' = PublicKeyConfig pk.
Proof.
  intros Hraw Hcj Hks pk P sp rnd enc pk' Henc Hdec.
  destruct (encrypt_Decrypt _ _ _ _ _ Hraw Hcj Hks Henc) as (x & y & m & Hx & Hy & _ & Hd).
  rewrite Hd in Hdec. injection Hdec as <-.
  apply encrypt_inv in Henc. destruct Henc as (m' & cj & c & _ & _ & _ & ->).
  unfold GoStringer, OCRPrivateKey_String, PublicKeyAddressOnChain, PublicKeyOffChain,
    PublicKeyConfig, onChainPrivateKey_Address.
  cbn. rewrite Hx, Hy. repeat split; reflexivity.
Qed.

(** X10 ([PublicKeyConfig] hides the error).  [PublicKeyConfig] is
    [ConfigDiffieHelman] on the base point of the curve, except for the
    error: it never returns one; when the multiplication fails it returns
    the all-zero array in place of a public key; and what it returns
    always has 32 bytes. *)
Theorem X10_PublicKeyConfig_hides_error :
  forall pk : OCRPrivateKey.t,
    (forall e, PublicKeyConfig pk <> Err e)
    /\ (forall rv, PublicKeyConfig pk = Ok rv -> length rv = 32%nat)
    /\ (forall s,
          ConfigDiffieHelman pk curve25519_Basepoint = Ok s ->
          PublicKeyConfig pk = Ok s)
    /\ (forall e,
          ConfigDiffieHelman pk curve25519_Basepoint = Err e ->
          PublicKeyConfig pk = Ok (zeros 32)).
Proof.
  intros pk. unfold PublicKeyConfig, ConfigDiffieHelman, rbind.
  unfold curve25519_PointSize, ed25519_PublicKeySize.
  destruct (curve25519_X25519 _ _) as [rv | e0 | w]; repeat split;
    try discriminate; try reflexivity;
    try (intros rv' H; injection H as <-; apply copy_into_length).
  intros s H. exact H.
Qed.

(** X11 (size of the shared point).  A shared point that
    [ConfigDiffieHelman] returns has 32 bytes whatever the library
    returned: the library's bytes cut or zero-padded to 32, and the
    library's bytes themselves when these are 32. *)
Theorem X11_shared_point_size :
  forall (pk : OCRPrivateKey.t) (base s : bytes),
    ConfigDiffieHelman pk base = Ok s ->
    length s = 32%nat
    /\ exists p,
         curve25519_X25519 (OCRPrivateKey.offChainEncryption pk) base = Ok p
         /\ s = firstn 32 p ++ zeros (32 - length p)
         /\ (length p = 32%nat -> s = p).
Proof.
  intros pk base s. unfold ConfigDiffieHelman, rbind.
  destruct (curve25519_X25519 _ base) as [p | e | w]; try discriminate.
  intros H. injection H as <-. unfold ed25519_PublicKeySize.
  split; [apply copy_into_length | ].
  exists p. split; [reflexivity | split; [reflexivity | ]].
  intros Hl. apply copy_into_same. exact Hl.
Qed.

(** X12 (the adulterated password).  [adulteratedPassword] is injective:
    different passwords reach the keystore as different passwords; its
    result is six characters longer than the password, so never empty. *)
Theorem X12_adulteratedPassword_injective :
  forall a b : string,
    (adulteratedPassword a = adulteratedPassword b <-> a = b)
    /\ String.length (adulteratedPassword a) = (6 + String.length a)%nat
    /\ (list_byte_of_string (adulteratedPassword a)
        = list_byte_of_string (adulteratedPassword b) <-> a = b).
Proof.
  intros a b. split; [ | split].
  - split; [apply adulteratedPassword_inj | intros ->; reflexivity].
  - reflexivity.
  - split; [ | intros ->; reflexivity].
    intros H. apply adulteratedPassword_inj, list_byte_of_string_inj, H.
Qed.

(** X13 (bundles without a public point).  The bundles that
    [NewOCRPrivateKey], [UnmarshalJSON] and [Decrypt] return have both
    public coordinates; on a bundle that lacks one, [MarshalJSON] and
    [encrypt] panic on the nil pointer and return neither a result nor an
    error. *)
Theorem X13_public_point_present :
  (forall (ent ent' : Reader) (B : OCRPrivateKey.t),
      NewOCRPrivateKey ent = Ok (B, ent') ->
      ecdsa.X (OCRPrivateKey.onChainSigning B) <> None
      /\ ecdsa.Y (OCRPrivateKey.onChainSigning B) <> None)
  /\ (forall (pk0 : OCRPrivateKey.t) (b : bytes) (U : OCRPrivateKey.t),
        UnmarshalJSON pk0 b = Ok U ->
        ecdsa.X (OCRPrivateKey.onChainSigning U) <> None
        /\ ecdsa.Y (OCRPrivateKey.onChainSigning U) <> None)
  /\ (forall (enc : EncryptedOCRPrivateKey.t) (auth : string) (pk : OCRPrivateKey.t),
        Decrypt enc auth = Ok pk ->
        ecdsa.X (OCRPrivateKey.onChainSigning pk) <> None
        /\ ecdsa.Y (OCRPrivateKey.onChainSigning pk) <> None)
  /\ (forall pk : OCRPrivateKey.t,
        ecdsa.X (OCRPrivateKey.onChainSigning pk) = None
        \/ ecdsa.Y (OCRPrivateKey.onChainSigning pk) = None ->
        MarshalJSON pk = Panic "invalid memory address or nil pointer dereference"
        /\ forall auth sp rnd,
             encrypt pk auth sp rnd
             = Panic "invalid memory address or nil pointer dereference").
Proof.
  split; [ | split; [ | split]].
  - intros ent ent' B H. apply NewOCRPrivateKey_inv in H.
    destruct H as (d & r1 & pub & priv & r2 & encp & x & y & m & _ & _ & _ & _ & _ & ->).
    cbn. split; discriminate.
  - intros pk0 b U H. unfold UnmarshalJSON, rbind in H.
    destruct (json_Unmarshal_raw b) as [raw | e | w]; try discriminate.
    injection H as <-. cbn. split; discriminate.
  - intros enc auth pk H. apply Decrypt_inv in H.
    destruct H as (cj & m & raw & _ & _ & _ & ->). cbn. split; discriminate.
  - intros pk H.
    assert (Hm : MarshalJSON pk = Panic "invalid memory address or nil pointer dereference").
    { unfold MarshalJSON.
      destruct (ecdsa.X (OCRPrivateKey.onChainSigning pk)) as [x |],
               (ecdsa.Y (OCRPrivateKey.onChainSigning pk)) as [y |];
        try reflexivity.
      destruct H; discriminate. }
    split; [exact Hm | ]. intros auth sp rnd. unfold encrypt, json_Marshal, rbind.
    rewrite Hm. reflexivity.
Qed.

End Further.

(* ===================================================================== *)
(** ** The further properties on the sample runs                          *)
(* ===================================================================== *)

(** X1 on the sample run: the JSON text of [alice], unmarshalled into
    the zero value. *)
Lemma X1_json_codec_round_trip_witness :
  exists U,
    UnmarshalJSON (L := Ref.libs) zero_OCRPrivateKey Sample.alice_json = Ok U
    /\ OCRPrivateKey.ID U = OCRPrivateKey.ID zero_OCRPrivateKey
    /\ ecdsa.Curve (OCRPrivateKey.onChainSigning U) = None
    /\ ecdsa.X (OCRPrivateKey.onChainSigning U)
       = ecdsa.X (OCRPrivateKey.onChainSigning Sample.alice)
    /\ ecdsa.Y (OCRPrivateKey.onChainSigning U)
       = ecdsa.Y (OCRPrivateKey.onChainSigning Sample.alice)
    /\ ecdsa.D (OCRPrivateKey.onChainSigning U)
       = ecdsa.D (OCRPrivateKey.onChainSigning Sample.alice)
    /\ OCRPrivateKey.offChainSigning U = OCRPrivateKey.offChainSigning Sample.alice
    /\ OCRPrivateKey.offChainEncryption U
       = OCRPrivateKey.offChainEncryption Sample.alice
    /\ MarshalJSON (L := Ref.libs) U = Ok Sample.alice_json.
Proof.
  apply (X1_json_codec_round_trip (L := Ref.libs) Ref_json_raw_round_trip
           Sample.alice zero_OCRPrivateKey Sample.alice_json).
  vm_compute. reflexivity.
Defined.

(** X2 on the sample run: the decrypted bundle of [alice], encrypted
    under [new-password] and decrypted again. *)
Lemma X2_reencryption_round_trip_witness :
  Decrypt (L := Ref.libs) Scenario.alice_rekeyed "new-password"
  = Ok Sample.alice_decrypted.
Proof.
  apply (X2_reencryption_round_trip (L := Ref.libs)
           Ref_json_raw_round_trip Ref_json_crypto_round_trip Ref_keystore_round_trip
           Sample.alice_encrypted "correct-password" Sample.alice_decrypted
           "new-password" Sample.test_params Scenario.entropy_rekey
           Scenario.alice_rekeyed).
  - vm_compute. reflexivity.
  - vm_compute. reflexivity.
Defined.

(** X3 on the sample run: [alice] and its decrypted copy. *)
Lemma X3_vault_preserves_serialization_witness :
  exists m,
    json_Marshal (L := Ref.libs) Sample.alice = Ok m
    /\ json_Marshal (L := Ref.libs) Sample.alice_decrypted = Ok m
    /\ OCRPrivateKey.ID Sample.alice_decrypted
       = hex_EncodeToString (sha256_Sum256 (Libraries := Ref.libs) m).
Proof.
  apply (X3_vault_preserves_serialization (L := Ref.libs)
           Ref_json_raw_round_trip Ref_json_crypto_round_trip Ref_keystore_round_trip
           Sample.entropy_alice [] Sample.alice "correct-password"
           Sample.test_params Sample.entropy_vault Sample.alice_encrypted
           Sample.alice_decrypted).
  - vm_compute. reflexivity.
  - vm_compute. reflexivity.
  - vm_compute. reflexivity.
Defined.

(** X4 on the sample run: the entropy of [alice], and the same entropy
    with one more byte behind it, give two runs with the same ID. *)
Lemma X4_identity_collision_witness :
  Sample.alice = Sample.alice
  \/ exists m1 m2,
       json_Marshal (L := Ref.libs) Sample.alice = Ok m1
       /\ json_Marshal (L := Ref.libs) Sample.alice = Ok m2
       /\ m1 <> m2
       /\ sha256_Sum256 (Libraries := Ref.libs) m1
          = sha256_Sum256 (Libraries := Ref.libs) m2.
Proof.
  apply (X4_identity_collision (L := Ref.libs) Ref_json_raw_round_trip
           Sample.entropy_alice [] (Sample.entropy_alice ++ [x00]) [x00]
           Sample.alice Sample.alice).
  - vm_compute. reflexivity.
  - vm_compute. reflexivity.
  - reflexivity.
Defined.

(** X5 on the sample run: [alice]. *)
Lemma X5_generated_bundle_shape_witness :
  0 <= ecdsa.D (OCRPrivateKey.onChainSigning Sample.alice) < S256_N
  /\ (length (Bytes (ecdsa.D (OCRPrivateKey.onChainSigning Sample.alice))) <= 32)%nat
  /\ SetBytes (Bytes (ecdsa.D (OCRPrivateKey.onChainSigning Sample.alice)))
     = ecdsa.D (OCRPrivateKey.onChainSigning Sample.alice)
  /\ (exists x y,
        ecdsa.X (OCRPrivateKey.onChainSigning Sample.alice) = Some x
        /\ ecdsa.Y (OCRPrivateKey.onChainSigning Sample.alice) = Some y
        /\ curve_ScalarBaseMult (Libraries := Ref.libs)
             (Bytes (ecdsa.D (OCRPrivateKey.onChainSigning Sample.alice)))
           = (Some x, Some y))
  /\ ecdsa.Curve (OCRPrivateKey.onChainSigning Sample.alice) = Some secp256k1_S256
  /\ length (OCRPrivateKey.offChainEncryption Sample.alice) = 32%nat.
Proof.
  apply (X5_generated_bundle_shape (L := Ref.libs) Sample.entropy_alice [] Sample.alice).
  vm_compute. reflexivity.
Defined.

(** X6 on a reader that runs dry after 40 bytes: enough for the on-chain
    scalar, not for the Ed25519 seed. *)
Lemma X6_generator_errors_witness :
  cryptorand_Int S256_N (firstn 40 Sample.entropy_alice) = Err ErrEntropy
  \/ (exists d r1,
        cryptorand_Int S256_N (firstn 40 Sample.entropy_alice) = Ok (d, r1)
        /\ (ed25519_GenerateKey (Libraries := Ref.libs) r1 = Err ErrEntropy
            \/ exists keys r2,
                 ed25519_GenerateKey (Libraries := Ref.libs) r1 = Ok (keys, r2)
                 /\ (ReadFull curve25519_ScalarSize r2 = Err ErrEntropy
                     \/ exists encp r3 x y,
                          ReadFull curve25519_ScalarSize r2 = Ok (encp, r3)
                          /\ curve_ScalarBaseMult (Libraries := Ref.libs) (Bytes d)
                             = (Some x, Some y)
                          /\ json_Marshal_raw (Libraries := Ref.libs)
                               (ocrPrivateKeyRawData.mk x y d (snd keys) encp)
                             = Err ErrEntropy))).
Proof.
  apply (X6_generator_errors (L := Ref.libs) (firstn 40 Sample.entropy_alice) ErrEntropy).
  vm_compute. reflexivity.
Defined.

(** X7 on the sample run: [alice] and a cost parameter that is not a
    power of two, which the key derivation refuses. *)
Lemma X7_encrypt_errors_witness :
  let e := withMessage (errorString "scrypt: N must be > 1 and a power of 2")
             "could not encrypt ocr key" in
  let sp := scryptParams.mk 3 1 in
  json_Marshal (L := Ref.libs) Sample.alice = Err e
  \/ (exists m cause,
        json_Marshal (L := Ref.libs) Sample.alice = Ok m
        /\ keystore_EncryptDataV3 (Libraries := Ref.libs) m
             (list_byte_of_string (adulteratedPassword "correct-password"))
             (scryptParams.N sp) (scryptParams.P sp) Sample.entropy_vault = Err cause
        /\ e = errors_Wrapf cause "could not encrypt ocr key")
  \/ (exists m cj cause,
        json_Marshal (L := Ref.libs) Sample.alice = Ok m
        /\ keystore_EncryptDataV3 (Libraries := Ref.libs) m
             (list_byte_of_string (adulteratedPassword "correct-password"))
             (scryptParams.N sp) (scryptParams.P sp) Sample.entropy_vault = Ok cj
        /\ json_Marshal_crypto cj = Err cause
        /\ e = errors_Wrapf cause "could not encode cryptoJSON").
Proof.
  apply (X7_encrypt_errors (L := Ref.libs) Sample.alice "correct-password"
           (scryptParams.mk 3 1) Sample.entropy_vault).
  vm_compute. reflexivity.
Defined.

(** X8 on the sample run: a container that opens with the password and
    holds bytes that are not a key bundle. *)
Lemma X8_Decrypt_errors_witness :
  let e := withMessage Ref.ErrJSONSyntax "could not unmarshal OCR key" in
  let c := EncryptedOCRPrivateKey.EncryptedPrivKeys Scenario.not_a_bundle in
  (exists cause,
      json_Unmarshal_crypto (Libraries := Ref.libs) c = Err cause
      /\ e = errors_Wrapf cause "invalid cryptoJSON for OCR key")
  \/ (exists cj cause,
        json_Unmarshal_crypto (Libraries := Ref.libs) c = Ok cj
        /\ keystore_DecryptDataV3 cj (adulteratedPassword "correct-password") = Err cause
        /\ e = errors_Wrapf cause "could not decrypt OCR key")
  \/ (exists cj m cause,
        json_Unmarshal_crypto (Libraries := Ref.libs) c = Ok cj
        /\ keystore_DecryptDataV3 cj (adulteratedPassword "correct-password") = Ok m
        /\ json_Unmarshal_raw (Libraries := Ref.libs) m = Err cause
        /\ e = errors_Wrapf cause "could not unmarshal OCR key").
Proof.
  apply (X8_Decrypt_errors (L := Ref.libs) Scenario.not_a_bundle "correct-password").
  vm_compute. reflexivity.
Defined.

(** X9 on the sample run: [alice], its container and its decrypted
    copy. *)
Lemma X9_public_view_preserved_witness :
  PublicKeyAddressOnChain (L := Ref.libs) Sample.alice_decrypted
  = EncryptedOCRPrivateKey.OnChainSigningAddress Sample.alice_encrypted
  /\ PublicKeyOffChain (L := Ref.libs) Sample.alice_decrypted
     = EncryptedOCRPrivateKey.OffChainPublicKey Sample.alice_encrypted
  /\ OCRPrivateKey_String (L := Ref.libs) Sample.alice_decrypted
     = OCRPrivateKey_String (L := Ref.libs) Sample.alice
  /\ GoStringer (L := Ref.libs) Sample.alice_decrypted
     = GoStringer (L := Ref.libs) Sample.alice
  /\ PublicKeyConfig (L := Ref.libs) Sample.alice_decrypted
     = PublicKeyConfig (L := Ref.libs) Sample.alice.
Proof.
  apply (X9_public_view_preserved (L := Ref.libs)
           Ref_json_raw_round_trip Ref_json_crypto_round_trip Ref_keystore_round_trip
           Sample.alice "correct-password" Sample.test_params Sample.entropy_vault
           Sample.alice_encrypted Sample.alice_decrypted).
  - vm_compute. reflexivity.
  - vm_compute. reflexivity.
Defined.

(** X11 on the sample run: the shared point of [alice] with the public
    key of [bob]. *)
Lemma X11_shared_point_size_witness :
  length Sample.shared_secret = 32%nat
  /\ exists p,
       curve25519_X25519 (Libraries := Ref.libs)
         (OCRPrivateKey.offChainEncryption Sample.alice) Sample.bob_public = Ok p
       /\ Sample.shared_secret = firstn 32 p ++ zeros (32 - length p)
       /\ (length p = 32%nat -> Sample.shared_secret = p).
Proof.
  apply (X11_shared_point_size (L := Ref.libs) Sample.alice Sample.bob_public
           Sample.shared_secret).
  vm_compute. reflexivity.
Defined.

(* ===================================================================== *)
(** ** The store of the configuration tests                               *)
(* ===================================================================== *)

Section ConfigStore.
Import config_test.
Variable utils_Big : Type.
Variable Big_String : utils_Big -> string.

Local Abbreviation LoadString := (config_test.LoadString utils_Big Big_String).
Local Abbreviation StoreString := (config_test.StoreString utils_Big Big_String).
Local Abbreviation Clear := (config_test.Clear utils_Big Big_String).

(** The inner map of a chain, empty when the chain has none. *)
Local Abbreviation inner f c :=
  (match f !! Big_String c with Some m => m | None => base.empty end).

Lemma StoreString_fst (f : fakeChainConfigORM) (c : utils_Big) (k v : string) :
  fst (StoreString f c k v) = <[Big_String c := <[k := v]> (inner f c)]> f.
Proof.
  unfold config_test.StoreString. destruct (f !! Big_String c) as [m |]; [reflexivity | ].
  cbn [fst]. apply fin_maps.insert_insert_eq.
Qed.

Lemma Clear_fst (f : fakeChainConfigORM) (c : utils_Big) (k : string) :
  fst (Clear f c k)
  = match f !! Big_String c with
    | Some m => <[Big_String c := base.delete k m]> f
    | None => f
    end.
Proof. unfold config_test.Clear. destruct (f !! Big_String c); reflexivity. Qed.

Lemma LoadString_insert (f : fakeChainConfigORM) (c c' : utils_Big) (m : gmap string string)
    (k' : string) :
  LoadString (<[Big_String c := m]> f) c' k'
  = if string_dec (Big_String c) (Big_String c')
    then match m !! k' with Some v => (v, true) | None => (EmptyString, false) end
    else LoadString f c' k'.
Proof.
  unfold config_test.LoadString.
  destruct (string_dec (Big_String c) (Big_String c')) as [E | E].
  - rewrite E, fin_maps.lookup_insert_eq. reflexivity.
  - rewrite fin_maps.lookup_insert_ne by exact E. reflexivity.
Qed.

Lemma LoadString_StoreString_same (f : fakeChainConfigORM) (c : utils_Big) (k v : string) :
  LoadString (fst (StoreString f c k v)) c k = (v, true).
Proof.
  rewrite StoreString_fst, LoadString_insert.
  destruct (string_dec _ _) as [_ | E]; [ | contradiction].
  rewrite fin_maps.lookup_insert_eq. reflexivity.
Qed.

Lemma LoadString_StoreString_other (f : fakeChainConfigORM) (c : utils_Big) (k v : string)
    (c' : utils_Big) (k' : string) :
  Big_String c' <> Big_String c \/ k' <> k ->
  LoadString (fst (StoreString f c k v)) c' k' = LoadString f c' k'.
Proof.
  intros H. rewrite StoreString_fst, LoadString_insert.
  destruct (string_dec _ _) as [E | E]; [ | reflexivity].
  destruct H as [H | H]; [symmetry in E; contradiction | ].
  rewrite fin_maps.lookup_insert_ne by (intros ->; contradiction).
  unfold config_test.LoadString. rewrite <- E.
  destruct (f !! Big_String c) as [m |]; [reflexivity | ].
  rewrite fin_maps.lookup_empty. reflexivity.
Qed.

Lemma LoadString_Clear_same (f : fakeChainConfigORM) (c : utils_Big) (k : string) :
  LoadString (fst (Clear f c k)) c k = (EmptyString, false).
Proof.
  rewrite Clear_fst. destruct (f !! Big_String c) as [m |] eqn:Ef.
  - rewrite LoadString_insert. destruct (string_dec _ _) as [_ | E]; [ | contradiction].
    rewrite fin_maps.lookup_delete_eq. reflexivity.
  - unfold config_test.LoadString. rewrite Ef. reflexivity.
Qed.

Lemma LoadString_Clear_other (f : fakeChainConfigORM) (c : utils_Big) (k : string)
    (c' : utils_Big) (k' : string) :
  Big_String c' <> Big_String c \/ k' <> k ->
  LoadString (fst (Clear f c k)) c' k' = LoadString f c' k'.
Proof.
  intros H. rewrite Clear_fst.
  destruct (f !! Big_String c) as [m |] eqn:Ef; [ | reflexivity].
  rewrite LoadString_insert. destruct (string_dec _ _) as [E | E]; [ | reflexivity].
  destruct H as [H | H]; [symmetry in E; contradiction | ].
  rewrite fin_maps.lookup_delete_ne by (intros ->; contradiction).
  unfold config_test.LoadString. rewrite <- E, Ef. reflexivity.
Qed.

(** [LoadString] reads the chain through the text of its identifier. *)
Lemma LoadString_same_text (f : fakeChainConfigORM) (c c' : utils_Big) (k : string) :
  Big_String c' = Big_String c -> LoadString f c' k = LoadString f c k.
Proof. intros E. unfold config_test.LoadString. rewrite E. reflexivity. Qed.

(** X14 (store, then load).  [StoreString] returns no error, and
    [LoadString] of the same chain and key then returns the stored value
    and [true], whatever the store held before. *)
Theorem X14_StoreString_LoadString :
  forall (f : fakeChainConfigORM) (c : utils_Big) (k v : string),
    snd (StoreString f c k v) = None
    /\ LoadString (fst (StoreString f c k v)) c k = (v, true).
Proof.
  intros f c k v. split; [ | apply LoadString_StoreString_same].
  unfold config_test.StoreString. destruct (f !! Big_String c); reflexivity.
Qed.

(** X15 (a store touches one entry).  [StoreString] changes what
    [LoadString] returns for its own chain and key only: under another
    key, or for a chain whose identifier has another text, [LoadString]
    returns what it returned before. *)
Theorem X15_StoreString_frame :
  forall (f : fakeChainConfigORM) (c : utils_Big) (k v : string)
         (c' : utils_Big) (k' : string),
    Big_String c' <> Big_String c \/ k' <> k ->
    LoadString (fst (StoreString f c k v)) c' k' = LoadString f c' k'.
Proof. intros f c k v c' k'. apply LoadString_StoreString_other. Qed.

(** X16 (clear).  [Clear] returns no error; [LoadString] of the cleared
    chain and key then returns the empty string and [false]; and every
    other entry reads as before. *)
Theorem X16_Clear_LoadString :
  forall (f : fakeChainConfigORM) (c : utils_Big) (k : string),
    snd (Clear f c k) = None
    /\ LoadString (fst (Clear f c k)) c k = (EmptyString, false)
    /\ forall (c' : utils_Big) (k' : string),
         Big_String c' <> Big_String c \/ k' <> k ->
         LoadString (fst (Clear f c k)) c' k' = LoadString f c' k'.
Proof.
  intros f c k. split; [ | split].
  - unfold config_test.Clear. destruct (f !! Big_String c); reflexivity.
  - apply LoadString_Clear_same.
  - intros c' k'. apply LoadString_Clear_other.
Qed.

(** X17 (last write wins).  Two stores under the same chain and key
    leave the store that the second alone would leave. *)
Theorem X17_StoreString_overwrites :
  forall (f : fakeChainConfigORM) (c : utils_Big) (k v1 v2 : string),
    fst (StoreString (fst (StoreString f c k v1)) c k v2) = fst (StoreString f c k v2).
Proof.
  intros f c k v1 v2. rewrite (StoreString_fst (fst _)), !StoreString_fst.
  rewrite fin_maps.lookup_insert_eq, !fin_maps.insert_insert_eq. reflexivity.
Qed.

(** X18 (the chains of the store).  [Clear] neither adds nor removes a
    chain: a chain has an inner map after it exactly when it had one
    before, also when its last key was cleared.  [StoreString] adds the
    chain it writes to and no other. *)
Theorem X18_chains_of_the_store :
  forall (f : fakeChainConfigORM) (c : utils_Big) (k v : string) (chain : string),
    (fst (Clear f c k) !! chain = None <-> f !! chain = None)
    /\ (fst (StoreString f c k v) !! chain = None
        <-> f !! chain = None /\ chain <> Big_String c).
Proof.
  intros f c k v chain. split.
  - rewrite Clear_fst. destruct (f !! Big_String c) as [m |] eqn:Ef; [ | tauto].
    destruct (string_dec (Big_String c) chain) as [<- | E].
    + rewrite fin_maps.lookup_insert_eq, Ef. split; discriminate.
    + rewrite fin_maps.lookup_insert_ne by exact E. tauto.
  - rewrite StoreString_fst.
    destruct (string_dec (Big_String c) chain) as [<- | E].
    + rewrite fin_maps.lookup_insert_eq. split; [discriminate | tauto].
    + rewrite fin_maps.lookup_insert_ne by exact E.
      split; [intros H; split; [exact H | congruence] | tauto].
Qed.

(** X19 (store, then clear).  Clearing a key that was just stored leaves
    a store that reads, everywhere, like the store in which the key was
    cleared without being stored. *)
Theorem X19_StoreString_Clear :
  forall (f : fakeChainConfigORM) (c : utils_Big) (k v : string)
         (c' : utils_Big) (k' : string),
    LoadString (fst (Clear (fst (StoreString f c k v)) c k)) c' k'
    = LoadString (fst (Clear f c k)) c' k'.
Proof.
  intros f c k v c' k'.
  destruct (string_dec (Big_String c') (Big_String c)) as [Ec | Ec];
    [destruct (string_dec k' k) as [-> | Ek] | ].
  - rewrite !(LoadString_same_text _ c c' k Ec), !LoadString_Clear_same. reflexivity.
  - rewrite !LoadString_Clear_other by (right; exact Ek).
    apply LoadString_StoreString_other. right; exact Ek.
  - rewrite !LoadString_Clear_other by (left; exact Ec).
    apply LoadString_StoreString_other. left; exact Ec.
Qed.

End ConfigStore.

(** X15 on the sample store: a value stored for chain 56 leaves what
    chain 1 has under the same key. *)
Lemma X15_StoreString_frame_witness :
  config_test.LoadString Z Ref.print_Z
    (fst (config_test.StoreString Z Ref.print_Z config_test.sample_store
            56 "EvmGasPriceDefault" "5000000000"))
    1 "EvmGasPriceDefault"
  = config_test.LoadString Z Ref.print_Z config_test.sample_store
      1 "EvmGasPriceDefault".
Proof.
  apply X15_StoreString_frame. left. vm_compute. discriminate.
Defined.
